(** * Task lifecycle of the video backend

    A shallow embedding of the task registry ([utils/task-manager.js]), the
    yt-dlp supervision code ([utils/video-processor.js], [processVideo]) and
    the background driver ([routes/api.js], [processVideoAsync]), followed by
    the properties of the task lifecycle that hold, or fail, on that code.
    The further properties also cover [getVideoInfo], the key of the API
    ([server.js]) and the download form of the web client that polls the
    tasks ([api/backend.ts], [components/DownloadForm.tsx]).

    Conventions of the embedding:
    - a JavaScript number is [number]: NaN, the two infinities, or a finite
      value kept as an exact rational (every finite double is one);
    - a JavaScript string is a [string] of bytes; white space is the ASCII
      white space;
    - a task record is a finite map from property names to [field]s, the
      registry a JavaScript [Map], which iterates in insertion order, hence an
      association list;
    - the clock ([new Date()], [Date.now()]) and [uuidv4()] are inputs of the
      functions that read them;
    - console output is not part of the modelled state; where the template
      literal of a log line of [createTask] or [updateTask] can throw, the
      call is modelled with how it completes. *)

From Stdlib Require Import ZArith QArith Qround Ascii String List Lia.
From stdpp Require Import gmap strings list fin_maps pretty sorting.

Set Warnings "-register-all".
Local Open Scope string_scope.
Local Open Scope Z_scope.

(** ** Numbers and values *)

Inductive number :=
| NaN
| Infinity (negative : bool)
| Finite (q : Q).

(** Values that [JSON.parse] produces. *)
Inductive json :=
| JNull
| JBool (b : bool)
| JNumber (x : number)
| JString (s : string)
| JArray (elements : list json)
| JObject (members : list (string * json)).

Definition isNaN (x : number) : bool :=
  match x with NaN => true | _ => false end.

(** [o.k] on a decoded value, [None] standing for [undefined]: the own
    property of an object, the last of the members of that name; the names
    read by the program ([status], [percent]) are no properties of numbers,
    strings, booleans or arrays.  [null.k] throws, see [progress_of]. *)
Fixpoint assoc_last (k : string) (members : list (string * json)) : option json :=
  match members with
  | [] => None
  | (k', v) :: rest =>
      match assoc_last k rest with
      | Some w => Some w
      | None => if String.eqb k k' then Some v else None
      end
  end.

Definition get_property (k : string) (v : json) : option json :=
  match v with
  | JObject members => assoc_last k members
  | _ => None
  end.

(** ToBoolean. *)
Definition truthy (v : option json) : bool :=
  match v with
  | None => false
  | Some JNull => false
  | Some (JBool b) => b
  | Some (JNumber NaN) => false
  | Some (JNumber (Infinity _)) => true
  | Some (JNumber (Finite q)) => negb (Qeq_bool q 0)
  | Some (JString s) => negb (String.eqb s "")
  | Some (JArray _) => true
  | Some (JObject _) => true
  end.

(** ** Text *)

Definition newline : ascii := "010"%char.
Definition dquote : ascii := "034"%char.

Definition is_space (c : ascii) : bool :=
  let n := nat_of_ascii c in
  ((9 <=? n)%nat && (n <=? 13)%nat) || (n =? 32)%nat.

Definition is_digit (c : ascii) : bool :=
  let n := nat_of_ascii c in (48 <=? n)%nat && (n <=? 57)%nat.

Definition digit_val (c : ascii) : Z := Z.of_nat (nat_of_ascii c) - 48.

Fixpoint trimStart (s : string) : string :=
  match s with
  | String c rest => if is_space c then trimStart rest else s
  | EmptyString => EmptyString
  end.

Fixpoint trimEnd (s : string) : string :=
  match s with
  | String c rest =>
      match trimEnd rest with
      | EmptyString => if is_space c then EmptyString else String c EmptyString
      | t => String c t
      end
  | EmptyString => EmptyString
  end.

(** [s.trim()] *)
Definition trim (s : string) : string := trimEnd (trimStart s).

(** [s.split('\n')]: never empty, the last element is the text after the
    last newline. *)
Fixpoint split_lines (s : string) : list string :=
  match s with
  | EmptyString => [EmptyString]
  | String c rest =>
      if Ascii.eqb c newline then EmptyString :: split_lines rest
      else match split_lines rest with
           | l :: ls => String c l :: ls
           | [] => [String c EmptyString]
           end
  end.

(** ** parseFloat *)

(** The digits at the head of [s]: their value, their count, and the rest. *)
Fixpoint digits (acc : Z) (n : Z) (s : string) : Z * Z * string :=
  match s with
  | String c rest =>
      if is_digit c then digits (10 * acc + digit_val c) (n + 1) rest
      else (acc, n, s)
  | EmptyString => (acc, n, s)
  end.

(** [m * 10^e] *)
Definition decimal (m e : Z) : Q :=
  if 0 <=? e then inject_Z (m * 10 ^ e)
  else Qred (Qmake m (Z.to_pos (10 ^ (- e)))).

(** An exponent part at the head of [s], if there is a complete one. *)
Definition exponent (s : string) : option (Z * string) :=
  match s with
  | String c rest =>
      if Ascii.eqb c "e" || Ascii.eqb c "E" then
        let '(neg, rest') :=
          match rest with
          | String "-" r => (true, r)
          | String "+" r => (false, r)
          | _ => (false, rest)
          end in
        let '(e, n, rest'') := digits 0 0 rest' in
        if 0 <? n then Some (if neg : bool then - e else e, rest'') else None
      else None
  | EmptyString => None
  end.

Definition signed (neg : bool) (q : Q) : Q := if neg then Qopp q else q.

(** [parseFloat(s)] on a string: the longest prefix, after leading white
    space, that is a decimal literal. *)
Definition parseFloat_string (s : string) : number :=
  let s := trimStart s in
  let '(neg, s) :=
    match s with
    | String "-" r => (true, r)
    | String "+" r => (false, r)
    | _ => (false, s)
    end in
  if String.prefix "Infinity" s then Infinity neg
  else
    let '(i, ni, s1) := digits 0 0 s in
    let '(f, nf, s2) :=
      match s1 with
      | String "." r => digits i 0 r
      | _ => (i, 0, s1)
      end in
    if (ni =? 0) && (nf =? 0) then NaN
    else
      match exponent s2 with
      | Some (e, _) => Finite (signed neg (decimal f (e - nf)))
      | None => Finite (signed neg (decimal f (- nf)))
      end.

(** [parseFloat(v)]: the argument is first converted to a string.  A number
    prints to a literal that reads back as itself; [true], [false], [null]
    and [[object Object]] start no literal; an array prints its elements
    separated by commas, so only its first element can contribute. *)
Fixpoint parseFloat (v : json) : number :=
  match v with
  | JNumber x => x
  | JString s => parseFloat_string s
  | JArray (x :: _) => parseFloat x
  | _ => NaN
  end.

(** [Math.round]: the nearest integer, a tie going up. *)
Definition Math_round (x : number) : number :=
  match x with
  | Finite q => Finite (inject_Z (Qfloor (q + (1 # 2))))
  | _ => x
  end.

(** ** A reference decoder for JSON text

    [JSON.parse] belongs to the runtime.  The properties below hold for any
    decoder; [JSON_decode] reads the JSON grammar and is what the handler is
    run with on concrete text.  [None] stands for a thrown [SyntaxError].  A
    number literal is read as its exact decimal value, where the runtime
    takes the nearest double. *)

Definition is_json_space (c : ascii) : bool :=
  let n := nat_of_ascii c in
  (n =? 32)%nat || (n =? 9)%nat || (n =? 10)%nat || (n =? 13)%nat.

Fixpoint skip_ws (s : string) : string :=
  match s with
  | String c rest => if is_json_space c then skip_ws rest else s
  | EmptyString => EmptyString
  end.

Definition hex_val (c : ascii) : option nat :=
  let n := nat_of_ascii c in
  if is_digit c then Some (n - 48)%nat
  else if (97 <=? n)%nat && (n <=? 102)%nat then Some (n - 87)%nat
  else if (65 <=? n)%nat && (n <=? 70)%nat then Some (n - 55)%nat
  else None.

(** The UTF-8 bytes of a code unit written [\uXXXX]. *)
Definition utf8 (n : nat) (s : string) : string :=
  if (n <? 128)%nat then String (ascii_of_nat n) s
  else if (n <? 2048)%nat then
    String (ascii_of_nat (192 + n / 64)) (String (ascii_of_nat (128 + n mod 64)) s)
  else
    String (ascii_of_nat (224 + n / 4096))
      (String (ascii_of_nat (128 + (n / 64) mod 64))
         (String (ascii_of_nat (128 + n mod 64)) s)).

Definition unescape (c : ascii) : option ascii :=
  if Ascii.eqb c dquote then Some dquote
  else if Ascii.eqb c "\" then Some "\"%char
  else if Ascii.eqb c "/" then Some "/"%char
  else if Ascii.eqb c "b" then Some "008"%char
  else if Ascii.eqb c "f" then Some "012"%char
  else if Ascii.eqb c "n" then Some "010"%char
  else if Ascii.eqb c "r" then Some "013"%char
  else if Ascii.eqb c "t" then Some "009"%char
  else None.

(** The characters of a string literal, after its opening quote. *)
Fixpoint string_body (s : string) : option (string * string) :=
  match s with
  | EmptyString => None
  | String c rest =>
      if Ascii.eqb c dquote then Some (EmptyString, rest)
      else if Ascii.eqb c "\" then
        match rest with
        | String "u" (String h1 (String h2 (String h3 (String h4 rest')))) =>
            match hex_val h1, hex_val h2, hex_val h3, hex_val h4, string_body rest' with
            | Some a, Some b, Some c', Some d, Some (t, r) =>
                Some (utf8 (((a * 16 + b) * 16 + c') * 16 + d) t, r)
            | _, _, _, _, _ => None
            end
        | String e rest' =>
            match unescape e, string_body rest' with
            | Some c', Some (t, r) => Some (String c' t, r)
            | _, _ => None
            end
        | EmptyString => None
        end
      else if (nat_of_ascii c <? 32)%nat then None
      else match string_body rest with
           | Some (t, r) => Some (String c t, r)
           | None => None
           end
  end.

(** A number literal at the head of [s]; what follows it is checked by the
    caller, so an incomplete fraction or exponent is left in the rest. *)
Definition number_literal (s : string) : option (number * string) :=
  let '(neg, s) :=
    match s with
    | String "-" r => (true, r)
    | _ => (false, s)
    end in
  let '(i, ni, s1) := digits 0 0 s in
  if (ni =? 0) || (String.prefix "0" s && (1 <? ni)) then None
  else
    let '(f, nf, s2) :=
      match s1 with
      | String "." r =>
          let '(f, nf, r') := digits i 0 r in
          if nf =? 0 then (i, 0, s1) else (f, nf, r')
      | _ => (i, 0, s1)
      end in
    match exponent s2 with
    | Some (e, s3) => Some (Finite (signed neg (decimal f (e - nf))), s3)
    | None => Some (Finite (signed neg (decimal f (- nf))), s2)
    end.

(** [Some rest] when [s] is [p] followed by [rest]. *)
Fixpoint eat (p s : string) : option string :=
  match p, s with
  | EmptyString, _ => Some s
  | String a p', String b s' => if Ascii.eqb a b then eat p' s' else None
  | _, EmptyString => None
  end.

Fixpoint parse_value (fuel : nat) (s : string) : option (json * string) :=
  match fuel with
  | O => None
  | S fuel =>
      match skip_ws s with
      | String "{" rest =>
          match skip_ws rest with
          | String "}" rest' => Some (JObject [], rest')
          | _ =>
              match parse_members fuel rest with
              | Some (ms, rest') => Some (JObject ms, rest')
              | None => None
              end
          end
      | String "[" rest =>
          match skip_ws rest with
          | String "]" rest' => Some (JArray [], rest')
          | _ =>
              match parse_elements fuel rest with
              | Some (vs, rest') => Some (JArray vs, rest')
              | None => None
              end
          end
      | String c rest as t =>
          if Ascii.eqb c dquote then
            match string_body rest with
            | Some (str, rest') => Some (JString str, rest')
            | None => None
            end
          else
            match eat "true" t, eat "false" t, eat "null" t with
            | Some rest', _, _ => Some (JBool true, rest')
            | _, Some rest', _ => Some (JBool false, rest')
            | _, _, Some rest' => Some (JNull, rest')
            | _, _, _ =>
                match number_literal t with
                | Some (x, rest') => Some (JNumber x, rest')
                | None => None
                end
            end
      | EmptyString => None
      end
  end
with parse_elements (fuel : nat) (s : string) : option (list json * string) :=
  match fuel with
  | O => None
  | S fuel =>
      match parse_value fuel s with
      | Some (v, rest) =>
          match skip_ws rest with
          | String "," rest' =>
              match parse_elements fuel rest' with
              | Some (vs, r) => Some (v :: vs, r)
              | None => None
              end
          | String "]" rest' => Some ([v], rest')
          | _ => None
          end
      | None => None
      end
  end
with parse_members (fuel : nat) (s : string) : option (list (string * json) * string) :=
  match fuel with
  | O => None
  | S fuel =>
      match skip_ws s with
      | String c rest =>
          if Ascii.eqb c dquote then
            match string_body rest with
            | Some (k, rest1) =>
                match skip_ws rest1 with
                | String ":" rest2 =>
                    match parse_value fuel rest2 with
                    | Some (v, rest3) =>
                        match skip_ws rest3 with
                        | String "," rest4 =>
                            match parse_members fuel rest4 with
                            | Some (ms, r) => Some ((k, v) :: ms, r)
                            | None => None
                            end
                        | String "}" rest4 => Some ([(k, v)], rest4)
                        | _ => None
                        end
                    | None => None
                    end
                | _ => None
                end
            | None => None
            end
          else None
      | EmptyString => None
      end
  end.

Definition JSON_decode (s : string) : option json :=
  match parse_value (2 * String.length s + 2) s with
  | Some (v, rest) =>
      match skip_ws rest with
      | EmptyString => Some v
      | _ => None
      end
  | None => None
  end.

(** JSON text is written with [q] for the quotation mark. *)
Definition q (s : string) : string := String dquote s +:+ String dquote EmptyString.

(** ** Task records and the registry ([utils/task-manager.js]) *)

(** A property of a task record: a JSON-like value, or the text that
    [new Date(ms).toISOString()] returns, kept as the instant it denotes
    ([new Date(text)] gives it back). *)
Inductive field :=
| Json (v : json)
| Iso (ms : Z).

Abbreviation task := (gmap string field).

Definition Str (s : string) : field := Json (JString s).
Definition Num (z : Z) : field := Json (JNumber (Finite (inject_Z z))).

(** The operations of a JavaScript [Map] with string keys, on the list of
    its entries in insertion order.  The keys of a [Map] are distinct: [set]
    on a key that is present replaces its value in place, on a new key it
    adds an entry at the end; [delete] removes the entry of the key. *)
Fixpoint Map_get (k : string) (m : list (string * task)) : option task :=
  match m with
  | [] => None
  | (k', v) :: rest => if String.eqb k k' then Some v else Map_get k rest
  end.

Fixpoint Map_set (k : string) (v : task) (m : list (string * task)) : list (string * task) :=
  match m with
  | [] => [(k, v)]
  | (k', v') :: rest =>
      if String.eqb k k' then (k', v) :: rest else (k', v') :: Map_set k v rest
  end.

Fixpoint Map_delete (k : string) (m : list (string * task)) : list (string * task) :=
  match m with
  | [] => []
  | (k', v') :: rest =>
      if String.eqb k k' then Map_delete k rest else (k', v') :: Map_delete k rest
  end.

(** [m.delete(x)] for a property value [x]: only a string is a key. *)
Definition Map_delete_value (x : option field) (m : list (string * task)) : list (string * task) :=
  match x with
  | Some (Json (JString k)) => Map_delete k m
  | _ => m
  end.

Record TaskManager := {
  tasks : list (string * task);
  maxTasks : nat
}.

Definition constructor : TaskManager := {| tasks := []; maxTasks := 100 |}.

Definition with_tasks (m : list (string * task)) (tm : TaskManager) : TaskManager :=
  {| tasks := m; maxTasks := maxTasks tm |}.

(** [new Date(t.createdAt)] as a time value, [None] for an invalid date. *)
Definition Date_of (x : option field) : option Z :=
  match x with
  | Some (Iso ms) => Some ms
  | _ => None
  end.

(** The comparator [(a, b) => new Date(a.createdAt) - new Date(b.createdAt)],
    [None] for NaN. *)
Definition by_createdAt (a b : task) : option Z :=
  match Date_of (a !! "createdAt"), Date_of (b !! "createdAt") with
  | Some x, Some y => Some (x - y)
  | _, _ => None
  end.

Definition negative (d : option Z) : bool :=
  match d with
  | Some z => z <? 0
  | None => false
  end.

(** [Array.prototype.sort] is stable, and takes NaN from the comparator as
    0: an element goes after those that compare below it, before the rest. *)
Fixpoint sort_insert (cmp : task -> task -> option Z) (x : task) (l : list task) : list task :=
  match l with
  | [] => [x]
  | y :: rest =>
      if negative (cmp y x) then y :: sort_insert cmp x rest else x :: y :: rest
  end.

Fixpoint sort (cmp : task -> task -> option Z) (l : list task) : list task :=
  match l with
  | [] => []
  | x :: rest => sort_insert cmp x (sort cmp rest)
  end.

Definition cleanupOldTasks (tm : TaskManager) : TaskManager :=
  if (length (tasks tm) <=? maxTasks tm)%nat then tm
  else
    let sorted := sort by_createdAt (map snd (tasks tm)) in
    let tasksToRemove := take (length (tasks tm) - maxTasks tm) sorted in
    with_tasks
      (foldl (fun m t => Map_delete_value (t !! "taskId") m) (tasks tm) tasksToRemove)
      tm.

(** A value converted to text, as a template literal and the use as a
    property name do: its text, when that can be the name of a counter of
    [getStatistics]; [no_counter] for a text that is none (a number prints to
    digits, signs, a point, an exponent, [NaN] or [Infinity], an ISO time to
    digits and marks); [type_error] when the conversion throws, as it does
    for an object whose own [toString] is no function. *)
Inductive key_result :=
| key (text : string)
| no_counter
| type_error.

(** An array prints its elements separated by commas, [null] as nothing. *)
Fixpoint key_text (v : json) : key_result :=
  match v with
  | JNull => key "null"
  | JBool true => key "true"
  | JBool false => key "false"
  | JNumber _ => no_counter
  | JString s => key s
  | JObject members =>
      match assoc_last "toString" members with
      | Some _ => type_error
      | None => key "[object Object]"
      end
  | JArray elements =>
      (fix join (l : list json) : key_result :=
         match l with
         | [] => key ""
         | x :: rest =>
             match match x with JNull => key "" | _ => key_text x end, rest with
             | type_error, _ => type_error
             | a, [] => a
             | a, _ :: _ =>
                 match a, join rest with
                 | _, type_error => type_error
                 | key a', key b => key (a' +:+ "," +:+ b)
                 | _, _ => no_counter
                 end
             end
         end) elements
  end.

(** Whether a property of a record can be written into a template literal:
    [undefined] and an ISO time print, a value prints unless its conversion
    to text throws. *)
Definition printable (f : option field) : bool :=
  match f with
  | Some (Json v) => match key_text v with type_error => false | _ => true end
  | _ => true
  end.

(** How a call completes that ends with a log line: it returns, or the
    template literal of the log throws a [TypeError]. *)
Inductive completion (A : Type) :=
| returned (value : A)
| TypeError_thrown.

Arguments returned {A} value.
Arguments TypeError_thrown {A}.

(** [createTask(taskData)]; [uuid] is what [uuidv4()] returns, [now] the
    clock.  The task is stored and the eviction has run when the log line
    is written, which prints [taskData.type] and [taskData.url]: the result
    is how the call completes and the registry it leaves. *)
Definition createTask (uuid : string) (now : Z) (taskData : task) (tm : TaskManager)
  : completion string * TaskManager :=
  let taskId := uuid in
  let t : task :=
    <["updatedAt" := Iso now]>
      (<["createdAt" := Iso now]> (taskData ∪ {["taskId" := Str taskId]})) in
  (if printable (taskData !! "type") && printable (taskData !! "url")
   then returned taskId else TypeError_thrown,
   cleanupOldTasks (with_tasks (Map_set taskId t (tasks tm)) tm)).

Definition getTask (taskId : string) (tm : TaskManager) : option task :=
  Map_get taskId (tasks tm).

(** [updateTask(taskId, updates)].  On a task that is held the merged
    record is stored when the log line is written, which prints its [status]
    and [progress]. *)
Definition updateTask (now : Z) (taskId : string) (updates : task) (tm : TaskManager)
  : completion bool * TaskManager :=
  match Map_get taskId (tasks tm) with
  | None => (returned false, tm)
  | Some t =>
      let updatedTask : task := <["updatedAt" := Iso now]> (updates ∪ t) in
      (if printable (updatedTask !! "status") && printable (updatedTask !! "progress")
       then returned true else TypeError_thrown,
       with_tasks (Map_set taskId updatedTask (tasks tm)) tm)
  end.

Definition deleteTask (taskId : string) (tm : TaskManager) : TaskManager :=
  with_tasks (Map_delete taskId (tasks tm)) tm.

Definition has_status (s : string) (t : task) : bool :=
  match t !! "status" with
  | Some (Json (JString x)) => String.eqb x s
  | _ => false
  end.

Definition maxAge : Z := 24 * 60 * 60 * 1000.

(** The callback of [startCleanupTimer]. *)
Definition cleanup_tick (now : Z) (tm : TaskManager) : TaskManager :=
  let old (kv : string * task) : bool :=
    (has_status "completed" kv.2 || has_status "failed" kv.2)
    && match Date_of (kv.2 !! "updatedAt") with
       | Some ms => maxAge <? now - ms
       | None => false
       end in
  let tasksToDelete := map fst (List.filter old (tasks tm)) in
  foldl (fun tm taskId => deleteTask taskId tm) tm tasksToDelete.

(** The property [k] of the record that the registry holds for the task,
    as [getTask] returns it. *)
Definition property (k : string) (taskId : string) (tm : TaskManager) : option field :=
  match getTask taskId tm with
  | Some t => t !! k
  | None => None
  end.

Abbreviation status_of := (property "status").

(** A value as the client decodes it once [res.json] has sent it: a number
    that is not finite is sent as [null]; texts, booleans, [null] and finite
    numbers arrive as they are, arrays and objects with their parts sent. *)
Fixpoint sent (v : json) : json :=
  match v with
  | JNumber (Finite _) => v
  | JNumber _ => JNull
  | JArray elements => JArray (map sent elements)
  | JObject members => JObject (map (fun '(k, w) => (k, sent w)) members)
  | _ => v
  end.

(** A property of a record in the body of a response: an ISO time is a
    text, kept as the instant it denotes. *)
Definition res_json (f : field) : field :=
  match f with
  | Json v => Json (sent v)
  | Iso ms => Iso ms
  end.

(** What a poll of [GET /task/:taskId] reads in property [k] of the task. *)
Definition poll (k : string) (taskId : string) (tm : TaskManager) : option field :=
  res_json <$> property k taskId tm.

(** ** The supervision of yt-dlp ([processVideo], [processVideoAsync]) *)

(** How the promise of [processVideo] settles: resolved with the file name
    and size, or rejected with an error, of which [processVideoAsync] reads
    the message. *)
Inductive outcome :=
| Resolved (filename : string) (size : Z)
| Rejected (message : string).

(** What [fs.stat(outputPath)] yields once the process has closed. *)
Inductive stat_result :=
| stat_throws (message : string)
| stats (size : Z).

(** One run of [processVideoAsync]: the registry it writes to, the variables
    of the closure of [processVideo], the promise, the timer armed by
    [setTimeout] with the clock time at which it is due, whether the process
    has closed, and the signals sent to it by [kill]. *)
Record system := {
  taskManager : TaskManager;
  taskId : string;
  filename : string;
  progressData : string;
  errorOutput : string;
  promise : option outcome;
  timeout : option Z;
  closed : bool;
  signals : list string
}.

Definition with_taskManager (tm : TaskManager) (s : system) : system :=
  {| taskManager := tm; taskId := taskId s; filename := filename s;
     progressData := progressData s; errorOutput := errorOutput s;
     promise := promise s; timeout := timeout s; closed := closed s;
     signals := signals s |}.

Definition with_progressData (d : string) (s : system) : system :=
  {| taskManager := taskManager s; taskId := taskId s; filename := filename s;
     progressData := d; errorOutput := errorOutput s;
     promise := promise s; timeout := timeout s; closed := closed s;
     signals := signals s |}.

Definition with_errorOutput (d : string) (s : system) : system :=
  {| taskManager := taskManager s; taskId := taskId s; filename := filename s;
     progressData := progressData s; errorOutput := d;
     promise := promise s; timeout := timeout s; closed := closed s;
     signals := signals s |}.

Definition with_promise (o : option outcome) (s : system) : system :=
  {| taskManager := taskManager s; taskId := taskId s; filename := filename s;
     progressData := progressData s; errorOutput := errorOutput s;
     promise := o; timeout := timeout s; closed := closed s;
     signals := signals s |}.

(** [clearTimeout], and a timer that has fired. *)
Definition clearTimeout (s : system) : system :=
  {| taskManager := taskManager s; taskId := taskId s; filename := filename s;
     progressData := progressData s; errorOutput := errorOutput s;
     promise := promise s; timeout := None; closed := closed s;
     signals := signals s |}.

Definition with_closed (s : system) : system :=
  {| taskManager := taskManager s; taskId := taskId s; filename := filename s;
     progressData := progressData s; errorOutput := errorOutput s;
     promise := promise s; timeout := timeout s; closed := true;
     signals := signals s |}.

(** [ytDlpProcess.kill(signal)] *)
Definition kill (signal : string) (s : system) : system :=
  {| taskManager := taskManager s; taskId := taskId s; filename := filename s;
     progressData := progressData s; errorOutput := errorOutput s;
     promise := promise s; timeout := timeout s; closed := closed s;
     signals := (signals s ++ [signal])%list |}.

Definition timeout_ms : Z := 30 * 60 * 1000.

Definition timeout_message : string := "Video download timeout (30 minutes)".
Definition empty_message : string := "Downloaded file is empty".
Definition not_found_or_empty (cause : string) : string :=
  "Output file not found or empty: " +:+ cause.

(** The template [`${code}`] of an exit code, [null] when a signal ended the
    process. *)
Definition code_text (code : option Z) : string :=
  match code with
  | Some z => pretty z
  | None => "null"
  end.

Definition failed_message (code : option Z) : string :=
  "yt-dlp process failed with code " +:+ code_text code.

(** The callback that [processVideoAsync] passes to [processVideo]. *)
Definition progressCallback (now : Z) (taskId : string) (progress : number)
    (tm : TaskManager) : TaskManager :=
  (updateTask now taskId
     (list_to_map [("status", Str "processing");
                   ("progress", Json (JNumber (Math_round progress)))]) tm).2.

Definition download_url (filename : string) : string := "/api/download/" +:+ filename.

(** What [processVideoAsync] does once the awaited promise has settled. *)
Definition on_settled (now : Z) (taskId : string) (o : outcome) (tm : TaskManager)
  : TaskManager :=
  match o with
  | Resolved filename _ =>
      (updateTask now taskId
         (list_to_map
            [("status", Str "completed");
             ("progress", Num 100);
             ("filename", Str filename);
             ("downloadUrl", Str (download_url filename));
             ("result", Json (JObject [("filename", JString filename);
                                       ("downloadUrl", JString (download_url filename))]))])
         tm).2
  | Rejected message =>
      (updateTask now taskId
         (list_to_map
            [("status", Str "failed");
             ("error", Str message);
             ("result", Json (JObject [("error", JString message)]))])
         tm).2
  end.

(** [resolve] and [reject]: the first call settles the promise and
    [processVideoAsync] resumes; later calls do nothing. *)
Definition settle (now : Z) (o : outcome) (s : system) : system :=
  match promise s with
  | Some _ => s
  | None =>
      with_taskManager (on_settled now (taskId s) o (taskManager s))
        (with_promise (Some o) s)
  end.

(** The outcome decided by the [close] handler. *)
Definition close_outcome (filename : string) (code : option Z) (st : stat_result) : outcome :=
  match code with
  | Some 0 =>
      match st with
      | stats size =>
          if 0 <? size then Resolved filename size
          else Rejected (not_found_or_empty empty_message)
      | stat_throws message => Rejected (not_found_or_empty message)
      end
  | _ => Rejected (failed_message code)
  end.

(** The outcome decided by the [error] handler; [code] is [error.code]. *)
Definition error_outcome (code : option string) (message : string) : outcome :=
  match code with
  | Some "ENOENT" => Rejected "yt-dlp is not installed or not in PATH"
  | _ => Rejected ("Process error: " +:+ message)
  end.

(** The task data that [POST /api/download] creates a task with. *)
Definition download_task (url quality : string) : task :=
  list_to_map [("url", Str url); ("quality", Str quality);
               ("type", Str "video"); ("status", Str "pending")].

(** What the event loop delivers to one run.  [other_download] and
    [cleanup_timer] are the registry's other users: an accepted request for
    another download, and the hourly sweep. *)
Inductive event :=
| stdout_data (data : string)
| stderr_data (data : string)
| close (code : option Z) (st : stat_result)
| error (code : option string) (message : string)
| timeout_fired
| other_download (uuid url quality : string)
| cleanup_timer.

Section processVideo.

Variable JSON_parse : string -> option json.

(** The body of the [try] for one line: [Some progress] when
    [progressCallback(progress)] is reached.  A [SyntaxError] from
    [JSON.parse] and the [TypeError] of [null.status] end in the [catch]. *)
Definition progress_of (line : string) : option number :=
  match JSON_parse (trim line) with
  | None => None
  | Some JNull => None
  | Some progressInfo =>
      match get_property "status" progressInfo with
      | Some (JString "downloading") =>
          match get_property "percent" progressInfo with
          | Some percent =>
              if truthy (Some percent) then
                let progress := parseFloat percent in
                if negb (isNaN progress) then Some progress else None
              else None
          | None => None
          end
      | _ => None
      end
  end.

(** The loop over [progressData.split('\n')]. *)
Definition for_lines {S : Type} (progressCallback : option (number -> S -> S))
    (lines : list string) (st : S) : S :=
  foldl
    (fun st line =>
       if negb (String.eqb (trim line) "") then
         match progress_of line, progressCallback with
         | Some progress, Some callback => callback progress st
         | _, _ => st
         end
       else st)
    st lines.

(** The [data] handler of stdout, on the buffer and the state the callback
    acts on. *)
Definition stdout_on_data {S : Type} (progressCallback : option (number -> S -> S))
    (data : string) (progressData : string) (st : S) : string * S :=
  let progressData := progressData +:+ data in
  (progressData, for_lines progressCallback (split_lines progressData) st).

(** The progress values handed to the callback while a chunk is handled. *)
Definition emitted (data progressData : string) : list number :=
  (stdout_on_data (Some (fun p l => (l ++ [p])%list)) data progressData []).2.

(** One event, handled at clock time [now]; [None] when the event cannot
    occur: output or a second [close] after [close], a timer that is not
    armed or not yet due.  The [close] handler awaits [fs.stat] before it
    settles the promise and touches nothing else, so the event is taken
    together with what [fs.stat] yields; the handler registered after it
    clears the timer at once. *)
Definition step (now : Z) (ev : event) (s : system) : option system :=
  match ev with
  | stdout_data data =>
      if closed s then None
      else
        let '(d, tm) :=
          stdout_on_data (Some (progressCallback now (taskId s))) data
            (progressData s) (taskManager s) in
        Some (with_taskManager tm (with_progressData d s))
  | stderr_data data =>
      if closed s then None
      else Some (with_errorOutput (errorOutput s +:+ data) s)
  | close code st =>
      if closed s then None
      else Some (settle now (close_outcome (filename s) code st)
                   (clearTimeout (with_closed s)))
  | error code message =>
      if closed s then None
      else Some (settle now (error_outcome code message) s)
  | timeout_fired =>
      match timeout s with
      | Some due =>
          if due <=? now then
            Some (settle now (Rejected timeout_message)
                    (kill "SIGTERM" (clearTimeout s)))
          else None
      | None => None
      end
  | other_download uuid url quality =>
      Some (with_taskManager
              (createTask uuid now (download_task url quality) (taskManager s)).2 s)
  | cleanup_timer =>
      Some (with_taskManager (cleanup_tick now (taskManager s)) s)
  end.

(** A run: the events in order, each with the clock time of its handler. *)
Fixpoint run (evs : list (Z * event)) (s : system) : option system :=
  match evs with
  | [] => Some s
  | (now, ev) :: rest =>
      match step now ev s with
      | Some s' => run rest s'
      | None => None
      end
  end.

(** The states after each event of a run. *)
Fixpoint trace (evs : list (Z * event)) (s : system) : list system :=
  match evs with
  | [] => []
  | (now, ev) :: rest =>
      match step now ev s with
      | Some s' => s' :: trace rest s'
      | None => []
      end
  end.

End processVideo.

(** [processVideoAsync(taskId, url, quality)] up to its [await]: the first
    update, then the spawn inside [processVideo]; [hash] is the md5 prefix of
    the URL that names the output file. *)
Definition processVideoAsync (now : Z) (taskId hash : string) (tm : TaskManager) : system :=
  {| taskManager :=
       (updateTask now taskId
          (list_to_map [("status", Str "processing"); ("progress", Num 0)]) tm).2;
     taskId := taskId;
     filename := "video_" +:+ pretty now +:+ "_" +:+ hash +:+ ".mp4";
     progressData := "";
     errorOutput := "";
     promise := None;
     timeout := Some (now + timeout_ms);
     closed := false;
     signals := [] |}.

(** The state in which [POST /api/download] leaves a request whose
    [createTask] has thrown: the [catch] answers 500, the task is stored, no
    process is spawned and no timer armed, so no event of a run can occur. *)
Definition answered_500 (taskId : string) (tm : TaskManager) : system :=
  {| taskManager := tm; taskId := taskId; filename := ""; progressData := "";
     errorOutput := ""; promise := None; timeout := None; closed := true;
     signals := [] |}.

(** The accepted path of [POST /api/download]: create the task, start the
    background run.  The type and the URL of [download_task] are texts, which
    the log of [createTask] prints, so the call returns. *)
Definition post_download (now : Z) (uuid url quality hash : string) (tm : TaskManager)
  : system :=
  match createTask uuid now (download_task url quality) tm with
  | (returned taskId, tm) => processVideoAsync now taskId hash tm
  | (TypeError_thrown, tm) => answered_500 uuid tm
  end.

(** ** Sequences of calls on the registry *)

(** The calls that the program makes on the registry. *)
Inductive registry_call :=
| call_createTask (uuid : string) (taskData : task)
| call_updateTask (taskId : string) (updates : task).

Definition call (now : Z) (c : registry_call) (tm : TaskManager) : TaskManager :=
  match c with
  | call_createTask uuid taskData => (createTask uuid now taskData tm).2
  | call_updateTask taskId updates => (updateTask now taskId updates tm).2
  end.

(** The calls in order, each with the clock time at which it is made. *)
Definition calls (cs : list (Z * registry_call)) (tm : TaskManager) : TaskManager :=
  foldl (fun tm c => call c.1 c.2 tm) tm cs.

(** The ids of the tasks created, oldest first. *)
Fixpoint created (cs : list (Z * registry_call)) : list string :=
  match cs with
  | [] => []
  | (_, call_createTask uuid _) :: rest => uuid :: created rest
  | (_, call_updateTask _ _) :: rest => created rest
  end.

(** As in the program, task data carries no [taskId] of its own, and an
    update writes neither [taskId] nor [createdAt]. *)
Definition plain (c : registry_call) : Prop :=
  match c with
  | call_createTask _ taskData => taskData !! "taskId" = None
  | call_updateTask _ updates =>
      updates !! "taskId" = None /\ updates !! "createdAt" = None
  end.

(** ** Notions used by the statements *)

(** [tm'] holds a part of the records of [tm], unchanged. *)
Definition part_of (tm' tm : TaskManager) : Prop :=
  forall id, getTask id tm' = None \/ getTask id tm' = getTask id tm.

(** [a] does not compare above [b]: the sort leaves [a] before [b]. *)
Definition in_order (a b : task) : Prop := negative (by_createdAt b a) = false.

(** [t] carries a creation time, at most [T]. *)
Definition created_by (T : Z) (t : task) : Prop :=
  match Date_of (t !! "createdAt") with
  | Some x => x <= T
  | None => False
  end.

(** The [taskId] of the record is the key it is stored under. *)
Definition names_itself (kv : string * task) : Prop :=
  kv.2 !! "taskId" = Some (Str kv.1).

(** What holds of the registry after calls that created [ids] up to time
    [T]: it holds the last [m] of them, in the order of creation. *)
Definition holds_last (m : nat) (ids : list string) (T : Z) (tm : TaskManager) : Prop :=
  maxTasks tm = m
  /\ map fst (tasks tm) = drop (length ids - m) ids
  /\ Forall names_itself (tasks tm)
  /\ StronglySorted in_order (map snd (tasks tm))
  /\ Forall (created_by T) (map snd (tasks tm)).

(** The artifact of a run is unusable: [fs.stat] throws, or the size is 0. *)
Definition unusable (st : stat_result) : Prop :=
  match st with
  | stat_throws _ => True
  | stats size => size <= 0
  end.

(** The only events of a run whose process is alive and whose timer has not
    fired: output, and the registry's other users. *)
Definition quiet (ev : event) : bool :=
  match ev with
  | stdout_data _ | stderr_data _ | other_download _ _ _ | cleanup_timer => true
  | _ => false
  end.

(** ** Concrete registries, output and runs *)

(** A registry in which a task has been created and brought to a terminal
    status by the calls of the program. *)
Definition finished (status : string) : TaskManager :=
  let tm := (createTask "t1" 0 {["status" := Str "pending"]} constructor).2 in
  (updateTask 1 "t1" {["status" := Str status]} tm).2.

(** The line that yt-dlp prints for a payload with status [downloading] and
    the JSON text [percent] as its percent. *)
Definition progress_line (percent : string) : string :=
  "{" +:+ q "status" +:+ ":" +:+ q "downloading" +:+ "," +:+ q "percent" +:+ ":"
  +:+ percent +:+ "}".

Definition LF : string := String newline EmptyString.

(** A download accepted at time 1000 by a fresh registry, up to the spawn. *)
Definition started : system :=
  post_download 1000 "task-1" "https://youtu.be/v" "720p" "0a1b2c3d" constructor.

(** What a poll reads, status and progress, after each event of a run. *)
Definition polls (evs : list (Z * event)) (s : system) : list (option field * option field) :=
  map (fun s' => (poll "status" (taskId s) (taskManager s'),
                  poll "progress" (taskId s) (taskManager s')))
      (trace JSON_decode evs s).

(** 101 downloads on the default registry, the first of them set to
    processing before the others are requested. *)
Definition downloads101 : list (Z * registry_call) :=
  (0, call_createTask "t0" (download_task "https://youtu.be/v" "720p"))
  :: (0, call_updateTask "t0"
           (list_to_map [("status", Str "processing"); ("progress", Num 0)]))
  :: map (fun n => (Z.of_nat n,
                    call_createTask ("t" +:+ pretty n)
                      (download_task "https://youtu.be/v" "720p")))
         (seq 1 100).

(** ** The other operations of the registry ([utils/task-manager.js]) *)

(** [this.tasks.has(taskId)] *)
Definition hasTask (taskId : string) (tm : TaskManager) : bool :=
  match Map_get taskId (tasks tm) with
  | Some _ => true
  | None => false
  end.

(** What [deleteTask(taskId)] returns: whether the [Map] held the key. *)
Definition deleteTask_result (taskId : string) (tm : TaskManager) : bool * TaskManager :=
  (hasTask taskId tm, deleteTask taskId tm).

Definition clearAllTasks (tm : TaskManager) : TaskManager := with_tasks [] tm.

Definition getAllTasks (tm : TaskManager) : list task := map snd (tasks tm).

Definition getTasksByStatus (status : string) (tm : TaskManager) : list task :=
  List.filter (has_status status) (getAllTasks tm).

Definition getActiveTasksCount (tm : TaskManager) : nat :=
  length (List.filter (fun t => has_status "pending" t || has_status "processing" t)
            (getAllTasks tm)).

(** The test of the sweep in [startCleanupTimer] on one task. *)
Definition expired (now : Z) (t : task) : bool :=
  (has_status "completed" t || has_status "failed" t)
  && match Date_of (t !! "updatedAt") with
     | Some ms => maxAge <? now - ms
     | None => false
     end.

(** The comparator [(a, b) => new Date(b.updatedAt) - new Date(a.updatedAt)]. *)
Definition by_updatedAt_desc (a b : task) : option Z :=
  match Date_of (b !! "updatedAt"), Date_of (a !! "updatedAt") with
  | Some x, Some y => Some (x - y)
  | _, _ => None
  end.

(** [l.slice(0, limit)] for an integer [limit]: a negative one counts from
    the end. *)
Definition slice_to {A : Type} (limit : Z) (l : list A) : list A :=
  if limit <? 0 then take (Z.to_nat (Z.of_nat (length l) + limit)) l
  else take (Z.to_nat limit) l.

Definition result_keys : list string :=
  ["taskId"; "status"; "url"; "quality"; "filename"; "downloadUrl"; "error";
   "createdAt"; "updatedAt"].

(** The object that [getRecentResults] builds of a task; a property that
    the task lacks is [undefined] in it, here absent. *)
Definition result_of (t : task) : task :=
  foldr (fun k (r : task) => match t !! k with Some v => <[k := v]> r | None => r end)
    ∅ result_keys.

(** [getRecentResults(limit)], [None] for a call without argument. *)
Definition getRecentResults (limit : option Z) (tm : TaskManager) : list task :=
  let results :=
    slice_to (default 20 limit)
      (sort by_updatedAt_desc
         (List.filter (fun t => has_status "completed" t || has_status "failed" t)
            (getAllTasks tm))) in
  map result_of results.

(** The counters of [getStatistics]. *)
Record statistics := {
  total : nat;
  pending : nat;
  processing : nat;
  completed : nat;
  failed : nat
}.

(** [stats[key]++] when [stats.hasOwnProperty(key)]. *)
Definition count_in (key : string) (st : statistics) : statistics :=
  if String.eqb key "total" then
    {| total := S (total st); pending := pending st; processing := processing st;
       completed := completed st; failed := failed st |}
  else if String.eqb key "pending" then
    {| total := total st; pending := S (pending st); processing := processing st;
       completed := completed st; failed := failed st |}
  else if String.eqb key "processing" then
    {| total := total st; pending := pending st; processing := S (processing st);
       completed := completed st; failed := failed st |}
  else if String.eqb key "completed" then
    {| total := total st; pending := pending st; processing := processing st;
       completed := S (completed st); failed := failed st |}
  else if String.eqb key "failed" then
    {| total := total st; pending := pending st; processing := processing st;
       completed := completed st; failed := S (failed st) |}
  else st.

Definition status_key (t : task) : key_result :=
  match t !! "status" with
  | Some (Json v) => key_text v
  | Some (Iso _) => no_counter
  | None => key "undefined"
  end.

(** [getStatistics()], [None] when a status makes [hasOwnProperty] throw. *)
Definition getStatistics (tm : TaskManager) : option statistics :=
  foldl
    (fun st t =>
       match st, status_key t with
       | Some st, key text => Some (count_in text st)
       | Some st, no_counter => Some st
       | _, _ => None
       end)
    (Some {| total := length (getAllTasks tm); pending := 0; processing := 0;
             completed := 0; failed := 0 |})
    (getAllTasks tm).

(** ** Any use of the registry *)

Inductive registry_op :=
| op_call (c : registry_call)
| op_deleteTask (taskId : string)
| op_cleanup_timer
| op_clearAllTasks.

Definition apply_op (now : Z) (op : registry_op) (tm : TaskManager) : TaskManager :=
  match op with
  | op_call c => call now c tm
  | op_deleteTask taskId => deleteTask taskId tm
  | op_cleanup_timer => cleanup_tick now tm
  | op_clearAllTasks => clearAllTasks tm
  end.

Definition apply_ops (ops : list (Z * registry_op)) (tm : TaskManager) : TaskManager :=
  foldl (fun tm o => apply_op o.1 o.2 tm) tm ops.

(** The operation writes no [taskId] of its own into a record. *)
Definition keeps_taskId (op : registry_op) : Prop :=
  match op with
  | op_call (call_createTask _ taskData) => taskData !! "taskId" = None
  | op_call (call_updateTask _ updates) => updates !! "taskId" = None
  | _ => True
  end.

(** The keys are distinct, as in a [Map], and every record carries the key
    it is stored under as its [taskId]. *)
Definition well_kept (tm : TaskManager) : Prop :=
  NoDup (map fst (tasks tm)) /\ Forall names_itself (tasks tm).

(** ** The format selector and the checks of [POST /api/download] *)

Definition qualityMap (quality : string) : option string :=
  if String.eqb quality "720p" then
    Some "398+140/136+140/best[height<=720]+140/best[height<=720]"
  else if String.eqb quality "1080p" then
    Some "399+140/137+140/best[height<=1080]+140/best[height<=1080]"
  else if String.eqb quality "4K" then
    Some "401+140/313+140/best[height<=2160]+140/best[height<=2160]"
  else None.

(** The names that an object literal inherits from [Object.prototype]; what
    is stored under them is a function or an object, so truthy. *)
Definition inherited_names : list string :=
  ["constructor"; "__proto__"; "hasOwnProperty"; "isPrototypeOf";
   "propertyIsEnumerable"; "toLocaleString"; "toString"; "valueOf";
   "__defineGetter__"; "__defineSetter__"; "__lookupGetter__"; "__lookupSetter__"].

(** [qualityMap[quality] || 'best'], [None] when it is no string but what
    [quality] names in [Object.prototype]. *)
Definition formatSelector (quality : string) : option string :=
  match qualityMap quality with
  | Some selector => Some selector
  | None =>
      if bool_decide (quality ∈ inherited_names) then None else Some "best"
  end.

Definition validQualities : list string := ["720p"; "1080p"; "4K"].

(** How [POST /api/download] answers the [url] and [quality] of a request
    body, [None] for a property that the body lacks, before it creates a
    task. *)
Inductive verdict :=
| bad_request (error : string)
| accepted (url : json) (quality : string).

Definition check_request (url quality : option json) : verdict :=
  if negb (truthy url) then bad_request "URL is required"
  else
    match url, default (JString "720p") quality with
    | Some u, JString quality' =>
        if bool_decide (quality' ∈ validQualities) then accepted u quality'
        else bad_request "Invalid quality"
    | _, _ => bad_request "Invalid quality"
    end.

(** The events of a run that are handlers of [processVideo]. *)
Definition of_the_run (ev : event) : bool :=
  match ev with
  | other_download _ _ _ | cleanup_timer => false
  | _ => true
  end.

(** ** Video information ([utils/video-processor.js], [getVideoInfo]) *)

Module getVideoInfo.

(** The object that the promise resolves with: seven properties read off
    the decoded output, [None] for [undefined]. *)
Record videoInfo := {
  title : option json;
  duration : option json;
  uploader : option json;
  upload_date : option json;
  view_count : option json;
  like_count : option json;
  description : option json
}.

(** How the promise settles. *)
Inductive info_outcome :=
| resolve (info : videoInfo)
| reject (message : string).

(** What the event loop delivers: output of the process, its close with the
    exit code, an error of the process with [error.code] and
    [error.message]. *)
Inductive process_event :=
| on_stdout (data : string)
| on_stderr (data : string)
| on_close (code : option Z)
| on_error (code : option string) (message : string).

(** The variables of the closure, and the promise. *)
Record closure := {
  output : string;
  errorOutput : string;
  settled : option info_outcome
}.

Definition spawned : closure := {| output := ""; errorOutput := ""; settled := None |}.

(** [resolve] and [reject]: the first call settles the promise. *)
Definition settle_with (o : info_outcome) (s : closure) : closure :=
  match settled s with
  | Some _ => s
  | None => {| output := output s; errorOutput := errorOutput s; settled := Some o |}
  end.

Section handlers.

(** [JSON.parse], the message of the [SyntaxError] that it throws on a text,
    and the message of the [TypeError] that reading a property of [null]
    throws. *)
Variable JSON_parse : string -> option json.
Variable SyntaxError_message : string -> string.
Variable TypeError_message : string.

(** The body of the [try] in the [close] handler. *)
Definition parsed (output : string) : info_outcome :=
  match JSON_parse output with
  | None => reject ("Failed to parse video info: " +:+ SyntaxError_message output)
  | Some JNull => reject ("Failed to parse video info: " +:+ TypeError_message)
  | Some videoInfo =>
      resolve {| title := get_property "title" videoInfo;
                 duration := get_property "duration" videoInfo;
                 uploader := get_property "uploader" videoInfo;
                 upload_date := get_property "upload_date" videoInfo;
                 view_count := get_property "view_count" videoInfo;
                 like_count := get_property "like_count" videoInfo;
                 description := get_property "description" videoInfo |}
  end.

(** The handlers of the four events. *)
Definition handle (ev : process_event) (s : closure) : closure :=
  match ev with
  | on_stdout data =>
      {| output := output s +:+ data; errorOutput := errorOutput s; settled := settled s |}
  | on_stderr data =>
      {| output := output s; errorOutput := errorOutput s +:+ data; settled := settled s |}
  | on_close code =>
      match code with
      | Some 0 => settle_with (parsed (output s)) s
      | _ => settle_with (reject ("Failed to get video info: " +:+ errorOutput s)) s
      end
  | on_error code message =>
      match code with
      | Some "ENOENT" => settle_with (reject "yt-dlp is not installed or not in PATH") s
      | _ => settle_with (reject ("Process error: " +:+ message)) s
      end
  end.

Definition handle_all (evs : list process_event) (s : closure) : closure :=
  foldl (fun s ev => handle ev s) s evs.

End handlers.

(** The text that the chunks of the events carry, in order. *)
Definition stdout_text (evs : list process_event) : string :=
  foldr (fun ev text => match ev with on_stdout data => data +:+ text | _ => text end)
    "" evs.

Definition stderr_text (evs : list process_event) : string :=
  foldr (fun ev text => match ev with on_stderr data => data +:+ text | _ => text end)
    "" evs.

Definition is_data (ev : process_event) : bool :=
  match ev with
  | on_stdout _ | on_stderr _ => true
  | _ => false
  end.

End getVideoInfo.

(** ** The key of the API ([server.js]) *)

(** [process.env.API_KEY || 'your-api-key-here'], [None] for a variable that
    is not set. *)
Definition API_KEY (env : option string) : string :=
  match env with
  | Some k => if String.eqb k "" then "your-api-key-here" else k
  | None => "your-api-key-here"
  end.

(** The middleware before every route under [/api]: [true] for [next()],
    [false] for the answer 401; [apiKey] is what [req.header('X-API-Key')]
    returns, [None] for [undefined]. *)
Definition authenticateApiKey (env : option string) (apiKey : option string) : bool :=
  let not_apiKey :=
    match apiKey with
    | Some k => String.eqb k ""
    | None => true
    end in
  if not_apiKey || negb (bool_decide (apiKey = Some (API_KEY env))) then false else true.

(** ** The routes read by the web client ([routes/api.js]) *)

(** [GET /api/task/:taskId]: the status of the response and its body, the
    task or the object of the error. *)
Definition get_task (taskId : string) (tm : TaskManager) : Z * (task + json) :=
  match getTask taskId tm with
  | None =>
      (404, inr (JObject [("error", JString "Task not found");
                          ("message", JString "The requested task does not exist")]))
  | Some t => (200, inl t)
  end.

(** ** The web client ([api/backend.ts]) *)

Module backend.

Inductive MediaType := audio | video.
Inductive AudioFormat := mp3 | wav | flac.
Inductive VideoQuality := quality_720p | quality_1080p | quality_4K.

Definition AudioFormat_text (f : AudioFormat) : string :=
  match f with mp3 => "mp3" | wav => "wav" | flac => "flac" end.

Definition VideoQuality_text (q : VideoQuality) : string :=
  match q with quality_720p => "720p" | quality_1080p => "1080p" | quality_4K => "4K" end.

(** The property [result] of [TaskStatus]. *)
Record TaskResult := {
  result_filename : option string;
  result_error : option string;
  result_downloadUrl : option string
}.

(** The interface [TaskStatus]; [None] for a property that is absent, and
    for [error] also the value [null]. *)
Record TaskStatus := {
  taskId : string;
  status : string;
  progress : option number;
  downloadUrl : option string;
  filename : option string;
  file : option string;
  error : option (option string);
  result : option TaskResult
}.

(** [a || b] on texts: [a] unless it is absent or empty. *)
Definition or_else (a : option string) (b : option string) : option string :=
  match a with
  | Some s => if String.eqb s "" then b else a
  | None => b
  end.

(** What a request comes back with: the data of the response, or the error
    that axios throws, of which the code reads
    [error.response?.data?.message] and [error.message]. *)
Inductive reply (A : Type) :=
| data (d : A)
| thrown (response_message : option string) (message : string).

Arguments data {A} d.
Arguments thrown {A} response_message message.

(** The body that [downloadMedia] posts. *)
Definition payload (url : string) (mediaType : MediaType) (format : string) : json :=
  match mediaType with
  | audio => JObject [("url", JString url); ("format", JString format)]
  | video => JObject [("url", JString url); ("quality", JString format)]
  end.

(** [getTaskStatus]: the data, or the message of the error it throws. *)
Definition getTaskStatus (r : reply TaskStatus) : TaskStatus + string :=
  match r with
  | data d => inl d
  | thrown response_message message =>
      inr ("Failed to get task status: "
           +:+ default message (or_else response_message (Some message)))
  end.

(** The path, under the base URL of the backend, that [downloadFile]
    requests. *)
Definition downloadFile (filename : string) : string := "/download/" +:+ filename.

End backend.

(** A task record read as a [TaskStatus], [None] when a property has not
    the type that the interface gives it. *)
Definition optional_text (f : option field) : option (option string) :=
  match f with
  | None => Some None
  | Some (Json (JString s)) => Some (Some s)
  | _ => None
  end.

Definition optional_member (k : string) (v : json) : option (option string) :=
  match get_property k v with
  | None => Some None
  | Some (JString s) => Some (Some s)
  | _ => None
  end.

Definition TaskStatus_of (t : task) : option backend.TaskStatus :=
  match t !! "taskId", t !! "status" with
  | Some (Json (JString taskId)), Some (Json (JString status)) =>
      progress ←
        match t !! "progress" with
        | None => Some None
        | Some (Json (JNumber (Finite x))) => Some (Some (Finite x))
        | _ => None
        end;
      downloadUrl ← optional_text (t !! "downloadUrl");
      filename ← optional_text (t !! "filename");
      file ← optional_text (t !! "file");
      error ←
        match t !! "error" with
        | None => Some None
        | Some (Json JNull) => Some (Some None)
        | Some (Json (JString s)) => Some (Some (Some s))
        | _ => None
        end;
      result ←
        match t !! "result" with
        | None => Some None
        | Some (Json (JObject members)) =>
            f ← optional_member "filename" (JObject members);
            e ← optional_member "error" (JObject members);
            d ← optional_member "downloadUrl" (JObject members);
            Some (Some {| backend.result_filename := f; backend.result_error := e;
                          backend.result_downloadUrl := d |})
        | _ => None
        end;
      Some {| backend.taskId := taskId; backend.status := status;
              backend.progress := progress; backend.downloadUrl := downloadUrl;
              backend.filename := filename; backend.file := file;
              backend.error := error; backend.result := result |}
  | _, _ => None
  end.

(** What the client gets for [GET /task/:taskId]; [message] is the message
    that axios gives the error of a response 404. *)
Definition task_reply (taskId : string) (tm : TaskManager) (message : string)
  : option (backend.reply backend.TaskStatus) :=
  match get_task taskId tm with
  | (_, inl t) => backend.data <$> TaskStatus_of t
  | (_, inr body) =>
      Some (backend.thrown
              (match get_property "message" body with
               | Some (JString m) => Some m
               | _ => None
               end) message)
  end.

(** ** The download form ([components/DownloadForm.tsx]) *)

Module DownloadForm.

(** The state of the component that its handlers write. *)
Record state := {
  loading : bool;
  error : option string;
  success : option string;
  taskId : option string;
  taskStatus : option backend.TaskStatus;
  progress : number
}.

(** What a handler starts besides: a call of the [onStatusChange] that the
    parent passed, the next poll, a request. *)
Inductive effect :=
| onStatusChange (message : string)
| setTimeout_pollTaskStatus (id : string) (ms : Z).

(** [s.includes(part)] *)
Fixpoint includes (s part : string) : bool :=
  String.prefix part s
  || match s with
     | String _ rest => includes rest part
     | EmptyString => false
     end.

Definition music_message : string :=
  "YouTube Music URLs are not supported by the backend. Please try the regular YouTube version of this video instead.".

(** [pollTaskStatus(id)] once [getTaskStatus] has come back with [r]; [url]
    is the URL of the form. *)
Definition pollTaskStatus (url : string) (id : string) (r : backend.reply backend.TaskStatus)
    (st : state) : state * list effect :=
  match backend.getTaskStatus r with
  | inr message =>
      ({| loading := false; error := Some message; success := success st;
          taskId := taskId st; taskStatus := taskStatus st; progress := progress st |}, [])
  | inl status =>
      let progress' :=
        match backend.progress status with
        | Some x => if truthy (Some (JNumber x)) then x else Finite 0
        | None => Finite 0
        end in
      if String.eqb (backend.status status) "completed" then
        match backend.or_else (default None (backend.error status)) None with
        | Some e =>
            ({| loading := false; error := Some ("Download failed: " +:+ e);
                success := success st; taskId := taskId st;
                taskStatus := Some status; progress := progress' |},
             [onStatusChange "Download failed"])
        | None =>
            let filename :=
              default "download"
                (backend.or_else (backend.filename status)
                   (backend.or_else (backend.file status)
                      (backend.or_else
                         (backend.result status ≫= backend.result_filename)
                         (Some "download")))) in
            ({| loading := false; error := error st;
                success := Some ("Download completed! File: " +:+ filename);
                taskId := taskId st; taskStatus := Some status; progress := progress' |},
             [onStatusChange ("Download completed: " +:+ filename)])
        end
      else if String.eqb (backend.status status) "failed" then
        let errorMsg :=
          default "Download failed"
            (backend.or_else (default None (backend.error status))
               (backend.or_else (backend.result status ≫= backend.result_error)
                  (Some "Download failed"))) in
        let errorMsg :=
          if includes errorMsg "Invalid URL" && includes url "music.youtube.com"
          then music_message else errorMsg in
        ({| loading := false; error := Some errorMsg; success := success st;
            taskId := taskId st; taskStatus := Some status; progress := progress' |},
         [onStatusChange "Download failed"])
      else
        ({| loading := loading st; error := error st; success := success st;
            taskId := taskId st; taskStatus := Some status; progress := progress' |},
         [setTimeout_pollTaskStatus id 2000])
  end.

(** [handleSubmit] up to its request: [None] when the URL is blank and
    nothing is sent, else the backend addressed and the body posted. *)
Definition handleSubmit (url : string) (mediaType : backend.MediaType)
    (audioFormat : backend.AudioFormat) (videoQuality : backend.VideoQuality)
  : option (backend.MediaType * json) :=
  if String.eqb (trim url) "" then None
  else
    let format :=
      match mediaType with
      | backend.audio => backend.AudioFormat_text audioFormat
      | backend.video => backend.VideoQuality_text videoQuality
      end in
    Some (mediaType, backend.payload url mediaType format).

(** [handleDownloadFile]: the path requested, [None] when no file name is
    available. *)
Definition handleDownloadFile (st : state) : option string :=
  backend.downloadFile
  <$> backend.or_else (taskStatus st ≫= backend.filename) (taskStatus st ≫= backend.file).

End DownloadForm.

(** ** The lifecycle of the record of a run *)

(** What holds of the record of a run whenever a poll reads it, [read]
    giving its properties: its status is pending or processing, or
    completed with the file of the run and no error, or failed with the
    message of the rejection. *)
Definition lifecycle_at (promise : option outcome) (filename : string)
    (read : string -> option field) : Prop :=
  match promise with
  | None => read "error" = None
  | Some (Resolved f _) => f = filename /\ read "error" = None
  | Some (Rejected m) => m <> ""
  end
  /\ (read "status" = None
      \/ read "status" = Some (Str "pending")
      \/ read "status" = Some (Str "processing")
      \/ match promise with
         | None => False
         | Some (Resolved f _) =>
             read "status" = Some (Str "completed")
             /\ read "filename" = Some (Str f)
             /\ read "downloadUrl" = Some (Str (download_url f))
         | Some (Rejected m) =>
             read "status" = Some (Str "failed") /\ read "error" = Some (Str m)
         end).

Definition lifecycle (s : system) : Prop :=
  lifecycle_at (promise s) (filename s) (fun k => property k (taskId s) (taskManager s)).

(** ** Notions used by the further properties *)

(** [a] was updated no earlier than [b], both at known times. *)
Definition newer (a b : task) : Prop :=
  match Date_of (a !! "updatedAt"), Date_of (b !! "updatedAt") with
  | Some x, Some y => y <= x
  | _, _ => False
  end.

Definition timestamped (t : task) : Prop := is_Some (Date_of (t !! "updatedAt")).

Definition terminal (t : task) : bool := has_status "completed" t || has_status "failed" t.

(** The status of the task is a string other than [total], or absent. *)
Definition plain_status (t : task) : Prop :=
  match t !! "status" with
  | Some (Json (JString s)) => s <> "total"
  | None => True
  | _ => False
  end.

Definition count_step (st : option statistics) (t : task) : option statistics :=
  match st, status_key t with
  | Some st, key text => Some (count_in text st)
  | Some st, no_counter => Some st
  | _, _ => None
  end.

Definition tally (status : string) (l : list task) : nat :=
  length (List.filter (has_status status) l).

(** The outcome that a close or an error of the process decides. *)
Definition settles_with (filename : string) (ev : event) : option outcome :=
  match ev with
  | close code st => Some (close_outcome filename code st)
  | error code message => Some (error_outcome code message)
  | _ => None
  end.

(** Three downloads: the first completed at time 3, the second processing,
    the third failed at time 90000000. *)
Definition three_tasks : TaskManager :=
  calls
    [(0, call_createTask "a" (download_task "https://youtu.be/a" "720p"));
     (1, call_createTask "b" (download_task "https://youtu.be/b" "1080p"));
     (2, call_createTask "c" (download_task "https://youtu.be/c" "4K"));
     (3, call_updateTask "a" (list_to_map [("status", Str "completed"); ("progress", Num 100)]));
     (4, call_updateTask "b" (list_to_map [("status", Str "processing"); ("progress", Num 40)]));
     (90000000, call_updateTask "c" (list_to_map [("status", Str "failed");
                                                  ("error", Str "boom")]))]
    constructor.

(** A registry with room for two tasks, and what is done with it. *)
Definition small : TaskManager := {| tasks := []; maxTasks := 2 |}.

Definition busy_day : list (Z * registry_op) :=
  [(5, op_call (call_createTask "a" (download_task "https://youtu.be/a" "720p")));
   (4, op_call (call_createTask "b" (download_task "https://youtu.be/b" "720p")));
   (3, op_call (call_createTask "c" (download_task "https://youtu.be/c" "720p")));
   (6, op_call (call_updateTask "c" {["status" := Str "completed"]}));
   (7, op_deleteTask "zz");
   (100000000, op_cleanup_timer);
   (100000001, op_call (call_createTask "a" (download_task "https://youtu.be/a" "4K")))].

(** The run of [started] in which the download succeeds, the one in which
    yt-dlp fails, and the one in which the timer fires and a chunk of output
    written before arrives after it. *)
Definition run_completed : list (Z * event) :=
  [(2000, stdout_data (progress_line "50" +:+ LF));
   (3000, close (Some 0) (stats 1048576))].

Definition run_failed : list (Z * event) :=
  [(2000, stderr_data "ERROR: Video unavailable");
   (2001, close (Some 1) (stat_throws "ENOENT"))].

Definition run_timed_out : list (Z * event) :=
  [(1801000, timeout_fired);
   (1801001, stdout_data (progress_line "50" +:+ LF))].

(** A form that is loading. *)
Definition loading_form : DownloadForm.state :=
  {| DownloadForm.loading := true; DownloadForm.error := None;
     DownloadForm.success := None; DownloadForm.taskId := Some "task-1";
     DownloadForm.taskStatus := None; DownloadForm.progress := Finite 0 |}.

(** Closed goals are settled by evaluation. *)
Ltac by_computation :=
  vm_compute; repeat split; first [reflexivity | intros; discriminate].

(** ** The registry as a map *)

Lemma Map_get_set_eq k v m : Map_get k (Map_set k v m) = Some v.
Proof.
  induction m as [|[k' v'] m IH]; simpl.
  - by rewrite String.eqb_refl.
  - destruct (String.eqb k k') eqn:E; simpl; rewrite E; [done | exact IH].
Qed.

Lemma Map_get_set_ne k k' v m : k <> k' -> Map_get k' (Map_set k v m) = Map_get k' m.
Proof.
  intros Hne. induction m as [|[k0 v0] m IH]; simpl.
  - destruct (String.eqb_spec k' k); congruence.
  - destruct (String.eqb_spec k k0) as [->|]; simpl.
    + destruct (String.eqb_spec k' k0); congruence.
    + by rewrite IH.
Qed.

Lemma Map_get_None k m : Map_get k m = None <-> k ∉ map fst m.
Proof.
  induction m as [|[k' v'] m IH]; simpl.
  - split; [intros _; apply not_elem_of_nil | done].
  - rewrite not_elem_of_cons. destruct (String.eqb_spec k k'); [|tauto].
    split; [done | tauto].
Qed.

Lemma Map_get_Some k m : is_Some (Map_get k m) <-> k ∈ map fst m.
Proof.
  rewrite <- not_eq_None_Some, Map_get_None.
  destruct (decide (k ∈ map fst m)); tauto.
Qed.

Lemma Map_set_keys_present k v m :
  k ∈ map fst m -> map fst (Map_set k v m) = map fst m.
Proof.
  induction m as [|[k' v'] m IH]; simpl.
  - intros H. by apply elem_of_nil in H.
  - intros H. destruct (String.eqb_spec k k'); simpl; [done|].
    apply elem_of_cons in H as [?|H]; [done|]. by rewrite IH.
Qed.

Lemma Map_set_absent k v m : k ∉ map fst m -> Map_set k v m = (m ++ [(k, v)])%list.
Proof.
  induction m as [|[k' v'] m IH]; simpl; [done|].
  rewrite not_elem_of_cons. intros [Hne Hnin].
  destruct (String.eqb_spec k k'); [done|]. by rewrite IH.
Qed.

(** ** The update contract of the registry *)

(** What [updateTask] returns and stores, by cases on the presence of the id. *)
Lemma updateTask_cases (now : Z) (taskId : string) (updates : task) (tm : TaskManager) :
  match getTask taskId tm with
  | None => updateTask now taskId updates tm = (returned false, tm)
  | Some t =>
      let r := updateTask now taskId updates tm in
      let merged k := match updates !! k with Some v => Some v | None => t !! k end in
      r.1 = (if printable (merged "status") && printable (merged "progress")
             then returned true else TypeError_thrown)
      /\ (exists t' : task,
            getTask taskId r.2 = Some t'
            /\ t' !! "updatedAt" = Some (Iso now)
            /\ forall k, k <> "updatedAt" ->
                 t' !! k = match updates !! k with Some v => Some v | None => t !! k end)
      /\ (forall other, other <> taskId -> getTask other r.2 = getTask other tm)
      /\ map fst (tasks r.2) = map fst (tasks tm)
  end.
Proof.
  unfold getTask, updateTask.
  destruct (Map_get taskId (tasks tm)) as [t|] eqn:Hget; [|done].
  cbn [fst snd tasks with_tasks]. split; [|split; [|split]].
  - rewrite !lookup_insert_ne by done. rewrite !lookup_union.
    by destruct (updates !! "status"), (t !! "status"),
                (updates !! "progress"), (t !! "progress").
  - eexists. split; [apply Map_get_set_eq|]. split.
    + apply lookup_insert_eq.
    + intros k Hk. rewrite lookup_insert_ne by done.
      rewrite lookup_union. destruct (updates !! k), (t !! k); done.
  - intros other Hne. by apply Map_get_set_ne.
  - apply Map_set_keys_present, Map_get_Some. by rewrite Hget.
Qed.

(** C6: [updateTask] on an id that the registry does not hold returns
    [false], without raising, and leaves the registry as it was; on an id
    that it holds it stores the old record overlaid with the given fields
    under a fresh [updatedAt] and changes no other entry nor the set of ids;
    it then returns [true], unless the status or the progress of the merged
    record cannot be printed: then the log line throws a [TypeError], the
    merged record being stored all the same. *)
Theorem C6_updateTask_contract (now : Z) (taskId : string) (updates : task) (tm : TaskManager) :
  match getTask taskId tm with
  | None => updateTask now taskId updates tm = (returned false, tm)
  | Some t =>
      let r := updateTask now taskId updates tm in
      let merged k := match updates !! k with Some v => Some v | None => t !! k end in
      r.1 = (if printable (merged "status") && printable (merged "progress")
             then returned true else TypeError_thrown)
      /\ (exists t' : task,
            getTask taskId r.2 = Some t'
            /\ t' !! "updatedAt" = Some (Iso now)
            /\ forall k, k <> "updatedAt" ->
                 t' !! k = match updates !! k with Some v => Some v | None => t !! k end)
      /\ (forall other, other <> taskId -> getTask other r.2 = getTask other tm)
      /\ map fst (tasks r.2) = map fst (tasks tm)
  end.
Proof. exact (updateTask_cases now taskId updates tm). Qed.

(** C9: [updateTask] stores the merge whatever the status of the stored
    record is, and a call on a completed or failed task brings its status
    back to processing: the registry has no guard on the transitions. *)
Theorem C9_updateTask_no_guard :
  (forall now taskId (updates t : task) tm,
      getTask taskId tm = Some t ->
      getTask taskId (updateTask now taskId updates tm).2
      = Some (<["updatedAt" := Iso now]> (updates ∪ t)))
  /\ (status_of "t1" (finished "completed") = Some (Str "completed")
      /\ status_of "t1"
           (updateTask 2 "t1" {["status" := Str "processing"]} (finished "completed")).2
         = Some (Str "processing"))
  /\ (status_of "t1" (finished "failed") = Some (Str "failed")
      /\ status_of "t1"
           (updateTask 2 "t1" {["status" := Str "processing"]} (finished "failed")).2
         = Some (Str "processing")).
Proof.
  split; [|by_computation].
  intros now id updates t tm Hget. unfold getTask, updateTask in *.
  rewrite Hget. simpl. apply Map_get_set_eq.
Qed.

(** The merge at a registry holding one completed task. *)
Lemma C9_updateTask_no_guard_witness :
  getTask "t1" (updateTask 2 "t1" {["status" := Str "processing"]} (finished "completed")).2
  = Some (<["updatedAt" := Iso 2]>
            ({["status" := Str "processing"]}
             ∪ (<["updatedAt" := Iso 1]>
                  ({["status" := Str "completed"]}
                   ∪ (<["updatedAt" := Iso 0]>
                        (<["createdAt" := Iso 0]>
                           ({["status" := Str "pending"]} ∪ {["taskId" := Str "t1"]}))))))).
Proof.
  apply (proj1 C9_updateTask_no_guard 2 "t1"). by_computation.
Defined.

(** ** The progress parser *)

Section parser_properties.

Variable JSON_parse : string -> option json.




Lemma for_lines_app (lines : list string) (acc : list number) :
  for_lines JSON_parse (Some (fun p l => (l ++ [p])%list)) lines acc
  = (acc ++ for_lines JSON_parse (Some (fun p l => (l ++ [p])%list)) lines [])%list.
Proof.
  unfold for_lines. revert acc.
  induction lines as [|line lines IH]; intros acc; simpl.
  - by rewrite app_nil_r.
  - destruct (negb (String.eqb (trim line) "")); [|apply IH].
    destruct (progress_of JSON_parse line) as [p|]; [|apply IH].
    rewrite (IH (acc ++ [p])%list), (IH [p]).
    by rewrite <- app_assoc.
Qed.

(** What the callback does to its state while a chunk is handled is what
    it does on the emitted values, in their order. *)
Lemma for_lines_emitted {S : Type} (callback : number -> S -> S) lines (st : S) :
  for_lines JSON_parse (Some callback) lines st
  = foldl (fun st p => callback p st) st
      (for_lines JSON_parse (Some (fun p l => (l ++ [p])%list)) lines []).
Proof.
  revert st. induction lines as [|line lines IH]; intros st; [done|].
  unfold for_lines in *. simpl.
  destruct (negb (String.eqb (trim line) "")); [|apply IH].
  destruct (progress_of JSON_parse line) as [p|]; [|apply IH].
  rewrite IH. fold (for_lines JSON_parse (Some (fun p l => (l ++ [p])%list)) lines [p]).
  by rewrite for_lines_app.
Qed.

Lemma stdout_on_data_emitted {S : Type} (callback : number -> S -> S) data buffer (st : S) :
  stdout_on_data JSON_parse (Some callback) data buffer st
  = (buffer +:+ data,
     foldl (fun st p => callback p st) st (emitted JSON_parse data buffer)).
Proof. unfold emitted, stdout_on_data. simpl. by rewrite for_lines_emitted. Qed.

Lemma append_assoc (a b c : string) : (a +:+ b) +:+ c = a +:+ (b +:+ c).
Proof.
  induction a as [|x a IH]; [done|].
  change (String x ((a +:+ b) +:+ c) = String x (a +:+ (b +:+ c))). by rewrite IH.
Qed.

(** What is emitted while a chunk is handled depends on the output so far
    as a whole, not on where it was cut into chunks: a line cut by a chunk
    boundary is decoded as one line when its end has arrived. *)
Lemma emitted_across_chunks (d1 d2 buffer : string) :
  emitted JSON_parse d2 (buffer +:+ d1) = emitted JSON_parse (d1 +:+ d2) buffer.
Proof. unfold emitted, stdout_on_data. by rewrite append_assoc. Qed.

End parser_properties.

(** ** Reads of the registry after its operations *)

Lemma Map_get_delete_eq k m : Map_get k (Map_delete k m) = None.
Proof.
  induction m as [|[k' v'] m IH]; simpl; [done|].
  destruct (String.eqb k k') eqn:E; [done|]. simpl. by rewrite E.
Qed.

Lemma Map_get_delete_ne k k' m : k <> k' -> Map_get k' (Map_delete k m) = Map_get k' m.
Proof.
  intros Hne. induction m as [|[k0 v0] m IH]; simpl; [done|].
  destruct (String.eqb_spec k k0) as [->|]; simpl.
  - destruct (String.eqb_spec k' k0); congruence.
  - by rewrite IH.
Qed.

Lemma part_of_refl tm : part_of tm tm.
Proof. intros id. by right. Qed.

Lemma part_of_trans tm1 tm2 tm3 : part_of tm1 tm2 -> part_of tm2 tm3 -> part_of tm1 tm3.
Proof.
  intros H12 H23 id. destruct (H12 id) as [?|E]; [by left|].
  rewrite E. apply H23.
Qed.

Lemma part_of_delete k m tm : part_of (with_tasks (Map_delete k m) tm) (with_tasks m tm).
Proof.
  intros id. unfold getTask. simpl. destruct (decide (k = id)) as [->|Hne].
  - left. apply Map_get_delete_eq.
  - right. by apply Map_get_delete_ne.
Qed.

Lemma part_of_delete_values (l : list task) m tm :
  part_of (with_tasks (foldl (fun m t => Map_delete_value (t !! "taskId") m) m l) tm)
          (with_tasks m tm).
Proof.
  revert m. induction l as [|t l IH]; intros m; simpl; [apply part_of_refl|].
  eapply part_of_trans; [apply IH|].
  unfold Map_delete_value.
  destruct (t !! "taskId") as [[[]|]|]; try apply part_of_refl.
  apply part_of_delete.
Qed.

Lemma part_of_cleanupOldTasks tm : part_of (cleanupOldTasks tm) tm.
Proof.
  unfold cleanupOldTasks. destruct (_ <=? _)%nat; [apply part_of_refl|].
  destruct tm as [m n]. apply (part_of_delete_values _ m {| tasks := m; maxTasks := n |}).
Qed.

Lemma part_of_cleanup_tick now tm : part_of (cleanup_tick now tm) tm.
Proof.
  unfold cleanup_tick. generalize (map fst (List.filter
    (fun kv : string * task =>
       (has_status "completed" kv.2 || has_status "failed" kv.2)
       && match Date_of (kv.2 !! "updatedAt") with
          | Some ms => maxAge <? now - ms
          | None => false
          end) (tasks tm))).
  intros l. revert tm. induction l as [|k l IH]; intros tm; simpl; [apply part_of_refl|].
  eapply part_of_trans; [apply IH|].
  destruct tm as [m n]. apply (part_of_delete k m {| tasks := m; maxTasks := n |}).
Qed.

Lemma property_part_of k id tm' tm :
  part_of tm' tm -> property k id tm' = None \/ property k id tm' = property k id tm.
Proof. intros H. unfold property. destruct (H id) as [->| ->]; auto. Qed.

Lemma property_updateTask now id (updates : task) tm k :
  k <> "updatedAt" ->
  property k id (updateTask now id updates tm).2
  = match getTask id tm with
    | None => None
    | Some t => match updates !! k with Some v => Some v | None => t !! k end
    end.
Proof.
  intros Hk.
  pose proof (updateTask_cases now id updates tm) as H.
  unfold property. destruct (getTask id tm) as [t|] eqn:Hget.
  - destruct H as (_ & (t' & -> & _ & Hm) & _). by apply Hm.
  - rewrite H. simpl. by rewrite Hget.
Qed.

Lemma updateTask_present now id (updates : task) tm :
  is_Some (getTask id (updateTask now id updates tm).2) <-> is_Some (getTask id tm).
Proof.
  pose proof (updateTask_cases now id updates tm) as H.
  destruct (getTask id tm) as [t|] eqn:Hget.
  - destruct H as (_ & (t' & -> & _) & _). split; eauto.
  - rewrite H. simpl. by rewrite Hget.
Qed.

(** The status after a download request for [uuid]. *)
Lemma status_createTask id uuid now url quality tm :
  status_of id (createTask uuid now (download_task url quality) tm).2 = None
  \/ status_of id (createTask uuid now (download_task url quality) tm).2 = Some (Str "pending")
  \/ status_of id (createTask uuid now (download_task url quality) tm).2 = status_of id tm.
Proof.
  unfold createTask. simpl.
  match goal with |- context [cleanupOldTasks ?x] => set (tm1 := x) end.
  destruct (property_part_of "status" id _ _ (part_of_cleanupOldTasks tm1)) as [->| ->];
    [by left|].
  right. unfold tm1, property, getTask. simpl.
  destruct (decide (uuid = id)) as [->|Hne].
  - left. rewrite Map_get_set_eq. by_computation.
  - right. by rewrite Map_get_set_ne.
Qed.

(** ** Progress and outcome of a run *)

Lemma progressCallback_read now id progress tm k :
  k <> "updatedAt" ->
  property k id (progressCallback now id progress tm)
  = match getTask id tm with
    | None => None
    | Some t =>
        match (list_to_map [("status", Str "processing");
                            ("progress", Json (JNumber (Math_round progress)))] : task) !! k with
        | Some v => Some v
        | None => t !! k
        end
    end.
Proof. intros Hk. unfold progressCallback. by apply property_updateTask. Qed.

Lemma progressCallback_present now id progress tm :
  is_Some (getTask id (progressCallback now id progress tm)) <-> is_Some (getTask id tm).
Proof. apply updateTask_present. Qed.

Lemma progressCallbacks_present now id (l : list number) tm :
  is_Some (getTask id (foldl (fun tm p => progressCallback now id p tm) tm l))
  <-> is_Some (getTask id tm).
Proof.
  revert tm. induction l as [|p l IH]; intros tm; simpl; [done|].
  by rewrite IH, progressCallback_present.
Qed.

(** After the callback the status is processing, or the task is gone. *)
Lemma status_progressCallback now id progress tm :
  status_of id (progressCallback now id progress tm)
  = match getTask id tm with Some _ => Some (Str "processing") | None => None end.
Proof. rewrite progressCallback_read by done. by destruct (getTask id tm). Qed.

Lemma status_progressCallbacks now id (l : list number) tm :
  status_of id (foldl (fun tm p => progressCallback now id p tm) tm l) = status_of id tm
  \/ status_of id (foldl (fun tm p => progressCallback now id p tm) tm l)
     = Some (Str "processing")
  \/ status_of id (foldl (fun tm p => progressCallback now id p tm) tm l) = None.
Proof.
  induction l as [|p l IH] using rev_ind; [by left|].
  right. rewrite foldl_app. simpl. rewrite status_progressCallback.
  destruct (getTask id _); auto.
Qed.

(** After the update that follows the promise, the status is the terminal
    one of the outcome, or the task is gone. *)
Lemma status_on_settled now id o tm :
  status_of id (on_settled now id o tm)
  = match getTask id tm with
    | Some _ => Some (Str match o with Resolved _ _ => "completed" | Rejected _ => "failed" end)
    | None => None
    end.
Proof.
  destruct o; simpl; rewrite property_updateTask by done; by destruct (getTask id tm).
Qed.

Lemma error_on_settled now id message tm :
  property "error" id (on_settled now id (Rejected message) tm)
  = match getTask id tm with Some _ => Some (Str message) | None => None end.
Proof. simpl. rewrite property_updateTask by done. by destruct (getTask id tm). Qed.

Section run_properties.

Variable JSON_parse : string -> option json.

Lemma step_stdout now data s :
  closed s = false ->
  step JSON_parse now (stdout_data data) s
  = Some (with_taskManager
            (foldl (fun tm p => progressCallback now (taskId s) p tm) (taskManager s)
               (emitted JSON_parse data (progressData s)))
            (with_progressData (progressData s +:+ data) s)).
Proof. intros Hc. unfold step. rewrite Hc. by rewrite stdout_on_data_emitted. Qed.

(** C4 (as amended): every progress value handed to the callback is
    written to the record of a task that the registry holds, rounded,
    whatever the progress in the record is; a chunk of output that emits
    values leaves the record with the last value emitted while the chunk was
    handled, a chunk that emits none leaves the registry as it was.  A poll
    then reads the status processing and that progress as [res.json] sends
    it: the number when it is finite, [null] when it is not. *)
Theorem C4_progress_applied_unconditionally (now : Z) (s : system) (t : task) :
  getTask (taskId s) (taskManager s) = Some t ->
  (forall progress,
      let tm' := progressCallback now (taskId s) progress (taskManager s) in
      property "progress" (taskId s) tm' = Some (Json (JNumber (Math_round progress)))
      /\ status_of (taskId s) tm' = Some (Str "processing")
      /\ poll "progress" (taskId s) tm'
         = Some (Json match Math_round progress with
                      | Finite x => JNumber (Finite x)
                      | _ => JNull
                      end)
      /\ poll "status" (taskId s) tm' = Some (Str "processing"))
  /\ (forall data s' l p,
        step JSON_parse now (stdout_data data) s = Some s' ->
        emitted JSON_parse data (progressData s) = (l ++ [p])%list ->
        property "progress" (taskId s') (taskManager s')
        = Some (Json (JNumber (Math_round p)))
        /\ status_of (taskId s') (taskManager s') = Some (Str "processing")
        /\ poll "progress" (taskId s') (taskManager s')
           = Some (Json match Math_round p with
                        | Finite x => JNumber (Finite x)
                        | _ => JNull
                        end)
        /\ poll "status" (taskId s') (taskManager s') = Some (Str "processing"))
  /\ (forall data s',
        step JSON_parse now (stdout_data data) s = Some s' ->
        emitted JSON_parse data (progressData s) = [] ->
        taskManager s' = taskManager s).
Proof.
  intros Hget.
  assert (forall id tm x,
            property "progress" id tm = Some (Json (JNumber x)) ->
            status_of id tm = Some (Str "processing") ->
            poll "progress" id tm
            = Some (Json match x with Finite y => JNumber (Finite y) | _ => JNull end)
            /\ poll "status" id tm = Some (Str "processing")) as Hpoll.
  { intros id tm x Hp Hs. unfold poll. rewrite Hp, Hs. by destruct x. }
  split; [|split].
  - intros progress tm'. unfold tm'.
    assert (property "progress" (taskId s)
              (progressCallback now (taskId s) progress (taskManager s))
            = Some (Json (JNumber (Math_round progress)))
            /\ status_of (taskId s) (progressCallback now (taskId s) progress (taskManager s))
               = Some (Str "processing")) as [Hp Hs].
    { rewrite !progressCallback_read by done. by rewrite Hget. }
    destruct (Hpoll _ _ _ Hp Hs). by repeat split.
  - intros data s' l p Hstep Hem.
    assert (property "progress" (taskId s') (taskManager s')
            = Some (Json (JNumber (Math_round p)))
            /\ status_of (taskId s') (taskManager s') = Some (Str "processing")) as [Hp Hs].
    { destruct (closed s) eqn:Hc; [by simpl in Hstep; rewrite Hc in Hstep|].
      rewrite step_stdout in Hstep by done. injection Hstep as <-. simpl.
      rewrite Hem, foldl_app. simpl.
      assert (is_Some (getTask (taskId s)
                (foldl (fun tm p => progressCallback now (taskId s) p tm) (taskManager s) l)))
        as [t' Ht'] by (apply progressCallbacks_present; eauto).
      rewrite !progressCallback_read by done. by rewrite Ht'. }
    destruct (Hpoll _ _ _ Hp Hs). by repeat split.
  - intros data s' Hstep Hem.
    destruct (closed s) eqn:Hc; [by simpl in Hstep; rewrite Hc in Hstep|].
    rewrite step_stdout in Hstep by done. injection Hstep as <-. by rewrite Hem.
Qed.

Lemma settle_fields now o s :
  taskId (settle now o s) = taskId s /\ timeout (settle now o s) = timeout s
  /\ closed (settle now o s) = closed s /\ signals (settle now o s) = signals s
  /\ progressData (settle now o s) = progressData s.
Proof. unfold settle. by destruct (promise s). Qed.

Lemma settle_pending now o s :
  promise s = None ->
  promise (settle now o s) = Some o
  /\ taskManager (settle now o s) = on_settled now (taskId s) o (taskManager s).
Proof. intros H. unfold settle. by rewrite H. Qed.

Lemma settle_settled now o s :
  promise s <> None -> settle now o s = s.
Proof. intros H. unfold settle. by destruct (promise s). Qed.

Lemma run_app evs1 evs2 s :
  run JSON_parse (evs1 ++ evs2) s
  = match run JSON_parse evs1 s with
    | Some s1 => run JSON_parse evs2 s1
    | None => None
    end.
Proof.
  revert s. induction evs1 as [|[now ev] evs1 IH]; intros s; simpl; [done|].
  destruct (step JSON_parse now ev s); [apply IH | done].
Qed.

(** A quiet event is always possible while the process is alive, and leaves
    the promise, the timer and the signals as they are. *)
Lemma quiet_step now ev s :
  quiet ev = true -> closed s = false ->
  exists s', step JSON_parse now ev s = Some s'
             /\ closed s' = false /\ timeout s' = timeout s /\ signals s' = signals s
             /\ promise s' = promise s /\ taskId s' = taskId s.
Proof.
  intros Hq Hc. destruct ev; try done.
  - rewrite step_stdout by done. by eexists.
  - simpl. rewrite Hc. by eexists.
  - simpl. by eexists.
  - simpl. by eexists.
Qed.

Lemma quiet_run evs s :
  forallb quiet (map snd evs) = true -> closed s = false ->
  exists s', run JSON_parse evs s = Some s'
             /\ closed s' = false /\ timeout s' = timeout s /\ signals s' = signals s
             /\ promise s' = promise s /\ taskId s' = taskId s.
Proof.
  revert s. induction evs as [|[now ev] evs IH]; intros s Hq Hc; simpl in *.
  - by exists s.
  - apply andb_prop in Hq as [Hq1 Hq2].
    destruct (quiet_step now ev s Hq1 Hc) as (s1 & -> & Hc1 & <- & <- & <- & <-).
    by apply IH.
Qed.

(** With no timer armed no signal is sent, whatever follows. *)
Lemma disarmed_run evs s s' :
  timeout s = None -> run JSON_parse evs s = Some s' ->
  signals s' = signals s /\ timeout s' = None.
Proof.
  revert s. induction evs as [|[now ev] evs IH]; intros s Ht Hrun; simpl in *.
  - by injection Hrun as <-.
  - destruct (step JSON_parse now ev s) as [s1|] eqn:Hstep; [|done].
    assert (signals s1 = signals s /\ timeout s1 = None) as [<- Ht1].
    { destruct ev; simpl in Hstep.
      - destruct (closed s); [done|]. by injection Hstep as <-.
      - destruct (closed s); [done|]. by injection Hstep as <-.
      - destruct (closed s); [done|]. injection Hstep as <-.
        by destruct (settle_fields now (close_outcome (filename s) code st)
                       (clearTimeout (with_closed s))) as (_ & -> & _ & -> & _).
      - destruct (closed s); [done|]. injection Hstep as <-.
        by destruct (settle_fields now (error_outcome code message) s)
          as (_ & -> & _ & -> & _).
      - by rewrite Ht in Hstep.
      - by injection Hstep as <-.
      - by injection Hstep as <-. }
    by apply IH.
Qed.

(** A settled promise stays as it is. *)
Lemma settled_run evs s s' o :
  promise s = Some o -> run JSON_parse evs s = Some s' -> promise s' = Some o.
Proof.
  revert s. induction evs as [|[now ev] evs IH]; intros s Hp Hrun; simpl in *.
  - by injection Hrun as <-.
  - destruct (step JSON_parse now ev s) as [s1|] eqn:Hstep; [|done].
    apply (IH s1); [|done].
    destruct ev; simpl in Hstep.
    + destruct (closed s); [done|]. by injection Hstep as <-.
    + destruct (closed s); [done|]. by injection Hstep as <-.
    + destruct (closed s); [done|]. injection Hstep as <-.
      rewrite settle_settled; [done | simpl; congruence].
    + destruct (closed s); [done|]. injection Hstep as <-.
      rewrite settle_settled; [done | congruence].
    + destruct (timeout s); [|done]. destruct (_ <=? _); [|done].
      injection Hstep as <-. rewrite settle_settled; [done | simpl; congruence].
    + by injection Hstep as <-.
    + by injection Hstep as <-.
Qed.

(** C8: a run whose timer comes due while the process is alive, after any
    output, sends SIGTERM once and rejects with the timeout message, the
    task, if the registry holds it, becoming failed; nothing that follows
    sends a second signal or changes the outcome.  The timer is due 30
    minutes after the spawn and cannot fire before.  A run whose process
    closes first has its timer cleared, and no signal is ever sent. *)
Theorem C8_timeout_signal_once (now : Z) (id hash : string) (tm : TaskManager)
    (pre rest : list (Z * event)) (t : Z) :
  forallb quiet (map snd pre) = true ->
  let init := processVideoAsync now id hash tm in
  (now + 30 * 60 * 1000 <= t ->
   exists s1,
     run JSON_parse (pre ++ [(t, timeout_fired)]) init = Some s1
     /\ signals s1 = ["SIGTERM"]
     /\ promise s1 = Some (Rejected timeout_message)
     /\ (is_Some (getTask id (taskManager s1)) ->
         status_of id (taskManager s1) = Some (Str "failed")
         /\ property "error" id (taskManager s1) = Some (Str timeout_message))
     /\ forall s', run JSON_parse rest s1 = Some s' ->
          signals s' = ["SIGTERM"] /\ promise s' = Some (Rejected timeout_message))
  /\ (t < now + 30 * 60 * 1000 ->
      run JSON_parse (pre ++ [(t, timeout_fired)]) init = None)
  /\ (forall code st,
        exists s1,
          run JSON_parse (pre ++ [(t, close code st)]) init = Some s1
          /\ timeout s1 = None
          /\ forall s', run JSON_parse rest s1 = Some s' -> signals s' = []).
Proof.
  intros Hq init.
  destruct (quiet_run pre init Hq eq_refl) as (s0 & Hrun & Hc & Ht & Hs & Hp & Hid).
  simpl in Ht, Hs, Hp, Hid. fold timeout_ms in *.
  repeat split.
  - intros Hdue. rewrite run_app, Hrun. simpl. rewrite Ht.
    destruct (Z.leb_spec (now + timeout_ms) t) as [_|]; [|lia].
    eexists. split; [done|].
    set (s := kill "SIGTERM" (clearTimeout s0)).
    destruct (settle_fields t (Rejected timeout_message) s) as (_ & Ht1 & _ & Hs1 & _).
    destruct (settle_pending t (Rejected timeout_message) s Hp) as [Hp1 Htm1].
    split; [by rewrite Hs1; simpl; rewrite Hs|]. split; [done|]. split.
    + rewrite Htm1. change (taskId s) with (taskId s0).
      change (taskManager s) with (taskManager s0). rewrite Hid. intros Hpres.
      rewrite status_on_settled, error_on_settled.
      apply updateTask_present in Hpres. by destruct Hpres as [? ->].
    + intros s' Hrest. split.
      * destruct (disarmed_run rest _ s' Ht1 Hrest) as [-> _].
        by rewrite Hs1; simpl; rewrite Hs.
      * by apply (settled_run rest _ s' _ Hp1 Hrest).
  - intros Hdue. rewrite run_app, Hrun. simpl. rewrite Ht.
    by destruct (Z.leb_spec (now + timeout_ms) t) as [|_]; [lia|].
  - intros code st. rewrite run_app, Hrun. simpl. rewrite Hc.
    eexists. split; [done|].
    destruct (settle_fields t (close_outcome (filename s0) code st)
                (clearTimeout (with_closed s0))) as (_ & Ht1 & _ & Hs1 & _).
    split; [done|].
    intros s' Hrest. destruct (disarmed_run rest _ s' Ht1 Hrest) as [-> _].
    by rewrite Hs1; simpl.
Qed.

Lemma on_settled_present now id o tm :
  is_Some (getTask id (on_settled now id o tm)) <-> is_Some (getTask id tm).
Proof. destruct o; apply updateTask_present. Qed.

(** A close with code 0 and an unusable artifact, the promise pending. *)
Lemma close_unusable now st s :
  closed s = false -> promise s = None -> unusable st ->
  exists s' cause,
    step JSON_parse now (close (Some 0) st) s = Some s'
    /\ promise s' = Some (Rejected (not_found_or_empty cause))
    /\ taskManager s'
       = on_settled now (taskId s) (Rejected (not_found_or_empty cause)) (taskManager s)
    /\ closed s' = true.
Proof.
  intros Hc Hp Hst. unfold step. rewrite Hc.
  assert (exists cause, close_outcome (filename s) (Some 0) st
                        = Rejected (not_found_or_empty cause)) as [cause Hout].
  { destruct st as [message|size]; simpl in *; [by eexists|].
    destruct (Z.ltb_spec 0 size); [lia | by eexists]. }
  rewrite Hout. eexists _, cause. split; [done|].
  destruct (settle_pending now (Rejected (not_found_or_empty cause))
              (clearTimeout (with_closed s)) Hp) as [-> ->].
  split; [done|]. split; [done|].
  by destruct (settle_fields now (Rejected (not_found_or_empty cause))
                 (clearTimeout (with_closed s))) as (_ & _ & -> & _).
Qed.

(** The one event that brings a task to completed. *)
Lemma completed_only_by_close now ev s s' :
  step JSON_parse now ev s = Some s' ->
  status_of (taskId s) (taskManager s') = Some (Str "completed") ->
  status_of (taskId s) (taskManager s) <> Some (Str "completed") ->
  exists size, ev = close (Some 0) (stats size) /\ 0 < size.
Proof.
  intros Hstep Hafter Hbefore.
  destruct ev.
  + destruct (closed s) eqn:Hc; [by simpl in Hstep; rewrite Hc in Hstep|].
    rewrite step_stdout in Hstep by done. injection Hstep as <-. simpl in Hafter.
    destruct (status_progressCallbacks now (taskId s)
                (emitted JSON_parse data (progressData s)) (taskManager s))
      as [E|[E|E]]; rewrite E in Hafter; done.
  + simpl in Hstep. destruct (closed s); [done|]. by injection Hstep as <-.
  + simpl in Hstep. destruct (closed s); [done|]. injection Hstep as <-.
    destruct (promise s) as [o|] eqn:Hp.
    { rewrite settle_settled in Hafter by (simpl; congruence). done. }
    destruct (settle_pending now (close_outcome (filename s) code st)
                (clearTimeout (with_closed s)) Hp) as [_ Htm].
    rewrite Htm in Hafter. simpl taskId in Hafter. simpl taskManager in Hafter.
    rewrite status_on_settled in Hafter.
    destruct (getTask (taskId s) (taskManager s)); [|done].
    destruct code as [[| |]|]; try done.
    destruct st as [|size]; [done|]. simpl in Hafter.
    destruct (Z.ltb_spec 0 size); [by exists size | done].
  + simpl in Hstep. destruct (closed s); [done|]. injection Hstep as <-.
    destruct (promise s) as [o|] eqn:Hp.
    { rewrite settle_settled in Hafter by congruence. done. }
    destruct (settle_pending now (error_outcome code message) s Hp) as [_ Htm].
    rewrite Htm, status_on_settled in Hafter.
    destruct (getTask (taskId s) (taskManager s)); [|done].
    unfold error_outcome in Hafter.
    repeat (match goal with
            | H : context [match ?x with _ => _ end] |- _ => is_var x; destruct x
            end; try done).
  + simpl in Hstep. destruct (timeout s); [|done]. destruct (_ <=? _); [|done].
    injection Hstep as <-.
    destruct (promise s) as [o|] eqn:Hp.
    { rewrite settle_settled in Hafter by (simpl; congruence). done. }
    destruct (settle_pending now (Rejected timeout_message)
                (kill "SIGTERM" (clearTimeout s)) Hp) as [_ Htm].
    rewrite Htm in Hafter. simpl taskId in Hafter. simpl taskManager in Hafter.
    rewrite status_on_settled in Hafter.
    by destruct (getTask (taskId s) (taskManager s)).
  + cbn [step] in Hstep. injection Hstep as <-.
    cbn [taskManager taskId with_taskManager] in Hafter.
    pose proof (status_createTask (taskId s) uuid now url quality (taskManager s)) as E.
    unfold createTask in E. cbn [snd] in E.
    destruct E as [E|[E|E]]; rewrite E in Hafter; done.
  + cbn [step] in Hstep. injection Hstep as <-.
    cbn [taskManager taskId with_taskManager] in Hafter.
    destruct (property_part_of "status" (taskId s) _ _
                (part_of_cleanup_tick now (taskManager s))) as [E|E];
      rewrite E in Hafter; done.
Qed.

Lemma step_taskId now ev s s' :
  step JSON_parse now ev s = Some s' ->
  taskId s' = taskId s /\ (closed s = true -> closed s' = true).
Proof.
  intros Hstep. destruct ev; simpl in Hstep.
  - destruct (closed s); [done|]. by injection Hstep as <-.
  - destruct (closed s); [done|]. by injection Hstep as <-.
  - destruct (closed s); [done|]. injection Hstep as <-.
    by destruct (settle_fields now (close_outcome (filename s) code st)
                   (clearTimeout (with_closed s))) as (-> & _ & -> & _).
  - destruct (closed s); [done|]. injection Hstep as <-.
    by destruct (settle_fields now (error_outcome code message) s) as (-> & _ & -> & _).
  - destruct (timeout s); [|done]. destruct (_ <=? _); [|done]. injection Hstep as <-.
    by destruct (settle_fields now (Rejected timeout_message)
                   (kill "SIGTERM" (clearTimeout s))) as (-> & _ & -> & _).
  - by injection Hstep as <-.
  - by injection Hstep as <-.
Qed.

(** Once the process has closed, nothing brings the task to completed. *)
Lemma closed_never_completes evs s s' :
  closed s = true ->
  status_of (taskId s) (taskManager s) <> Some (Str "completed") ->
  run JSON_parse evs s = Some s' ->
  status_of (taskId s) (taskManager s') <> Some (Str "completed").
Proof.
  revert s. induction evs as [|[now ev] evs IH]; intros s Hc Hst Hrun; simpl in Hrun.
  - by injection Hrun as <-.
  - destruct (step JSON_parse now ev s) as [s1|] eqn:Hstep; [|done].
    destruct (step_taskId now ev s s1 Hstep) as [Hid Hc1].
    rewrite <- Hid. apply IH; [by apply Hc1| |done].
    rewrite Hid. intros Hcompleted.
    destruct (completed_only_by_close now ev s s1 Hstep Hcompleted Hst) as (size & -> & _).
    simpl in Hstep. by rewrite Hc in Hstep.
Qed.

(** C7: a run in which the process, after any output, closes with code 0
    while its artifact is missing or empty rejects with the message of an
    unusable output; the task, if the registry holds it, becomes failed with
    that message, and nothing that follows makes it completed.  From any
    state with the promise pending such a close has this effect, and the
    only event that brings a task to completed is a close with code 0 whose
    artifact exists with a size above 0. *)
Theorem C7_exit_zero_needs_artifact :
  (forall now id hash tm pre t st rest,
      forallb quiet (map snd pre) = true -> unusable st ->
      exists s1 cause,
        run JSON_parse (pre ++ [(t, close (Some 0) st)]) (processVideoAsync now id hash tm)
        = Some s1
        /\ promise s1 = Some (Rejected (not_found_or_empty cause))
        /\ (is_Some (getTask id (taskManager s1)) ->
            status_of id (taskManager s1) = Some (Str "failed")
            /\ property "error" id (taskManager s1)
               = Some (Str (not_found_or_empty cause)))
        /\ forall s', run JSON_parse rest s1 = Some s' ->
             status_of id (taskManager s') <> Some (Str "completed"))
  /\ (forall now st s,
        closed s = false -> promise s = None -> unusable st ->
        exists s' cause,
          step JSON_parse now (close (Some 0) st) s = Some s'
          /\ promise s' = Some (Rejected (not_found_or_empty cause))
          /\ status_of (taskId s) (taskManager s')
             = match getTask (taskId s) (taskManager s) with
               | Some _ => Some (Str "failed")
               | None => None
               end
          /\ property "error" (taskId s) (taskManager s')
             = match getTask (taskId s) (taskManager s) with
               | Some _ => Some (Str (not_found_or_empty cause))
               | None => None
               end)
  /\ (forall now ev s s',
        step JSON_parse now ev s = Some s' ->
        status_of (taskId s) (taskManager s') = Some (Str "completed") ->
        status_of (taskId s) (taskManager s) <> Some (Str "completed") ->
        exists size, ev = close (Some 0) (stats size) /\ 0 < size).
Proof.
  split; [|split; [|exact completed_only_by_close]].
  - intros now id hash tm pre t st rest Hq Hst.
    destruct (quiet_run pre (processVideoAsync now id hash tm) Hq eq_refl)
      as (s0 & Hrun & Hc & _ & _ & Hp & Hid).
    simpl in Hp, Hid.
    destruct (close_unusable t st s0 Hc Hp Hst) as (s1 & cause & Hstep & Hp1 & Htm & Hc1).
    exists s1, cause. rewrite run_app, Hrun. cbn [run]. rewrite Hstep.
    rewrite Hid in Htm. split; [done|]. split; [done|]. split.
    + rewrite Htm. intros Hpres. apply on_settled_present in Hpres as [t0 Ht0].
      by rewrite status_on_settled, error_on_settled, Ht0.
    + intros s' Hrest.
      destruct (step_taskId t _ s0 s1 Hstep) as [Hid1 _].
      rewrite <- Hid, <- Hid1.
      apply (closed_never_completes rest s1 s'); [done| |done].
      rewrite Hid1, Hid, Htm, status_on_settled.
      by destruct (getTask id (taskManager s0)).
  - intros now st s Hc Hp Hst.
    destruct (close_unusable now st s Hc Hp Hst) as (s' & cause & Hstep & Hp1 & Htm & _).
    exists s', cause. split; [done|]. split; [done|].
    by rewrite Htm, status_on_settled, error_on_settled.
Qed.

End run_properties.

(** ** Runs on concrete output *)

Example decode_progress_line :
  JSON_decode (progress_line "50")
  = Some (JObject [("status", JString "downloading"); ("percent", JNumber (Finite 50))]).
Proof. reflexivity. Qed.

(** C1 (failing run): the task is created pending and set to processing
    at the start; the timer fires and the task becomes failed; output of the
    process that is read after the signal brings it back to processing, and
    there it stays when the process closes: the promise is settled. *)
Theorem C1_failed_task_back_to_processing :
  status_of "task-1"
    (createTask "task-1" 1000 (download_task "https://youtu.be/v" "720p") constructor).2
  = Some (Str "pending")
  /\ status_of "task-1" (taskManager started) = Some (Str "processing")
  /\ polls [(1000 + timeout_ms, timeout_fired);
            (1000 + timeout_ms + 1, stdout_data (progress_line "50" +:+ LF));
            (1000 + timeout_ms + 2, close None (stat_throws "ENOENT"))] started
     = [(Some (Str "failed"), Some (Num 0));
        (Some (Str "processing"), Some (Num 50));
        (Some (Str "processing"), Some (Num 50))].
Proof. by_computation. Qed.


(** C3 (failing input): a line that arrives without its newline is decoded
    at once, and decoded again with every later chunk: the buffer is never
    cut back to the unfinished line. *)
Theorem C3_unterminated_line_decoded :
  emitted JSON_decode (progress_line "50") "" = [Finite 50]
  /\ emitted JSON_decode LF (progress_line "50") = [Finite 50]
  /\ emitted JSON_decode (progress_line "20" +:+ LF) (progress_line "50" +:+ LF)
     = [Finite 50; Finite 20].
Proof. by_computation. Qed.

(** C4 (counterexample): the process reports 50, then 20; the task is read
    with progress 50, then 20, its status processing throughout. *)
Lemma C4_progress_decreases :
  polls [(2000, stdout_data (progress_line "50" +:+ LF));
         (3000, stdout_data (progress_line "20" +:+ LF))] started
  = [(Some (Str "processing"), Some (Num 50));
     (Some (Str "processing"), Some (Num 20))].
Proof. by_computation. Qed.

(** The three ways a close settles the run [started]. *)
Example close_paths :
  polls [(5000, close (Some 0) (stats 0))] started
  = [(Some (Str "failed"), Some (Num 0))]
  /\ polls [(5000, close (Some 0) (stat_throws "ENOENT: no such file or directory"))] started
     = [(Some (Str "failed"), Some (Num 0))]
  /\ polls [(5000, close (Some 0) (stats 1048576))] started
     = [(Some (Str "completed"), Some (Num 100))]
  /\ polls [(5000, close (Some 2) (stat_throws "ENOENT: no such file or directory"))] started
     = [(Some (Str "failed"), Some (Num 0))]
  /\ option_map (fun s => property "error" "task-1" (taskManager s))
       (run JSON_decode [(5000, close (Some 0) (stats 0))] started)
     = Some (Some (Str "Output file not found or empty: Downloaded file is empty")).
Proof. by_computation. Qed.

(** A percent given as the text [0] is truthy: it is emitted, as 0. *)
Example text_zero_is_emitted :
  emitted JSON_decode (progress_line (q "0") +:+ LF) "" = [Finite 0].
Proof. by_computation. Qed.


(** A percent given as the text [Infinity] is emitted and stored as it is; a
    poll reads it as [null]. *)
Example infinite_progress_is_read_as_null :
  polls [(2000, stdout_data (progress_line (q "Infinity") +:+ LF))] started
  = [(Some (Str "processing"), Some (Json JNull))]
  /\ (forall s', run JSON_decode [(2000, stdout_data (progress_line (q "Infinity") +:+ LF))]
                   started = Some s' ->
                 property "progress" "task-1" (taskManager s')
                 = Some (Json (JNumber (Infinity false)))).
Proof.
  split; [by_computation|].
  intros s' Hrun. vm_compute in Hrun. injection Hrun as <-. vm_compute. reflexivity.
Qed.

(** A status that is an object with a [toString] of its own cannot be
    printed: [updateTask] stores the merged record and throws; so does
    [createTask] for such a URL.  On an id that is not held nothing is
    printed but the id: the call returns [false]. *)
Example log_line_throws :
  let odd : field := Json (JObject [("toString", JString "x")]) in
  (updateTask 2 "t1" {["status" := odd]} (finished "completed")).1 = TypeError_thrown
  /\ status_of "t1" (updateTask 2 "t1" {["status" := odd]} (finished "completed")).2
     = Some odd
  /\ (updateTask 2 "t1" {["status" := Str "processing"]} (finished "completed")).1
     = returned true
  /\ updateTask 2 "zz" {["status" := odd]} (finished "completed")
     = (returned false, finished "completed")
  /\ (createTask "t2" 3 {["url" := odd]} constructor).1 = TypeError_thrown
  /\ property "url" "t2" (createTask "t2" 3 {["url" := odd]} constructor).2 = Some odd
  /\ (createTask "t2" 3 (download_task "https://youtu.be/v" "720p") constructor).1
     = returned "t2".
Proof. by_computation. Qed.

(** C4 at the run [started], whose task the registry holds. *)
Lemma C4_progress_applied_unconditionally_witness :
  (forall progress,
      let tm' := progressCallback 2000 (taskId started) progress (taskManager started) in
      property "progress" (taskId started) tm'
      = Some (Json (JNumber (Math_round progress)))
      /\ status_of (taskId started) tm' = Some (Str "processing")
      /\ poll "progress" (taskId started) tm'
         = Some (Json match Math_round progress with
                      | Finite x => JNumber (Finite x)
                      | _ => JNull
                      end)
      /\ poll "status" (taskId started) tm' = Some (Str "processing"))
  /\ (forall data s' l p,
        step JSON_decode 2000 (stdout_data data) started = Some s' ->
        emitted JSON_decode data (progressData started) = (l ++ [p])%list ->
        property "progress" (taskId s') (taskManager s')
        = Some (Json (JNumber (Math_round p)))
        /\ status_of (taskId s') (taskManager s') = Some (Str "processing")
        /\ poll "progress" (taskId s') (taskManager s')
           = Some (Json match Math_round p with
                        | Finite x => JNumber (Finite x)
                        | _ => JNull
                        end)
        /\ poll "status" (taskId s') (taskManager s') = Some (Str "processing"))
  /\ (forall data s',
        step JSON_decode 2000 (stdout_data data) started = Some s' ->
        emitted JSON_decode data (progressData started) = [] ->
        taskManager s' = taskManager started).
Proof.
  eapply (C4_progress_applied_unconditionally JSON_decode 2000 started).
  vm_compute. reflexivity.
Defined.

(** C7 at a run with one chunk of output that closes with code 0 and an
    empty file, and the registry's other users after that. *)
Lemma C7_exit_zero_needs_artifact_witness :
  let pre := [(2000, stdout_data (progress_line "50" +:+ LF))] in
  let rest := [(6000, other_download "task-2" "https://youtu.be/w" "1080p");
               (7000, cleanup_timer)] in
  let init := processVideoAsync 1000 "task-1" "0a1b2c3d"
                (createTask "task-1" 1000 (download_task "https://youtu.be/v" "720p")
                   constructor).2 in
  exists s1 cause,
    run JSON_decode (pre ++ [(5000, close (Some 0) (stats 0))]) init = Some s1
    /\ promise s1 = Some (Rejected (not_found_or_empty cause))
    /\ (is_Some (getTask "task-1" (taskManager s1)) ->
        status_of "task-1" (taskManager s1) = Some (Str "failed")
        /\ property "error" "task-1" (taskManager s1)
           = Some (Str (not_found_or_empty cause)))
    /\ forall s', run JSON_decode rest s1 = Some s' ->
         status_of "task-1" (taskManager s') <> Some (Str "completed").
Proof.
  intros pre rest init.
  apply (proj1 (C7_exit_zero_needs_artifact JSON_decode) 1000 "task-1" "0a1b2c3d"
           (createTask "task-1" 1000 (download_task "https://youtu.be/v" "720p")
              constructor).2 pre 5000 (stats 0) rest).
  - reflexivity.
  - simpl. lia.
Defined.

(** C8 at a run with one chunk of output before the timer or the close,
    and more events after. *)
Lemma C8_timeout_signal_once_witness :
  let pre := [(2000, stdout_data (progress_line "50" +:+ LF))] in
  let rest := [(1900000, stdout_data (progress_line "60" +:+ LF));
               (1900001, close None (stat_throws "ENOENT"))] in
  let init := processVideoAsync 1000 "task-1" "0a1b2c3d"
                (createTask "task-1" 1000 (download_task "https://youtu.be/v" "720p")
                   constructor).2 in
  (exists s1,
     run JSON_decode (pre ++ [(1801000, timeout_fired)]) init = Some s1
     /\ signals s1 = ["SIGTERM"]
     /\ promise s1 = Some (Rejected timeout_message)
     /\ (is_Some (getTask "task-1" (taskManager s1)) ->
         status_of "task-1" (taskManager s1) = Some (Str "failed")
         /\ property "error" "task-1" (taskManager s1) = Some (Str timeout_message))
     /\ forall s', run JSON_decode rest s1 = Some s' ->
          signals s' = ["SIGTERM"] /\ promise s' = Some (Rejected timeout_message))
  /\ run JSON_decode (pre ++ [(1800999, timeout_fired)]) init = None
  /\ (forall code st,
        exists s1,
          run JSON_decode (pre ++ [(1801000, close code st)]) init = Some s1
          /\ timeout s1 = None
          /\ forall s', run JSON_decode rest s1 = Some s' -> signals s' = []).
Proof.
  intros pre rest init.
  pose proof (C8_timeout_signal_once JSON_decode 1000 "task-1" "0a1b2c3d"
                (createTask "task-1" 1000 (download_task "https://youtu.be/v" "720p")
                   constructor).2 pre rest) as H.
  split; [|split].
  - apply (H 1801000 eq_refl). lia.
  - apply (H 1800999 eq_refl). lia.
  - apply (H 1801000 eq_refl).
Defined.


(** ** Eviction *)

Lemma sort_in_order (l : list task) :
  StronglySorted in_order l -> sort by_createdAt l = l.
Proof.
  induction l as [|x l IH]; [done|].
  rewrite StronglySorted_cons. intros [Hx Hl]. simpl. rewrite IH by done.
  destruct l as [|y l]; [done|]. simpl.
  apply Forall_cons in Hx as [Hxy _]. unfold in_order in Hxy. by rewrite Hxy.
Qed.

Lemma Map_delete_absent k m : k ∉ map fst m -> Map_delete k m = m.
Proof.
  induction m as [|[k' v'] m IH]; simpl; [done|].
  rewrite not_elem_of_cons. intros [Hne Hnin].
  destruct (String.eqb_spec k k'); [done|]. by rewrite IH.
Qed.

(** Deleting the keys named by the first [k] records removes the first [k]
    entries. *)
Lemma delete_first (m : list (string * task)) (k : nat) :
  NoDup (map fst m) -> Forall names_itself m ->
  foldl (fun m t => Map_delete_value (t !! "taskId") m) m (take k (map snd m))
  = drop k m.
Proof.
  revert k. induction m as [|[k1 v1] m IH]; intros k Hnd Hn.
  - by destruct k.
  - destruct k as [|k]; [done|].
    apply NoDup_cons in Hnd as [Hnin Hnd]. apply Forall_cons in Hn as [Hn1 Hn].
    simpl. unfold names_itself in Hn1. simpl in Hn1. rewrite Hn1. simpl.
    rewrite String.eqb_refl, Map_delete_absent by done. by apply IH.
Qed.

Lemma cleanupOldTasks_drop (tm : TaskManager) :
  NoDup (map fst (tasks tm)) -> Forall names_itself (tasks tm) ->
  StronglySorted in_order (map snd (tasks tm)) ->
  cleanupOldTasks tm
  = with_tasks (drop (length (tasks tm) - maxTasks tm) (tasks tm)) tm.
Proof.
  intros Hnd Hn Hs. unfold cleanupOldTasks.
  destruct (Nat.leb_spec (length (tasks tm)) (maxTasks tm)) as [Hle|Hlt].
  - replace (length (tasks tm) - maxTasks tm)%nat with 0%nat by lia.
    by destruct tm.
  - by rewrite sort_in_order, delete_first.
Qed.

Lemma by_createdAt_same (a a' b b' : task) :
  a' !! "createdAt" = a !! "createdAt" -> b' !! "createdAt" = b !! "createdAt" ->
  by_createdAt a' b' = by_createdAt a b.
Proof. intros Ha Hb. unfold by_createdAt. by rewrite Ha, Hb. Qed.

(** Replacing the record of a key that is present by one that satisfies
    what the old one satisfied. *)
Lemma Map_set_Forall (P : string * task -> Prop) k (t' : task) m :
  is_Some (Map_get k m) ->
  (forall t, Map_get k m = Some t -> P (k, t) -> P (k, t')) ->
  Forall P m -> Forall P (Map_set k t' m).
Proof.
  induction m as [|[k0 v0] m IH]; simpl; [by intros [? ?]|].
  destruct (String.eqb_spec k k0) as [->|Hne]; intros Hsome Hrep HP;
    apply Forall_cons in HP as [HP0 HP]; apply Forall_cons; split.
  - by apply (Hrep v0).
  - done.
  - done.
  - by apply IH.
Qed.

Lemma Map_set_sorted k (t' : task) m :
  is_Some (Map_get k m) ->
  (forall t, Map_get k m = Some t -> t' !! "createdAt" = t !! "createdAt") ->
  StronglySorted in_order (map snd m) ->
  StronglySorted in_order (map snd (Map_set k t' m)).
Proof.
  induction m as [|[k0 v0] m IH]; simpl; [by intros [? ?]|].
  intros Hsome Hrep. rewrite StronglySorted_cons. intros [H0 Hs].
  destruct (String.eqb_spec k k0) as [->|Hne]; simpl;
    apply StronglySorted_cons; split.
  - eapply Forall_impl; [exact H0|]. intros b Hb. unfold in_order in *.
    by rewrite (by_createdAt_same b b v0 t' eq_refl (Hrep v0 eq_refl)).
  - done.
  - apply Forall_map. apply (proj1 (Forall_map snd (in_order v0) m)) in H0.
    apply (Map_set_Forall (fun kv => in_order v0 kv.2)); [done| |done].
    intros t Ht. simpl. unfold in_order.
    by rewrite (by_createdAt_same t t' v0 v0 (Hrep t Ht) eq_refl).
  - by apply IH.
Qed.

Lemma created_by_mono T T' (t : task) : T <= T' -> created_by T t -> created_by T' t.
Proof. unfold created_by. destruct (Date_of _); [lia | done]. Qed.

Lemma holds_last_keys m ids T tm :
  NoDup ids -> holds_last m ids T tm ->
  NoDup (map fst (tasks tm)) /\ forall k, k ∈ map fst (tasks tm) -> k ∈ ids.
Proof.
  intros Hnd (_ & -> & _). split.
  - eapply sublist_NoDup; [done | apply sublist_drop].
  - intros k Hk. eapply elem_of_sublist; [exact Hk | apply sublist_drop].
Qed.

Lemma holds_last_update m ids T tm id now (updates : task) :
  holds_last m ids T tm -> T <= now ->
  updates !! "taskId" = None -> updates !! "createdAt" = None ->
  holds_last m ids now (updateTask now id updates tm).2.
Proof.
  intros (Hm & Hk & Hn & Hs & Hc) HT Hu1 Hu2. unfold updateTask.
  assert (Forall (created_by now) (map snd (tasks tm))) as Hc'.
  { eapply Forall_impl; [exact Hc|]. intros t. by apply created_by_mono. }
  destruct (Map_get id (tasks tm)) as [t|] eqn:Hget; simpl; [|done].
  assert (forall k, k <> "updatedAt" -> updates !! k = None ->
          (<["updatedAt" := Iso now]> (updates ∪ t) : task) !! k = t !! k) as Hsame.
  { intros k Hk1 Hk2. rewrite lookup_insert_ne by done.
    by rewrite lookup_union_r. }
  assert (is_Some (Map_get id (tasks tm))) as Hsome by (by rewrite Hget).
  repeat split; simpl.
  - done.
  - rewrite Map_set_keys_present; [done|]. by apply Map_get_Some.
  - apply Map_set_Forall; [done| |done].
    intros t0 Ht0. unfold names_itself. simpl.
    rewrite Hget in Ht0. injection Ht0 as <-. by rewrite Hsame.
  - apply Map_set_sorted; [done| |done].
    intros t0 Ht0. rewrite Hget in Ht0. injection Ht0 as <-. by apply Hsame.
  - apply Forall_map. apply (proj1 (Forall_map snd (created_by now) (tasks tm))) in Hc'.
    apply (Map_set_Forall (fun kv => created_by now kv.2)); [done| |done].
    intros t0 Ht0. rewrite Hget in Ht0. injection Ht0 as <-.
    simpl. unfold created_by. by rewrite Hsame.
Qed.

Lemma StronglySorted_drop {A : Type} (R : relation A) (n : nat) (l : list A) :
  StronglySorted R l -> StronglySorted R (drop n l).
Proof.
  intros H. rewrite <- (take_drop n l) in H. by apply StronglySorted_app_1_r in H.
Qed.

Lemma holds_last_create m ids T tm uuid now (taskData : task) :
  NoDup (ids ++ [uuid]) -> holds_last m ids T tm -> T <= now ->
  taskData !! "taskId" = None ->
  holds_last m (ids ++ [uuid]) now (createTask uuid now taskData tm).2.
Proof.
  intros Hnd Hinv HT Hdata.
  pose proof Hnd as Hnd'. apply NoDup_app in Hnd' as (Hids & Hfresh & _).
  destruct (holds_last_keys m ids T tm Hids Hinv) as [Hndk Hsub].
  destruct Hinv as (Hm & Hk & Hn & Hs & Hc).
  assert (uuid ∉ map fst (tasks tm)) as Hnew.
  { intros Hin. apply (Hfresh uuid); [by apply Hsub | apply list_elem_of_here]. }
  unfold createTask. cbn [snd]. rewrite Map_set_absent by done.
  set (t := (<["updatedAt" := Iso now]>
               (<["createdAt" := Iso now]> (taskData ∪ {["taskId" := Str uuid]}))) : task).
  assert (t !! "taskId" = Some (Str uuid)) as Ht1.
  { unfold t. rewrite !lookup_insert_ne by done.
    rewrite lookup_union_r by done. apply lookup_singleton_eq. }
  assert (t !! "createdAt" = Some (Iso now)) as Ht2.
  { unfold t. rewrite lookup_insert_ne by done. apply lookup_insert_eq. }
  set (tm1 := with_tasks (tasks tm ++ [(uuid, t)]) tm).
  assert (map fst (tasks tm1) = drop (length ids - m) (ids ++ [uuid])) as Hk1.
  { simpl. rewrite map_app, Hk. simpl. rewrite drop_app_le by lia. done. }
  assert (Forall names_itself (tasks tm1)) as Hn1.
  { simpl. apply Forall_app. split; [done|]. by apply Forall_singleton. }
  assert (Forall (created_by now) (map snd (tasks tm1))) as Hc1.
  { simpl. rewrite map_app. apply Forall_app. split.
    - eapply Forall_impl; [exact Hc|]. intros x. by apply created_by_mono.
    - apply Forall_singleton. unfold created_by. simpl. rewrite Ht2. simpl. lia. }
  assert (StronglySorted in_order (map snd (tasks tm1))) as Hs1.
  { simpl. rewrite map_app. apply StronglySorted_app. split; [|split].
    - intros x1 x2 Hx1 Hx2. simpl in Hx2. apply list_elem_of_singleton in Hx2 as ->.
      rewrite Forall_forall in Hc. specialize (Hc x1 Hx1).
      unfold in_order, by_createdAt, created_by in *. rewrite Ht2. simpl.
      destruct (Date_of (x1 !! "createdAt")) as [x|]; [|done]. simpl.
      apply Z.ltb_ge. lia.
    - done.
    - simpl. repeat constructor. }
  rewrite cleanupOldTasks_drop; [|by rewrite Hk1; eapply sublist_NoDup;
                                     [exact Hnd | apply sublist_drop]|done|done].
  repeat split; cbn [tasks maxTasks with_tasks].
  - done.
  - rewrite <- skipn_map. rewrite Hk1, drop_drop. f_equal.
    rewrite <- (length_map fst), Hk1, length_drop, !length_app. simpl.
    fold tm1. cbn [maxTasks tm1 with_tasks]. lia.
  - by apply Forall_drop.
  - rewrite <- skipn_map. by apply StronglySorted_drop.
  - rewrite <- skipn_map. by apply Forall_drop.
Qed.

Lemma created_snoc cs now c :
  created (cs ++ [(now, c)])
  = (created cs ++ match c with call_createTask uuid _ => [uuid] | _ => [] end)%list.
Proof.
  induction cs as [|[t0 c0] cs IH]; simpl.
  - destruct c; done.
  - rewrite IH. by destruct c0.
Qed.

Lemma holds_last_mono m ids T T' tm :
  T <= T' -> holds_last m ids T tm -> holds_last m ids T' tm.
Proof.
  intros HT (Hm & Hk & Hn & Hs & Hc). repeat split; try done.
  eapply Forall_impl; [exact Hc|]. intros t. by apply created_by_mono.
Qed.

(** The registry after any sequence of calls on an empty one, made at
    times that do not decrease and are at most [T]. *)
Lemma holds_last_calls (cs : list (Z * registry_call)) (tm0 : TaskManager) :
  tasks tm0 = [] ->
  Forall plain (map snd cs) ->
  StronglySorted Z.le (map fst cs) ->
  NoDup (created cs) ->
  forall T, Forall (fun t => t <= T) (map fst cs) ->
            holds_last (maxTasks tm0) (created cs) T (calls cs tm0).
Proof.
  intros Hempty.
  induction cs as [|[now c] cs IH] using rev_ind; intros Hplain Hsorted Hnd T HT.
  - unfold holds_last, calls. simpl. rewrite Hempty. simpl. repeat split; constructor.
  - rewrite map_app in Hplain, Hsorted, HT. simpl in Hplain, Hsorted, HT.
    apply Forall_app in Hplain as [Hplain Hc]. apply Forall_inv in Hc.
    apply Forall_app in HT as [_ HT]. apply Forall_inv in HT.
    apply StronglySorted_app in Hsorted as (Hle & Hsorted & _).
    rewrite created_snoc in Hnd |- *.
    assert (NoDup (created cs)) as Hnd0 by (by apply NoDup_app in Hnd as [? _]).
    assert (Forall (fun t => t <= now) (map fst cs)) as Hnow.
    { apply Forall_forall. intros x Hx. apply Hle; [done | apply list_elem_of_here]. }
    specialize (IH Hplain Hsorted Hnd0 now Hnow).
    apply (holds_last_mono _ _ now); [done|].
    unfold calls. rewrite foldl_app. simpl. fold (calls cs tm0).
    destruct c as [uuid taskData|id updates]; simpl.
    + by apply (holds_last_create _ _ now).
    + rewrite app_nil_r. destruct Hc. by apply (holds_last_update _ _ now).
Qed.

(** C5: after calls made at times that do not decrease, which create
    [maxTasks + k] tasks under distinct ids and update tasks in between, the
    registry holds [maxTasks] entries: the tasks created last, in the order
    of their creation; the [k] created first are gone, whatever the updates
    had made of them. *)
Theorem C5_eviction_oldest_first (tm0 : TaskManager) (cs : list (Z * registry_call))
    (k : nat) :
  tasks tm0 = [] ->
  Forall plain (map snd cs) ->
  Sorted Z.le (map fst cs) ->
  NoDup (created cs) ->
  length (created cs) = (maxTasks tm0 + k)%nat ->
  let tm := calls cs tm0 in
  map fst (tasks tm) = drop k (created cs)
  /\ length (tasks tm) = maxTasks tm0
  /\ (forall id, id ∈ take k (created cs) -> getTask id tm = None)
  /\ (forall id, id ∈ drop k (created cs) -> is_Some (getTask id tm)).
Proof.
  intros Hempty Hplain Hsorted Hnd Hlen tm.
  apply Sorted_StronglySorted in Hsorted; [|intros x y z; lia].
  assert (exists T, Forall (fun t => t <= T) (map fst cs)) as [T HT].
  { clear. induction (map fst cs) as [|x l [T IH]]; [by exists 0|].
    exists (Z.max x T). constructor; [lia|].
    eapply Forall_impl; [exact IH|]. simpl. lia. }
  destruct (holds_last_calls cs tm0 Hempty Hplain Hsorted Hnd T HT)
    as (Hm & Hk & _).
  fold tm in Hk, Hm.
  replace (length (created cs) - maxTasks tm0)%nat with k in Hk by lia.
  split; [done|]. split; [|split].
  - rewrite <- (length_map fst), Hk, length_drop. lia.
  - intros id Hid. apply Map_get_None. rewrite Hk. intros Hin.
    rewrite <- (take_drop k (created cs)) in Hnd.
    apply NoDup_app in Hnd as (_ & Hdisj & _). by apply (Hdisj id).
  - intros id Hid. apply Map_get_Some. by rewrite Hk.
Qed.

(** C5 at [downloads101]: the task evicted is the first, while processing. *)
Lemma C5_eviction_oldest_first_witness :
  let tm := calls downloads101 constructor in
  map fst (tasks tm) = drop 1 (created downloads101)
  /\ length (tasks tm) = maxTasks constructor
  /\ (forall id, id ∈ take 1 (created downloads101) -> getTask id tm = None)
  /\ (forall id, id ∈ drop 1 (created downloads101) -> is_Some (getTask id tm)).
Proof.
  apply (C5_eviction_oldest_first constructor downloads101 1).
  - reflexivity.
  - unfold downloads101. cbn [map snd].
    constructor; [reflexivity|]. constructor; [by split|].
    rewrite map_map. apply Forall_map, Forall_forall. by intros n _.
  - apply (bool_decide_unpack _). by_computation.
  - apply (bool_decide_unpack _). by_computation.
  - by_computation.
Defined.

Example first_download_evicted_while_processing :
  status_of "t0" (calls (take 101 downloads101) constructor) = Some (Str "processing")
  /\ getTask "t0" (calls downloads101 constructor) = None
  /\ status_of "t100" (calls downloads101 constructor) = Some (Str "pending").
Proof. split; [by_computation|]. split; [by_computation|]. by_computation. Qed.

(** * Further properties of the code *)

(** ** Deleting and sweeping *)

Lemma Map_delete_filter k m :
  Map_delete k m = List.filter (fun kv => negb (String.eqb k kv.1)) m.
Proof.
  induction m as [|[k' v'] m IH]; simpl; [done|].
  destruct (String.eqb k k'); simpl; by rewrite IH.
Qed.

Lemma filter_filter {A : Type} (P Q : A -> bool) (l : list A) :
  List.filter P (List.filter Q l) = List.filter (fun x => Q x && P x) l.
Proof.
  induction l as [|x l IH]; simpl; [done|].
  destruct (Q x); simpl; [destruct (P x)|]; by rewrite IH.
Qed.

Lemma deleteTasks_filter (ks : list string) (tm : TaskManager) :
  foldl (fun tm k => deleteTask k tm) tm ks
  = with_tasks (List.filter (fun kv => negb (existsb (String.eqb kv.1) ks)) (tasks tm)) tm.
Proof.
  revert tm. induction ks as [|k ks IH]; intros tm; simpl.
  - destruct tm as [m n]. unfold with_tasks. simpl. f_equal.
    induction m as [|x m IHm]; simpl; [done | by rewrite <- IHm].
  - rewrite IH. unfold deleteTask, with_tasks. simpl. f_equal.
    rewrite Map_delete_filter, filter_filter. apply filter_ext. intros [k' v']. simpl.
    rewrite (String.eqb_sym k k'). by destruct (String.eqb k' k).
Qed.

Lemma NoDup_keys_value (m : list (string * task)) k (t t' : task) :
  NoDup (map fst m) -> (k, t) ∈ m -> (k, t') ∈ m -> t = t'.
Proof.
  induction m as [|[k0 v0] m IH]; simpl; intros Hnd H1 H2.
  - by apply elem_of_nil in H1.
  - apply NoDup_cons in Hnd as [Hnin Hnd].
    apply elem_of_cons in H1 as [H1|H1]; apply elem_of_cons in H2 as [H2|H2].
    + congruence.
    + injection H1 as -> ->. exfalso. apply Hnin.
      apply list_elem_of_In, in_map_iff. exists (k0, t'). split; [done|].
      by apply list_elem_of_In.
    + injection H2 as -> ->. exfalso. apply Hnin.
      apply list_elem_of_In, in_map_iff. exists (k0, t). split; [done|].
      by apply list_elem_of_In.
    + by apply IH.
Qed.

Lemma Map_get_elem_of k (t : task) m : Map_get k m = Some t -> (k, t) ∈ m.
Proof.
  induction m as [|[k0 v0] m IH]; simpl; [done|].
  destruct (String.eqb_spec k k0) as [->|Hne].
  - intros [= ->]. apply list_elem_of_here.
  - intros H. apply list_elem_of_further. by apply IH.
Qed.

Lemma Map_get_filter (P : string * task -> bool) k (t : task) m :
  Map_get k m = Some t ->
  NoDup (map fst m) ->
  Map_get k (List.filter P m) = if P (k, t) then Some t else None.
Proof.
  induction m as [|[k0 v0] m IH]; simpl; [done|].
  intros Hget Hnd. apply NoDup_cons in Hnd as [Hnin Hnd].
  destruct (String.eqb_spec k k0) as [->|Hne].
  - injection Hget as ->. destruct (P (k0, t)) eqn:HP; simpl.
    + by rewrite String.eqb_refl.
    + apply Map_get_None. intros Hin. apply Hnin.
      apply list_elem_of_In, in_map_iff in Hin as ([k1 v1] & Hk & Hin).
      apply filter_In in Hin as [Hin _]. simpl in Hk. subst k1.
      apply list_elem_of_In, in_map_iff. by exists (k0, v1).
  - destruct (P (k0, v0)); simpl.
    + destruct (String.eqb_spec k k0); [done|]. by apply IH.
    + by apply IH.
Qed.

Lemma sweep_tasks now tm :
  NoDup (map fst (tasks tm)) ->
  cleanup_tick now tm
  = with_tasks (List.filter (fun kv => negb (expired now kv.2)) (tasks tm)) tm.
Proof.
  intros Hnd. unfold cleanup_tick. rewrite deleteTasks_filter. f_equal.
  apply filter_ext_in. intros [k t] Hin. simpl. f_equal.
  fold (expired now t).
  destruct (expired now t) eqn:He.
  - apply existsb_exists. exists k. split; [|apply String.eqb_refl].
    apply in_map_iff. exists (k, t). split; [done|]. apply filter_In. split; [done|].
    simpl. exact He.
  - apply not_true_is_false. intros Hex.
    apply existsb_exists in Hex as (k' & Hin' & Heq).
    apply String.eqb_eq in Heq. subst k'.
    apply in_map_iff in Hin' as ([k1 t1] & Hk & Hin1). simpl in Hk. subst k1.
    apply filter_In in Hin1 as [Hin1 Hold]. simpl in Hold.
    assert (t = t1) as <-.
    { eapply (NoDup_keys_value (tasks tm) k); [done| |]; by apply list_elem_of_In. }
    fold (expired now t) in Hold. congruence.
Qed.

(** X1: on a registry whose tasks carry their update time, as written by
    [createTask] and [updateTask], the sweep removes the tasks that are
    completed or failed and were last updated more than 24 hours before, and
    only those: a task of any other status stays whatever its age, as does a
    terminal task updated exactly 24 hours before; what stays keeps its
    record and its place. *)
Theorem sweep_removes_expired_only (now : Z) (tm : TaskManager) :
  NoDup (map fst (tasks tm)) ->
  Forall timestamped (getAllTasks tm) ->
  tasks (cleanup_tick now tm)
  = List.filter (fun kv => negb (expired now kv.2)) (tasks tm)
  /\ maxTasks (cleanup_tick now tm) = maxTasks tm
  /\ (forall id t, getTask id tm = Some t ->
        getTask id (cleanup_tick now tm) = if expired now t then None else Some t)
  /\ (forall id, getTask id tm = None -> getTask id (cleanup_tick now tm) = None)
  /\ (forall t : task,
        timestamped t ->
        expired now t = true
        <-> (t !! "status" = Some (Str "completed") \/ t !! "status" = Some (Str "failed"))
            /\ exists ms, t !! "updatedAt" = Some (Iso ms) /\ 24 * 60 * 60 * 1000 < now - ms).
Proof.
  intros Hnd _. rewrite sweep_tasks by done. simpl.
  split; [done|]. split; [done|]. split; [|split].
  - intros id t Hget. unfold getTask in *. simpl.
    rewrite (Map_get_filter _ id t) by done. simpl. by destruct (expired now t).
  - intros id Hget. unfold getTask in *. simpl.
    apply Map_get_None. apply Map_get_None in Hget. intros Hin. apply Hget.
    apply list_elem_of_In, in_map_iff in Hin as (kv & Hk & Hin).
    apply filter_In in Hin as [Hin _].
    apply list_elem_of_In, in_map_iff. by exists kv.
  - intros t _. unfold expired, has_status, Date_of. split.
    + intros H. apply andb_prop in H as [Hs Ha]. split.
      * destruct (t !! "status") as [[[]|]|]; try done. simpl in Hs.
        apply orb_prop in Hs as [Hs|Hs]; apply String.eqb_eq in Hs; subst; auto.
      * destruct (t !! "updatedAt") as [[|ms]|]; try done.
        exists ms. split; [done|]. apply Z.ltb_lt in Ha. unfold maxAge in Ha. lia.
    + intros [Hs (ms & -> & Hage)]. apply andb_true_intro. split.
      * destruct Hs as [-> | ->]; reflexivity.
      * apply Z.ltb_lt. unfold maxAge. lia.
Qed.

(** ** The bound on the size of the registry *)

Lemma sort_insert_Permutation cmp (x : task) l : sort_insert cmp x l ≡ₚ x :: l.
Proof.
  induction l as [|y l IH]; simpl; [done|].
  destruct (negative (cmp y x)); [|done].
  rewrite IH. apply Permutation_swap.
Qed.

(** The sort rearranges, whatever the comparator. *)
Lemma sort_Permutation cmp (l : list task) : sort cmp l ≡ₚ l.
Proof.
  induction l as [|x l IH]; simpl; [done|].
  by rewrite sort_insert_Permutation, IH.
Qed.

Lemma well_kept_filter (P : string * task -> bool) tm :
  well_kept tm -> well_kept (with_tasks (List.filter P (tasks tm)) tm).
Proof.
  intros [Hnd Hn]. unfold well_kept. simpl. split.
  - induction (tasks tm) as [|[k t] m IH]; simpl; [constructor|].
    apply NoDup_cons in Hnd as [Hnin Hnd]. apply Forall_cons in Hn as [_ Hn].
    destruct (P (k, t)); simpl; [|by apply IH].
    apply NoDup_cons. split; [|by apply IH].
    intros Hin. apply Hnin.
    apply list_elem_of_In, in_map_iff in Hin as (kv & Hk & Hin).
    apply filter_In in Hin as [Hin _].
    apply list_elem_of_In, in_map_iff. by exists kv.
  - apply Forall_forall. intros kv Hin. rewrite Forall_forall in Hn. apply Hn.
    apply list_elem_of_In. apply list_elem_of_In, filter_In in Hin. tauto.
Qed.

Lemma filter_length_le {A : Type} (P : A -> bool) (l : list A) :
  (length (List.filter P l) <= length l)%nat.
Proof. induction l as [|x l IH]; simpl; [lia|]. destruct (P x); simpl; lia. Qed.

Lemma Map_delete_length k m :
  k ∈ map fst m -> (S (length (Map_delete k m)) <= length m)%nat.
Proof.
  induction m as [|[k0 v0] m IH]; simpl.
  - intros H. by apply elem_of_nil in H.
  - intros H. destruct (String.eqb_spec k k0) as [->|Hne].
    + rewrite Map_delete_filter. pose proof (filter_length_le
        (fun kv : string * task => negb (String.eqb k0 kv.1)) m). lia.
    + apply elem_of_cons in H as [?|H]; [done|]. simpl. apply IH in H. lia.
Qed.

Lemma cleanupOldTasks_bound tm :
  well_kept tm -> (length (tasks tm) <= S (maxTasks tm))%nat ->
  well_kept (cleanupOldTasks tm)
  /\ (length (tasks (cleanupOldTasks tm)) <= maxTasks tm)%nat
  /\ maxTasks (cleanupOldTasks tm) = maxTasks tm.
Proof.
  intros Hwk Hlen. unfold cleanupOldTasks.
  destruct (Nat.leb_spec (length (tasks tm)) (maxTasks tm)) as [Hle|Hgt]; [done|].
  replace (length (tasks tm) - maxTasks tm)%nat with 1%nat by lia.
  pose proof (sort_Permutation by_createdAt (map snd (tasks tm))) as Hperm.
  destruct (sort by_createdAt (map snd (tasks tm))) as [|t0 rest] eqn:Hsort.
  { apply Permutation_length in Hperm. rewrite length_map in Hperm. simpl in Hperm. lia. }
  assert (t0 ∈ map snd (tasks tm)) as Hin.
  { rewrite <- Hperm. apply list_elem_of_here. }
  apply list_elem_of_In, in_map_iff in Hin as ([k0 t0'] & Ht0 & Hin). simpl in Ht0. subst t0'.
  destruct Hwk as [Hnd Hn]. pose proof Hn as Hn'. rewrite Forall_forall in Hn'.
  assert (names_itself (k0, t0)) as Hname by (by apply Hn', list_elem_of_In).
  unfold names_itself in Hname. simpl in Hname.
  simpl. rewrite Hname. simpl. rewrite Map_delete_filter.
  split; [|split; [|done]].
  - by apply (well_kept_filter _ tm).
  - rewrite <- Map_delete_filter.
    assert (k0 ∈ map fst (tasks tm)) as Hk0.
    { apply list_elem_of_In, in_map_iff. by exists (k0, t0). }
    apply Map_delete_length in Hk0. lia.
Qed.

Lemma Map_set_length_le k (v : task) m : (length (Map_set k v m) <= S (length m))%nat.
Proof.
  induction m as [|[k0 v0] m IH]; simpl; [lia|].
  destruct (String.eqb k k0); simpl; lia.
Qed.

Lemma Map_set_NoDup k (v : task) m : NoDup (map fst m) -> NoDup (map fst (Map_set k v m)).
Proof.
  intros Hnd. destruct (decide (k ∈ map fst m)) as [Hin|Hnin].
  - by rewrite Map_set_keys_present.
  - rewrite Map_set_absent, map_app by done. simpl.
    apply NoDup_app. split; [done|]. split; [|apply NoDup_singleton].
    intros x Hx Hx'. apply list_elem_of_singleton in Hx'. by subst.
Qed.

Lemma Map_set_names_itself k (v : task) m :
  v !! "taskId" = Some (Str k) ->
  Forall names_itself m -> Forall names_itself (Map_set k v m).
Proof.
  intros Hv Hn. destruct (decide (k ∈ map fst m)) as [Hin|Hnin].
  - apply Map_set_Forall; [by apply Map_get_Some| |done]. by intros.
  - rewrite Map_set_absent by done. apply Forall_app. split; [done|].
    by apply Forall_singleton.
Qed.

Lemma apply_op_bound now op tm :
  keeps_taskId op -> well_kept tm -> (length (tasks tm) <= maxTasks tm)%nat ->
  well_kept (apply_op now op tm)
  /\ (length (tasks (apply_op now op tm)) <= maxTasks tm)%nat
  /\ maxTasks (apply_op now op tm) = maxTasks tm.
Proof.
  intros Hop Hwk Hlen. destruct op as [[uuid taskData|id updates]|id| |]; simpl in *.
  - unfold createTask. cbn [snd].
    set (t := (<["updatedAt" := Iso now]>
                 (<["createdAt" := Iso now]> (taskData ∪ {["taskId" := Str uuid]}))) : task).
    assert (t !! "taskId" = Some (Str uuid)) as Ht.
    { unfold t. rewrite !lookup_insert_ne by done.
      rewrite lookup_union_r by done. apply lookup_singleton_eq. }
    destruct Hwk as [Hnd Hn].
    apply (cleanupOldTasks_bound (with_tasks (Map_set uuid t (tasks tm)) tm)).
    + split; simpl; [by apply Map_set_NoDup | by apply Map_set_names_itself].
    + simpl. pose proof (Map_set_length_le uuid t (tasks tm)). lia.
  - unfold updateTask. destruct (Map_get id (tasks tm)) as [t|] eqn:Hget; simpl; [|done].
    assert (id ∈ map fst (tasks tm)) as Hin by (apply Map_get_Some; by rewrite Hget).
    destruct Hwk as [Hnd Hn]. split; [split|]; simpl.
    + by rewrite Map_set_keys_present.
    + apply Map_set_Forall; [by rewrite Hget| |done].
      intros t0 Ht0. unfold names_itself. simpl. rewrite Hget in Ht0. injection Ht0 as <-.
      rewrite lookup_insert_ne by done. by rewrite lookup_union_r.
    + split; [|done]. rewrite <- (length_map fst), Map_set_keys_present by done.
      by rewrite length_map.
  - unfold deleteTask. rewrite Map_delete_filter. split; [by apply well_kept_filter|].
    simpl. split; [|done].
    pose proof (filter_length_le (fun kv : string * task => negb (String.eqb id kv.1))
                  (tasks tm)). lia.
  - unfold cleanup_tick. rewrite deleteTasks_filter. split; [by apply well_kept_filter|].
    simpl. split; [|done].
    match goal with |- (length (List.filter ?P _) <= _)%nat =>
      pose proof (filter_length_le P (tasks tm)) end. lia.
  - unfold clearAllTasks, well_kept. simpl. repeat split; try constructor. lia.
Qed.

(** X2: whatever is done with the registry, creating, updating, deleting,
    sweeping or clearing, in any order and at any clock times, it holds at
    most [maxTasks] tasks after each operation, under distinct ids, each
    record carrying its id; all that is asked of the operations is that no
    task data and no update writes a [taskId]. *)
Theorem registry_stays_bounded (ops : list (Z * registry_op)) (tm0 : TaskManager) :
  well_kept tm0 -> (length (tasks tm0) <= maxTasks tm0)%nat ->
  Forall keeps_taskId (map snd ops) ->
  well_kept (apply_ops ops tm0)
  /\ (length (tasks (apply_ops ops tm0)) <= maxTasks tm0)%nat
  /\ maxTasks (apply_ops ops tm0) = maxTasks tm0.
Proof.
  revert tm0. induction ops as [|[now op] ops IH]; intros tm0 Hwk Hlen Hops; [done|].
  simpl in Hops. apply Forall_cons in Hops as [Hop Hops].
  destruct (apply_op_bound now op tm0 Hop Hwk Hlen) as (Hwk1 & Hlen1 & Hm1).
  unfold apply_ops. simpl. fold (apply_ops ops (apply_op now op tm0)).
  assert (length (tasks (apply_op now op tm0)) <= maxTasks (apply_op now op tm0))%nat
    as Hlen1' by (rewrite Hm1; exact Hlen1).
  destruct (IH (apply_op now op tm0) Hwk1 Hlen1' Hops) as (HA & HB & HC).
  rewrite Hm1 in HB, HC. split; [exact HA|]. split; [exact HB | exact HC].
Qed.

(** ** Deleting, and reading what was created *)

(** X3: [deleteTask] on an id that the registry holds returns [true] and
    removes that entry alone; on an id that it does not hold it returns
    [false] and leaves the registry as it was.  Either way the id reads as
    absent afterwards and every other id reads as before. *)
Theorem deleteTask_contract (taskId : string) (tm : TaskManager) :
  let r := deleteTask_result taskId tm in
  match getTask taskId tm with
  | Some _ => r.1 = true /\ (S (length (tasks r.2)) <= length (tasks tm))%nat
  | None => r = (false, tm)
  end
  /\ getTask taskId r.2 = None
  /\ (forall other, other <> taskId -> getTask other r.2 = getTask other tm)
  /\ hasTask taskId r.2 = false.
Proof.
  unfold deleteTask_result, hasTask, deleteTask, getTask. simpl.
  split; [|split; [|split]].
  - destruct (Map_get taskId (tasks tm)) eqn:Hget.
    + split; [done|]. apply Map_delete_length, Map_get_Some. by rewrite Hget.
    + rewrite Map_delete_absent by (by apply Map_get_None). by destruct tm.
  - apply Map_get_delete_eq.
  - intros other Hne. by apply Map_get_delete_ne.
  - by rewrite Map_get_delete_eq.
Qed.



(** ** The recent results *)

Lemma picked_lookup (t : task) (keys : list string) (k : string) :
  foldr (fun k (r : task) => match t !! k with Some v => <[k := v]> r | None => r end)
    ∅ keys !! k
  = if bool_decide (k ∈ keys) then t !! k else None.
Proof.
  induction keys as [|k0 keys IH]; simpl.
  - by rewrite lookup_empty.
  - destruct (decide (k = k0)) as [->|Hne].
    + rewrite bool_decide_eq_true_2 by apply list_elem_of_here.
      destruct (t !! k0) eqn:E; [by rewrite lookup_insert_eq|].
      rewrite IH. by destruct (bool_decide _).
    + assert (bool_decide (k ∈ k0 :: keys) = bool_decide (k ∈ keys)) as ->.
      { apply bool_decide_ext. rewrite elem_of_cons. tauto. }
      destruct (t !! k0); [rewrite lookup_insert_ne by done|]; exact IH.
Qed.

Lemma result_of_lookup (t : task) (k : string) :
  result_of t !! k = if bool_decide (k ∈ result_keys) then t !! k else None.
Proof. apply picked_lookup. Qed.

Lemma sort_insert_newer (x : task) (l : list task) :
  timestamped x -> Forall timestamped l ->
  StronglySorted newer l -> StronglySorted newer (sort_insert by_updatedAt_desc x l).
Proof.
  intros [tx Hx]. induction l as [|y l IH]; intros Hl Hs; simpl.
  - repeat constructor.
  - apply Forall_cons in Hl as [[ty Hy] Hl].
    apply StronglySorted_cons in Hs as [Hyl Hs].
    unfold by_updatedAt_desc. rewrite Hx, Hy. simpl.
    destruct (Z.ltb_spec (tx - ty) 0) as [Hlt|Hge].
    + apply StronglySorted_cons. split; [|by apply IH].
      rewrite sort_insert_Permutation. apply Forall_cons. split; [|done].
      unfold newer. rewrite Hx, Hy. lia.
    + apply StronglySorted_cons. split; [|by apply StronglySorted_cons].
      apply Forall_cons. split.
      * unfold newer. rewrite Hx, Hy. lia.
      * eapply Forall_impl; [exact Hyl|]. intros z. unfold newer. rewrite Hx, Hy.
        destruct (Date_of (z !! "updatedAt")); [lia | done].
Qed.

(** Tasks with update times are sorted newest first. *)
Lemma sort_newer (l : list task) :
  Forall timestamped l -> StronglySorted newer (sort by_updatedAt_desc l).
Proof.
  induction l as [|x l IH]; intros Hl; simpl; [constructor|].
  apply Forall_cons in Hl as [Hx Hl]. apply sort_insert_newer; [done| |by apply IH].
  by rewrite sort_Permutation.
Qed.

Lemma slice_to_take {A : Type} (limit : Z) (l : list A) :
  exists n, slice_to limit l = take n l
            /\ n = if limit <? 0 then Z.to_nat (Z.of_nat (length l) + limit)
                   else Z.to_nat limit.
Proof. unfold slice_to. destruct (limit <? 0); by eexists. Qed.

Lemma StronglySorted_take {A : Type} (R : relation A) (n : nat) (l : list A) :
  StronglySorted R l -> StronglySorted R (take n l).
Proof.
  intros H. rewrite <- (take_drop n l) in H. by apply StronglySorted_app_1_l in H.
Qed.

Lemma StronglySorted_map {A B : Type} (R : relation A) (R' : relation B) (f : A -> B)
    (l : list A) :
  (forall a b, R a b -> R' (f a) (f b)) ->
  StronglySorted R l -> StronglySorted R' (map f l).
Proof.
  intros Hf. induction 1 as [|a l Hs IH Ha]; simpl; constructor; [done|].
  apply Forall_map. eapply Forall_impl; [exact Ha|]. intros b. apply Hf.
Qed.

(** X5: [getRecentResults] lists completed and failed tasks only, each as
    the nine properties picked from its record; it lists [limit] of them (20
    when called without argument) or all if they are fewer, and for a
    negative [limit] all but that many of the oldest; when every task carries
    its update time, as every task written by [createTask] and [updateTask]
    does, the list runs from the most recently updated on. *)
Theorem recent_results_newest_first (limit : option Z) (tm : TaskManager) :
  Forall timestamped (getAllTasks tm) ->
  let rs := getRecentResults limit tm in
  let n := length (List.filter terminal (getAllTasks tm)) in
  length rs = (if default 20 limit <? 0 then Z.to_nat (Z.of_nat n + default 20 limit)
               else Nat.min (Z.to_nat (default 20 limit)) n)
  /\ Forall (fun r : task => r !! "status" = Some (Str "completed")
                             \/ r !! "status" = Some (Str "failed")) rs
  /\ Forall (fun r : task =>
               exists id t, (id, t) ∈ tasks tm /\ terminal t = true
                            /\ forall k, r !! k = if bool_decide (k ∈ result_keys)
                                                  then t !! k else None) rs
  /\ StronglySorted newer rs.
Proof.
  intros Hts rs n. unfold rs, n, getRecentResults.
  fold terminal. change (fun t : task => has_status "completed" t || has_status "failed" t)
    with terminal.
  set (done := List.filter terminal (getAllTasks tm)).
  set (sorted := sort by_updatedAt_desc done).
  assert (sorted ≡ₚ done) as Hperm by apply sort_Permutation.
  assert (Forall timestamped done) as Hdone.
  { apply Forall_forall. intros t Ht. rewrite Forall_forall in Hts. apply Hts.
    apply list_elem_of_In. apply list_elem_of_In, filter_In in Ht. tauto. }
  destruct (slice_to_take (default 20 limit) sorted) as (m & -> & Hm).
  assert (forall t, t ∈ take m sorted -> t ∈ getAllTasks tm /\ terminal t = true) as Hin.
  { intros t Ht. assert (t ∈ done) as Ht'.
    { rewrite <- Hperm. eapply elem_of_sublist; [exact Ht | apply sublist_take]. }
    apply list_elem_of_In, filter_In in Ht' as [? ?]. split; [by apply list_elem_of_In | done]. }
  split; [|split; [|split]].
  - rewrite length_map, length_take, Hm.
    assert (length sorted = length done) as -> by (by apply Permutation_length).
    destruct (Z.ltb_spec (default 20 limit) 0); lia.
  - apply Forall_map, Forall_forall. intros t Ht. destruct (Hin t Ht) as [_ Hterm].
    simpl. rewrite result_of_lookup. simpl.
    unfold terminal, has_status in Hterm.
    destruct (t !! "status") as [[[]|]|]; try done. simpl in Hterm.
    apply orb_prop in Hterm as [H|H]; apply String.eqb_eq in H; subst; auto.
  - apply Forall_map, Forall_forall. intros t Ht. destruct (Hin t Ht) as [Hall Hterm].
    apply list_elem_of_In, in_map_iff in Hall as ([id t'] & Heq & Hall). simpl in Heq. subst t'.
    exists id, t. split; [by apply list_elem_of_In|]. split; [done|].
    intros k. apply result_of_lookup.
  - apply (StronglySorted_map newer newer result_of).
    + intros a b. unfold newer. by rewrite !result_of_lookup.
    + apply StronglySorted_take. apply sort_newer. done.
Qed.

(** ** The statistics *)

Lemma count_plain (st : statistics) (t : task) :
  plain_status t ->
  exists st',
    count_step (Some st) t = Some st'
    /\ total st' = total st
    /\ pending st' = (pending st + tally "pending" [t])%nat
    /\ processing st' = (processing st + tally "processing" [t])%nat
    /\ completed st' = (completed st + tally "completed" [t])%nat
    /\ failed st' = (failed st + tally "failed" [t])%nat.
Proof.
  unfold plain_status, count_step, status_key, tally, has_status. simpl.
  destruct (t !! "status") as [[[| | |s| |]|]|]; try done.
  - intros Hs. simpl. unfold count_in.
    destruct (String.eqb_spec s "total") as [|_]; [done|].
    destruct (String.eqb_spec s "pending") as [->|_];
      [eexists; split; [done|]; simpl; repeat split; lia|].
    destruct (String.eqb_spec s "processing") as [->|_];
      [eexists; split; [done|]; simpl; repeat split; lia|].
    destruct (String.eqb_spec s "completed") as [->|_];
      [eexists; split; [done|]; simpl; repeat split; lia|].
    destruct (String.eqb_spec s "failed") as [->|_];
      [eexists; split; [done|]; simpl; repeat split; lia|].
    eexists; split; [done|]; simpl; repeat split; lia.
  - intros _. unfold count_in. simpl. eexists. split; [done|]. repeat split; lia.
Qed.

Lemma tally_cons status (t : task) l :
  tally status (t :: l) = (tally status [t] + tally status l)%nat.
Proof. unfold tally. simpl. by destruct (has_status status t). Qed.

Lemma count_all_plain (l : list task) (st : statistics) :
  Forall plain_status l ->
  exists st',
    foldl count_step (Some st) l = Some st'
    /\ total st' = total st
    /\ pending st' = (pending st + tally "pending" l)%nat
    /\ processing st' = (processing st + tally "processing" l)%nat
    /\ completed st' = (completed st + tally "completed" l)%nat
    /\ failed st' = (failed st + tally "failed" l)%nat.
Proof.
  revert st. induction l as [|t l IH]; intros st Hl.
  - exists st. unfold tally. simpl. repeat split; lia.
  - apply Forall_cons in Hl as [Ht Hl].
    destruct (count_plain st t Ht) as (st1 & Hstep & H0 & H1 & H2 & H3 & H4).
    destruct (IH st1 Hl) as (st' & Hfold & G0 & G1 & G2 & G3 & G4).
    exists st'. cbn [foldl]. rewrite Hstep. split; [done|].
    rewrite !(tally_cons _ t l). repeat split; lia.
Qed.

Lemma has_status_exclusive (s1 s2 : string) (t : task) :
  s1 <> s2 -> has_status s1 t = true -> has_status s2 t = false.
Proof.
  unfold has_status. intros Hne.
  destruct (t !! "status") as [[[| | |s| |]|]|]; try done.
  intros H1. apply String.eqb_eq in H1. subst s.
  by apply String.eqb_neq.
Qed.

Lemma active_split (l : list task) :
  length (List.filter (fun t => has_status "pending" t || has_status "processing" t) l)
  = (tally "pending" l + tally "processing" l)%nat.
Proof.
  unfold tally. induction l as [|t l IH]; simpl; [done|].
  destruct (has_status "pending" t) eqn:E1.
  - rewrite (has_status_exclusive "pending" "processing" t) by done. simpl. lia.
  - destruct (has_status "processing" t); simpl; lia.
Qed.

Lemma tally_sum_le (l : list task) :
  (tally "pending" l + tally "processing" l + tally "completed" l + tally "failed" l
   <= length l)%nat.
Proof.
  unfold tally. induction l as [|t l IH]; simpl; [lia|].
  destruct (has_status "pending" t) eqn:E1.
  { rewrite (has_status_exclusive "pending" "processing" t),
      (has_status_exclusive "pending" "completed" t),
      (has_status_exclusive "pending" "failed" t) by done. simpl. lia. }
  destruct (has_status "processing" t) eqn:E2.
  { rewrite (has_status_exclusive "processing" "completed" t),
      (has_status_exclusive "processing" "failed" t) by done. simpl. lia. }
  destruct (has_status "completed" t) eqn:E3.
  { rewrite (has_status_exclusive "completed" "failed" t) by done. simpl. lia. }
  destruct (has_status "failed" t); simpl; lia.
Qed.

(** X6: on a registry whose statuses are strings, none of them [total]
    (a missing status is allowed), [getStatistics] returns counters that
    agree with the queries: [total] is the number of tasks, each status
    counter the number of tasks that [getTasksByStatus] returns for it,
    [getActiveTasksCount] the sum of pending and processing, and the four
    status counters together do not exceed [total]. *)
Theorem statistics_agree_with_queries (tm : TaskManager) :
  Forall plain_status (getAllTasks tm) ->
  exists st,
    getStatistics tm = Some st
    /\ total st = length (getAllTasks tm)
    /\ pending st = length (getTasksByStatus "pending" tm)
    /\ processing st = length (getTasksByStatus "processing" tm)
    /\ completed st = length (getTasksByStatus "completed" tm)
    /\ failed st = length (getTasksByStatus "failed" tm)
    /\ getActiveTasksCount tm = (pending st + processing st)%nat
    /\ (pending st + processing st + completed st + failed st <= total st)%nat.
Proof.
  intros Hall. unfold getStatistics. fold count_step.
  destruct (count_all_plain (getAllTasks tm)
              {| total := length (getAllTasks tm); pending := 0; processing := 0;
                 completed := 0; failed := 0 |} Hall)
    as (st & Hfold & H0 & H1 & H2 & H3 & H4).
  simpl in H0, H1, H2, H3, H4.
  exists st. split; [exact Hfold|]. unfold getTasksByStatus, getActiveTasksCount.
  fold (tally "pending" (getAllTasks tm)). fold (tally "processing" (getAllTasks tm)).
  fold (tally "completed" (getAllTasks tm)). fold (tally "failed" (getAllTasks tm)).
  rewrite active_split.
  pose proof (tally_sum_le (getAllTasks tm)).
  repeat split; lia.
Qed.

(** ** More on the runs *)

Lemma updateTask_frame now id (updates : task) tm :
  (forall other, other <> id ->
     getTask other (updateTask now id updates tm).2 = getTask other tm)
  /\ map fst (tasks (updateTask now id updates tm).2) = map fst (tasks tm).
Proof.
  pose proof (updateTask_cases now id updates tm) as H.
  destruct (getTask id tm) as [t|] eqn:Hget.
  - destruct H as (_ & _ & Ho & Hk). by split.
  - rewrite H. by split.
Qed.

Lemma progressCallbacks_frame now id (l : list number) tm :
  (forall other, other <> id ->
     getTask other (foldl (fun tm p => progressCallback now id p tm) tm l)
     = getTask other tm)
  /\ map fst (tasks (foldl (fun tm p => progressCallback now id p tm) tm l))
     = map fst (tasks tm).
Proof.
  revert tm. induction l as [|p l IH]; intros tm; simpl; [done|].
  destruct (IH (progressCallback now id p tm)) as [Ho Hk].
  destruct (updateTask_frame now id
              (list_to_map [("status", Str "processing");
                            ("progress", Json (JNumber (Math_round p)))]) tm) as [Ho1 Hk1].
  split.
  - intros other Hne. rewrite Ho by done. by apply Ho1.
  - rewrite Hk. exact Hk1.
Qed.

Lemma on_settled_frame now id o tm :
  (forall other, other <> id -> getTask other (on_settled now id o tm) = getTask other tm)
  /\ map fst (tasks (on_settled now id o tm)) = map fst (tasks tm).
Proof. destruct o; apply updateTask_frame. Qed.

Lemma settle_frame now o s :
  (forall other, other <> taskId s ->
     getTask other (taskManager (settle now o s)) = getTask other (taskManager s))
  /\ map fst (tasks (taskManager (settle now o s))) = map fst (tasks (taskManager s)).
Proof.
  unfold settle. destruct (promise s); [done|]. simpl. apply on_settled_frame.
Qed.

Section more_run_properties.

Variable JSON_parse : string -> option json.

(** X7: a handler of a run touches the record of its own task only: it
    creates no entry, removes none, and every other task reads as before.
    In particular a run whose task has been evicted changes nothing. *)
Theorem run_touches_its_task_only (now : Z) (ev : event) (s s' : system) :
  step JSON_parse now ev s = Some s' ->
  of_the_run ev = true ->
  (forall other, other <> taskId s ->
     getTask other (taskManager s') = getTask other (taskManager s))
  /\ map fst (tasks (taskManager s')) = map fst (tasks (taskManager s))
  /\ (getTask (taskId s) (taskManager s) = None -> taskManager s' = taskManager s).
Proof.
  intros Hstep Hev.
  assert ((forall other, other <> taskId s ->
             getTask other (taskManager s') = getTask other (taskManager s))
          /\ map fst (tasks (taskManager s')) = map fst (tasks (taskManager s)))
    as [Ho Hk].
  { destruct ev; try done.
    - destruct (closed s) eqn:Hc; [by simpl in Hstep; rewrite Hc in Hstep|].
      rewrite step_stdout in Hstep by done. injection Hstep as <-. simpl.
      apply progressCallbacks_frame.
    - simpl in Hstep. destruct (closed s); [done|]. by injection Hstep as <-.
    - simpl in Hstep. destruct (closed s); [done|]. injection Hstep as <-.
      apply (settle_frame now _ (clearTimeout (with_closed s))).
    - simpl in Hstep. destruct (closed s); [done|]. injection Hstep as <-.
      apply settle_frame.
    - simpl in Hstep. destruct (timeout s); [|done]. destruct (_ <=? _); [|done].
      injection Hstep as <-.
      apply (settle_frame now _ (kill "SIGTERM" (clearTimeout s))). }
  split; [done|]. split; [done|].
  intros Hgone.
  assert (forall now id (updates : task) tm,
            getTask id tm = None -> (updateTask now id updates tm).2 = tm) as Hup.
  { intros n i u tm0 H0. unfold updateTask, getTask in *. by rewrite H0. }
  assert (forall o tm0, getTask (taskId s) tm0 = None ->
            on_settled now (taskId s) o tm0 = tm0) as Hset.
  { intros o tm0 H0. destruct o; simpl; by apply Hup. }
  assert (forall o s0, taskId s0 = taskId s -> taskManager s0 = taskManager s ->
            taskManager (settle now o s0) = taskManager s) as Hsettle.
  { intros o s0 Hid Htm. unfold settle. destruct (promise s0); [done|]. simpl.
    rewrite Hid, Htm. by apply Hset. }
  destruct ev; try done.
  - destruct (closed s) eqn:Hc; [by simpl in Hstep; rewrite Hc in Hstep|].
    rewrite step_stdout in Hstep by done. injection Hstep as <-. simpl. clear Ho Hk.
    induction (emitted JSON_parse data (progressData s)) as [|p l IH] using rev_ind;
      [done|].
    rewrite foldl_app. simpl. unfold progressCallback at 1.
    rewrite Hup; [exact IH | by rewrite IH].
  - simpl in Hstep. destruct (closed s); [done|]. by injection Hstep as <-.
  - simpl in Hstep. destruct (closed s); [done|]. injection Hstep as <-.
    by apply Hsettle.
  - simpl in Hstep. destruct (closed s); [done|]. injection Hstep as <-.
    by apply Hsettle.
  - simpl in Hstep. destruct (timeout s); [|done]. destruct (_ <=? _); [|done].
    injection Hstep as <-. by apply Hsettle.
Qed.

(** X8: the first outcome stands.  Once the promise is settled no event
    changes it, and a later close, error or timer of the run leaves the
    registry as it was: the terminal update is made once. *)
Theorem first_outcome_stands (o : outcome) (s : system) :
  promise s = Some o ->
  (forall evs s', run JSON_parse evs s = Some s' -> promise s' = Some o)
  /\ (forall now ev s',
        step JSON_parse now ev s = Some s' ->
        match ev with
        | stderr_data _ | close _ _ | error _ _ | timeout_fired =>
            taskManager s' = taskManager s
        | _ => True
        end).
Proof.
  intros Hp. split.
  - intros evs s'. by apply settled_run.
  - intros now ev s' Hstep. destruct ev; try done; simpl in Hstep.
    + destruct (closed s); [done|]. by injection Hstep as <-.
    + destruct (closed s); [done|]. injection Hstep as <-.
      rewrite settle_settled; [done | simpl; congruence].
    + destruct (closed s); [done|]. injection Hstep as <-.
      rewrite settle_settled; [done | congruence].
    + destruct (timeout s); [|done]. destruct (_ <=? _); [|done].
      injection Hstep as <-. rewrite settle_settled; [done | simpl; congruence].
Qed.

End more_run_properties.

Section outcomes_of_a_run.

Variable JSON_parse : string -> option json.

Lemma quiet_run_filename evs s s' :
  forallb quiet (map snd evs) = true ->
  run JSON_parse evs s = Some s' -> filename s' = filename s.
Proof.
  revert s. induction evs as [|[now ev] evs IH]; intros s Hq Hrun; simpl in *.
  - by injection Hrun as <-.
  - apply andb_prop in Hq as [Hq1 Hq2].
    destruct (step JSON_parse now ev s) as [s1|] eqn:Hstep; [|done].
    rewrite (IH s1 Hq2 Hrun).
    destruct ev; try done; simpl in Hstep.
    + destruct (closed s); [done|]. by injection Hstep as <-.
    + destruct (closed s); [done|]. by injection Hstep as <-.
    + by injection Hstep as <-.
    + by injection Hstep as <-.
Qed.

(** A run that, after any output, closes or fails to spawn. *)
Lemma settling_run now id hash tm pre t ev o :
  forallb quiet (map snd pre) = true ->
  settles_with (filename (processVideoAsync now id hash tm)) ev = Some o ->
  exists s0 s1,
    run JSON_parse pre (processVideoAsync now id hash tm) = Some s0
    /\ run JSON_parse (pre ++ [(t, ev)]) (processVideoAsync now id hash tm) = Some s1
    /\ promise s1 = Some o
    /\ taskManager s1 = on_settled t id o (taskManager s0).
Proof.
  intros Hq Hev.
  destruct (quiet_run JSON_parse pre (processVideoAsync now id hash tm) Hq eq_refl)
    as (s0 & Hrun & Hc & _ & _ & Hp & Hid).
  pose proof (quiet_run_filename pre _ s0 Hq Hrun) as Hf.
  simpl in Hp, Hid. exists s0. rewrite run_app, Hrun. cbn [run].
  destruct ev; try done; simpl in Hev; injection Hev as <-; unfold step; rewrite Hc.
  - eexists. split; [done|]. split; [done|]. rewrite Hf.
    destruct (settle_pending t (close_outcome (filename (processVideoAsync now id hash tm))
                                  code st) (clearTimeout (with_closed s0)) Hp) as [-> ->].
    by rewrite <- Hid.
  - eexists. split; [done|]. split; [done|].
    destruct (settle_pending t (error_outcome code message) s0 Hp) as [-> ->].
    by rewrite <- Hid.
Qed.

Lemma failure_recorded now id message tm :
  is_Some (getTask id (on_settled now id (Rejected message) tm)) ->
  status_of id (on_settled now id (Rejected message) tm) = Some (Str "failed")
  /\ property "error" id (on_settled now id (Rejected message) tm) = Some (Str message)
  /\ property "result" id (on_settled now id (Rejected message) tm)
     = Some (Json (JObject [("error", JString message)])).
Proof.
  intros Hheld. apply on_settled_present in Hheld as [t0 Ht0].
  rewrite status_on_settled, error_on_settled. simpl.
  rewrite property_updateTask by done. by rewrite Ht0.
Qed.

(** X9: how a failure is recorded.  When the process closes with a code
    other than 0 the task becomes failed with the message that names the
    code; when it cannot be spawned, with the message that yt-dlp is not
    installed (error code ENOENT) or with the message of the error.  The
    record takes the message alone: nothing the process wrote to stderr,
    however much, is part of it. *)
Theorem failure_is_recorded_by_message (now : Z) (id hash : string) (tm : TaskManager)
    (pre : list (Z * event)) (t : Z) (ev : event) (message : string) :
  forallb quiet (map snd pre) = true ->
  match ev with
  | close code _ => code <> Some 0
                    /\ message = "yt-dlp process failed with code " +:+ code_text code
  | error (Some "ENOENT") _ => message = "yt-dlp is not installed or not in PATH"
  | error _ cause => message = "Process error: " +:+ cause
  | _ => False
  end ->
  exists s1,
    run JSON_parse (pre ++ [(t, ev)]) (processVideoAsync now id hash tm) = Some s1
    /\ promise s1 = Some (Rejected message)
    /\ (is_Some (getTask id (taskManager s1)) ->
        status_of id (taskManager s1) = Some (Str "failed")
        /\ property "error" id (taskManager s1) = Some (Str message)
        /\ property "result" id (taskManager s1)
           = Some (Json (JObject [("error", JString message)]))).
Proof.
  intros Hq Hev.
  assert (settles_with (filename (processVideoAsync now id hash tm)) ev
          = Some (Rejected message)) as Hset.
  { destruct ev as [| |code st|code cause| | |]; try done.
    - destruct Hev as [Hcode ->]. simpl. f_equal.
      destruct code as [[| |]|]; done.
    - simpl. f_equal. unfold error_outcome.
      repeat (match goal with
              | H : context [match ?x with _ => _ end] |- _ => is_var x; destruct x
              end; try by subst). }
  destruct (settling_run now id hash tm pre t ev _ Hq Hset)
    as (s0 & s1 & _ & Hrun & Hp & Htm).
  exists s1. split; [done|]. split; [done|].
  rewrite Htm. apply failure_recorded.
Qed.

(** X10: how a success is recorded.  When the process closes with code 0
    and the file exists with a size above 0, the promise resolves with the
    name [video_<spawn time>_<hash>.mp4], and the task, if the registry holds
    it, becomes completed with progress 100, that file name, and the path
    [/api/download/<file name>] as its download URL, also inside [result]. *)
Theorem success_is_recorded (now : Z) (id hash : string) (tm : TaskManager)
    (pre : list (Z * event)) (t size : Z) :
  forallb quiet (map snd pre) = true ->
  0 < size ->
  let file := "video_" +:+ pretty now +:+ "_" +:+ hash +:+ ".mp4" in
  exists s1,
    run JSON_parse (pre ++ [(t, close (Some 0) (stats size))])
      (processVideoAsync now id hash tm) = Some s1
    /\ promise s1 = Some (Resolved file size)
    /\ (is_Some (getTask id (taskManager s1)) ->
        status_of id (taskManager s1) = Some (Str "completed")
        /\ property "progress" id (taskManager s1) = Some (Num 100)
        /\ property "filename" id (taskManager s1) = Some (Str file)
        /\ property "downloadUrl" id (taskManager s1)
           = Some (Str ("/api/download/" +:+ file))
        /\ property "result" id (taskManager s1)
           = Some (Json (JObject [("filename", JString file);
                                  ("downloadUrl", JString ("/api/download/" +:+ file))]))
        /\ property "updatedAt" id (taskManager s1) = Some (Iso t)).
Proof.
  intros Hq Hsize file.
  assert (settles_with (filename (processVideoAsync now id hash tm))
            (close (Some 0) (stats size)) = Some (Resolved file size)) as Hset.
  { simpl. by destruct (Z.ltb_spec 0 size); [|lia]. }
  destruct (settling_run now id hash tm pre t _ _ Hq Hset)
    as (s0 & s1 & _ & Hrun & Hp & Htm).
  exists s1. split; [done|]. split; [done|].
  rewrite Htm. intros Hheld. apply on_settled_present in Hheld as [t0 Ht0].
  unfold on_settled. rewrite !property_updateTask by done. rewrite Ht0.
  repeat split; try reflexivity.
  unfold property.
  pose proof (updateTask_cases t id
    (list_to_map
       [("status", Str "completed"); ("progress", Num 100); ("filename", Str file);
        ("downloadUrl", Str (download_url file));
        ("result", Json (JObject [("filename", JString file);
                                  ("downloadUrl", JString (download_url file))]))])
    (taskManager s0)) as H.
  rewrite Ht0 in H. destruct H as (_ & (t' & -> & Hu & _) & _). exact Hu.
Qed.

(** X11: once the buffer ends with a newline, the handler of the next
    chunk hands to the callback everything that the buffer yields, again,
    and then what the chunk yields: the values emitted before come back with
    every chunk. *)
Theorem earlier_lines_are_emitted_again (buffer data : string) :
  emitted JSON_parse data (buffer +:+ LF)
  = (emitted JSON_parse buffer "" ++ emitted JSON_parse data "")%list.
Proof.
  assert (forall b d, split_lines ((b +:+ LF) +:+ d) = (split_lines b ++ split_lines d)%list)
    as Hsplit.
  { intros b d. unfold LF. induction b as [|c b IH].
    - reflexivity.
    - change (split_lines (String c ((b +:+ String newline EmptyString) +:+ d))
              = (split_lines (String c b) ++ split_lines d)%list).
      simpl. rewrite IH. destruct (Ascii.eqb c newline); [done|].
      destruct (split_lines b) eqn:E; [|done].
      exfalso. revert E. clear. destruct b as [|c' b]; simpl; [done|].
      destruct (Ascii.eqb c' newline); [done|]. by destruct (split_lines b). }
  assert (forall l1 l2 acc,
            for_lines JSON_parse (Some (fun p l => (l ++ [p])%list)) (l1 ++ l2) acc
            = for_lines JSON_parse (Some (fun p l => (l ++ [p])%list)) l2
                (for_lines JSON_parse (Some (fun p l => (l ++ [p])%list)) l1 acc)) as Happ.
  { intros l1 l2 acc. unfold for_lines. by rewrite foldl_app. }
  unfold emitted, stdout_on_data. cbn [snd].
  change ("" +:+ buffer) with buffer. change ("" +:+ data) with data.
  rewrite Hsplit, Happ. by rewrite for_lines_app.
Qed.

End outcomes_of_a_run.

(** ** The request for a download *)

(** X12: the record of an accepted request is created with status pending
    and is set to processing, with progress 0, before the handler of the
    request returns: a task that the registry still holds after its creation
    is never read as pending by a poll. *)
Theorem first_poll_reads_processing (now : Z) (uuid url quality hash : string)
    (tm : TaskManager) :
  let created := (createTask uuid now (download_task url quality) tm).2 in
  let s := post_download now uuid url quality hash tm in
  taskId s = uuid
  /\ match getTask uuid created with
     | Some t =>
         t !! "status" = Some (Str "pending")
         /\ status_of uuid (taskManager s) = Some (Str "processing")
         /\ property "progress" uuid (taskManager s) = Some (Num 0)
         /\ property "url" uuid (taskManager s) = Some (Str url)
         /\ property "quality" uuid (taskManager s) = Some (Str quality)
     | None => taskManager s = created
     end.
Proof.
  intros created s.
  assert (s = processVideoAsync now uuid hash created) as -> by reflexivity.
  split; [done|]. simpl taskManager.
  destruct (getTask uuid created) as [t|] eqn:Hget.
  - assert (getTask uuid created
            = Some (<["updatedAt" := Iso now]>
                      (<["createdAt" := Iso now]>
                         (download_task url quality ∪ {["taskId" := Str uuid]})))) as Hnew.
    { revert Hget. unfold created, createTask. cbn [snd].
      match goal with |- getTask _ (cleanupOldTasks ?x) = _ -> _ => set (tm1 := x) end.
      intros Hget.
      destruct (part_of_cleanupOldTasks tm1 uuid) as [Hnone|Hsame]; [congruence|].
      rewrite Hsame. unfold tm1, getTask. simpl. apply Map_get_set_eq. }
    rewrite Hget in Hnew. injection Hnew as ->.
    rewrite !property_updateTask by done. rewrite Hget.
    repeat split; vm_compute; reflexivity.
  - unfold updateTask. unfold getTask in Hget. by rewrite Hget.
Qed.

(** X13: a request without a truthy [url] is refused; one that is accepted
    names one of the three qualities, or none and is taken at 720p, and
    [processVideo] then selects the format with the chain of that quality,
    not with the fallback.  The fallback [best] is what any other quality
    gets, unless it is a name inherited from [Object.prototype], for which
    the selector is no string at all. *)
Theorem accepted_quality_has_its_selector (url quality : option json) :
  (truthy url = false -> check_request url quality = bad_request "URL is required")
  /\ (forall u q,
        check_request url quality = accepted u q ->
        url = Some u /\ truthy url = true
        /\ (quality = None /\ q = "720p" \/ quality = Some (JString q))
        /\ q ∈ validQualities
        /\ exists selector, qualityMap q = Some selector
                            /\ formatSelector q = Some selector
                            /\ selector <> "best")
  /\ (forall q, q ∉ validQualities ->
        formatSelector q = if bool_decide (q ∈ inherited_names) then None else Some "best").
Proof.
  split; [|split].
  - intros H. unfold check_request. by rewrite H.
  - intros u q. unfold check_request.
    destruct (truthy url) eqn:Ht; [|done]. simpl.
    destruct url as [u'|]; [|done].
    destruct (default (JString "720p") quality) as [| | |q'| |] eqn:Hq; try done.
    destruct (bool_decide (q' ∈ validQualities)) eqn:Hv; [|done].
    intros [= -> ->]. apply bool_decide_eq_true in Hv.
    split; [done|]. split; [done|]. split.
    { destruct quality as [v|]; simpl in Hq; [right; by subst | left; split; congruence]. }
    split; [done|].
    unfold validQualities in Hv.
    repeat (apply elem_of_cons in Hv as [->|Hv]; [eexists; by_computation|]).
    by apply elem_of_nil in Hv.
  - intros q Hq. unfold formatSelector, qualityMap.
    destruct (String.eqb_spec q "720p") as [->|_].
    { exfalso. apply Hq. unfold validQualities. set_solver. }
    destruct (String.eqb_spec q "1080p") as [->|_].
    { exfalso. apply Hq. unfold validQualities. set_solver. }
    destruct (String.eqb_spec q "4K") as [->|_]; [|done].
    exfalso. apply Hq. unfold validQualities. set_solver.
Qed.

(** ** The further properties at concrete registries and runs *)

(** The sweep of [three_tasks] a day and a moment after the first task was
    completed. *)
Lemma sweep_removes_expired_only_witness :
  tasks (cleanup_tick 86400004 three_tasks)
  = List.filter (fun kv => negb (expired 86400004 kv.2)) (tasks three_tasks)
  /\ maxTasks (cleanup_tick 86400004 three_tasks) = maxTasks three_tasks
  /\ (forall id t, getTask id three_tasks = Some t ->
        getTask id (cleanup_tick 86400004 three_tasks)
        = if expired 86400004 t then None else Some t)
  /\ (forall id, getTask id three_tasks = None ->
        getTask id (cleanup_tick 86400004 three_tasks) = None)
  /\ (forall t : task,
        timestamped t ->
        expired 86400004 t = true
        <-> (t !! "status" = Some (Str "completed") \/ t !! "status" = Some (Str "failed"))
            /\ exists ms, t !! "updatedAt" = Some (Iso ms)
                          /\ 24 * 60 * 60 * 1000 < 86400004 - ms).
Proof.
  apply (sweep_removes_expired_only 86400004 three_tasks).
  - apply (bool_decide_unpack _). vm_compute. reflexivity.
  - unfold timestamped. apply (bool_decide_unpack _). vm_compute. reflexivity.
Defined.

Example sweep_of_three_tasks :
  map fst (tasks three_tasks) = ["a"; "b"; "c"]
  /\ map fst (tasks (cleanup_tick 86400004 three_tasks)) = ["b"; "c"]
  /\ map fst (tasks (cleanup_tick 86400003 three_tasks)) = ["a"; "b"; "c"]
  /\ map fst (tasks (cleanup_tick 900000000 three_tasks)) = ["b"].
Proof. by_computation. Qed.

Lemma registry_stays_bounded_witness :
  well_kept (apply_ops busy_day small)
  /\ (length (tasks (apply_ops busy_day small)) <= maxTasks small)%nat
  /\ maxTasks (apply_ops busy_day small) = maxTasks small.
Proof.
  apply (registry_stays_bounded busy_day small).
  - split; constructor.
  - simpl. lia.
  - unfold busy_day. simpl. repeat (constructor; [by_computation|]). constructor.
Defined.


Lemma recent_results_newest_first_witness :
  let rs := getRecentResults None three_tasks in
  let n := length (List.filter terminal (getAllTasks three_tasks)) in
  length rs = (if default 20 None <? 0 then Z.to_nat (Z.of_nat n + default 20 None)
               else Nat.min (Z.to_nat (default 20 None)) n)
  /\ Forall (fun r : task => r !! "status" = Some (Str "completed")
                             \/ r !! "status" = Some (Str "failed")) rs
  /\ Forall (fun r : task =>
               exists id t, (id, t) ∈ tasks three_tasks /\ terminal t = true
                            /\ forall k, r !! k = if bool_decide (k ∈ result_keys)
                                                  then t !! k else None) rs
  /\ StronglySorted newer rs.
Proof.
  apply (recent_results_newest_first None three_tasks).
  unfold timestamped. apply (bool_decide_unpack _). vm_compute. reflexivity.
Defined.

Example recent_results_of_three_tasks :
  map (fun r : task => (r !! "taskId", r !! "status", r !! "error", r !! "progress"))
    (getRecentResults None three_tasks)
  = [(Some (Str "c"), Some (Str "failed"), Some (Str "boom"), None);
     (Some (Str "a"), Some (Str "completed"), None, None)]
  /\ length (getRecentResults (Some 1) three_tasks) = 1%nat
  /\ length (getRecentResults (Some (-1)) three_tasks) = 1%nat
  /\ length (getRecentResults (Some 0) three_tasks) = 0%nat.
Proof. by_computation. Qed.

Lemma statistics_agree_with_queries_witness :
  exists st,
    getStatistics three_tasks = Some st
    /\ total st = length (getAllTasks three_tasks)
    /\ pending st = length (getTasksByStatus "pending" three_tasks)
    /\ processing st = length (getTasksByStatus "processing" three_tasks)
    /\ completed st = length (getTasksByStatus "completed" three_tasks)
    /\ failed st = length (getTasksByStatus "failed" three_tasks)
    /\ getActiveTasksCount three_tasks = (pending st + processing st)%nat
    /\ (pending st + processing st + completed st + failed st <= total st)%nat.
Proof.
  apply (statistics_agree_with_queries three_tasks).
  assert (map (fun t : task => t !! "status") (getAllTasks three_tasks)
          = [Some (Str "completed"); Some (Str "processing"); Some (Str "failed")]) as H
    by (vm_compute; reflexivity).
  destruct (getAllTasks three_tasks) as [|a [|b [|c [|]]]]; try discriminate H.
  injection H as Ha Hb Hc.
  repeat (apply Forall_cons; split); try exact (Forall_nil_2 _); unfold plain_status.
  - rewrite Ha. discriminate.
  - rewrite Hb. discriminate.
  - rewrite Hc. discriminate.
Defined.

(** A status that is the name of the counter of all tasks is counted as a
    task more; one that is an object with a [toString] of its own makes the
    count throw. *)
Example statistics_of_odd_statuses :
  getStatistics (updateTask 5 "b" {["status" := Str "total"]} three_tasks).2
  = Some {| total := 4; pending := 0; processing := 0; completed := 1; failed := 1 |}
  /\ getStatistics three_tasks
     = Some {| total := 3; pending := 0; processing := 1; completed := 1; failed := 1 |}
  /\ getStatistics
       (updateTask 5 "b"
          {["status" := Json (JObject [("toString", JString "x")])]} three_tasks).2
     = None.
Proof. by_computation. Qed.

Lemma run_touches_its_task_only_witness :
  let s := processVideoAsync 10 "b" "0a1b2c3d" three_tasks in
  let s' := with_taskManager
              (foldl (fun tm p => progressCallback 20 "b" p tm) (taskManager s)
                 (emitted JSON_decode (progress_line "50" +:+ LF) (progressData s)))
              (with_progressData (progressData s +:+ (progress_line "50" +:+ LF)) s) in
  (forall other, other <> "b" ->
     getTask other (taskManager s') = getTask other (taskManager s))
  /\ map fst (tasks (taskManager s')) = map fst (tasks (taskManager s))
  /\ (getTask "b" (taskManager s) = None -> taskManager s' = taskManager s).
Proof.
  intros s s'.
  apply (run_touches_its_task_only JSON_decode 20
           (stdout_data (progress_line "50" +:+ LF)) s s').
  - apply (step_stdout JSON_decode 20 (progress_line "50" +:+ LF) s). reflexivity.
  - reflexivity.
Defined.

Lemma first_outcome_stands_witness :
  let s := settle 50 (Rejected timeout_message)
             (kill "SIGTERM" (clearTimeout (processVideoAsync 10 "b" "0a1b2c3d" three_tasks))) in
  (forall evs s', run JSON_decode evs s = Some s' ->
                  promise s' = Some (Rejected timeout_message))
  /\ (forall now ev s',
        step JSON_decode now ev s = Some s' ->
        match ev with
        | stderr_data _ | close _ _ | error _ _ | timeout_fired =>
            taskManager s' = taskManager s
        | _ => True
        end).
Proof.
  intros s. apply (first_outcome_stands JSON_decode (Rejected timeout_message) s).
  reflexivity.
Defined.

Lemma failure_is_recorded_by_message_witness :
  exists s1,
    run JSON_decode
      ([(20, stderr_data "ERROR: Video unavailable"); (21, stderr_data "boom")]
       ++ [(30, close (Some 2) (stat_throws "ENOENT"))])
      (processVideoAsync 10 "b" "0a1b2c3d" three_tasks) = Some s1
    /\ promise s1 = Some (Rejected "yt-dlp process failed with code 2")
    /\ (is_Some (getTask "b" (taskManager s1)) ->
        status_of "b" (taskManager s1) = Some (Str "failed")
        /\ property "error" "b" (taskManager s1)
           = Some (Str "yt-dlp process failed with code 2")
        /\ property "result" "b" (taskManager s1)
           = Some (Json (JObject [("error", JString "yt-dlp process failed with code 2")]))).
Proof.
  apply (failure_is_recorded_by_message JSON_decode 10 "b" "0a1b2c3d" three_tasks
           [(20, stderr_data "ERROR: Video unavailable"); (21, stderr_data "boom")]
           30 (close (Some 2) (stat_throws "ENOENT"))
           "yt-dlp process failed with code 2").
  - reflexivity.
  - split; [discriminate | reflexivity].
Defined.

Lemma success_is_recorded_witness :
  let file := "video_" +:+ pretty 10 +:+ "_" +:+ "0a1b2c3d" +:+ ".mp4" in
  exists s1,
    run JSON_decode
      ([(20, stdout_data (progress_line "99.5" +:+ LF))]
       ++ [(30, close (Some 0) (stats 1048576))])
      (processVideoAsync 10 "b" "0a1b2c3d" three_tasks) = Some s1
    /\ promise s1 = Some (Resolved file 1048576)
    /\ (is_Some (getTask "b" (taskManager s1)) ->
        status_of "b" (taskManager s1) = Some (Str "completed")
        /\ property "progress" "b" (taskManager s1) = Some (Num 100)
        /\ property "filename" "b" (taskManager s1) = Some (Str file)
        /\ property "downloadUrl" "b" (taskManager s1)
           = Some (Str ("/api/download/" +:+ file))
        /\ property "result" "b" (taskManager s1)
           = Some (Json (JObject [("filename", JString file);
                                  ("downloadUrl", JString ("/api/download/" +:+ file))]))
        /\ property "updatedAt" "b" (taskManager s1) = Some (Iso 30)).
Proof.
  apply (success_is_recorded JSON_decode 10 "b" "0a1b2c3d" three_tasks
           [(20, stdout_data (progress_line "99.5" +:+ LF))] 30 1048576).
  - reflexivity.
  - lia.
Defined.

(** ** The lifecycle of the record of a run *)

Lemma createTask_own uuid now (taskData : task) tm :
  getTask uuid (createTask uuid now taskData tm).2 = None
  \/ getTask uuid (createTask uuid now taskData tm).2
     = Some (<["updatedAt" := Iso now]>
               (<["createdAt" := Iso now]> (taskData ∪ {["taskId" := Str uuid]}))).
Proof.
  unfold createTask. cbn [snd].
  match goal with |- context [cleanupOldTasks ?x] => set (tm1 := x) end.
  destruct (part_of_cleanupOldTasks tm1 uuid) as [Hnone|Hsame]; [by left|right].
  rewrite Hsame. unfold tm1, getTask. simpl. apply Map_get_set_eq.
Qed.

Lemma createTask_other id uuid now (taskData : task) tm :
  id <> uuid ->
  getTask id (createTask uuid now taskData tm).2 = None
  \/ getTask id (createTask uuid now taskData tm).2 = getTask id tm.
Proof.
  intros Hne. unfold createTask. cbn [snd].
  match goal with |- context [cleanupOldTasks ?x] => set (tm1 := x) end.
  destruct (part_of_cleanupOldTasks tm1 id) as [Hnone|Hsame]; [by left|right].
  rewrite Hsame. unfold tm1, getTask. simpl. apply Map_get_set_ne. congruence.
Qed.

Lemma property_absent k id tm : getTask id tm = None -> property k id tm = None.
Proof. intros H. unfold property. by rewrite H. Qed.

Lemma property_same k id tm' tm :
  getTask id tm' = getTask id tm -> property k id tm' = property k id tm.
Proof. intros H. unfold property. by rewrite H. Qed.

Lemma progressCallbacks_read now id (l : list number) tm k :
  k <> "updatedAt" -> k <> "status" -> k <> "progress" ->
  property k id (foldl (fun tm p => progressCallback now id p tm) tm l) = property k id tm.
Proof.
  intros H1 H2 H3. revert tm. induction l as [|p l IH]; intros tm; [done|].
  cbn [foldl]. rewrite IH. rewrite progressCallback_read by done.
  unfold property. destruct (getTask id tm) as [t|]; [|done].
  change (list_to_map [("status", Str "processing");
                        ("progress", Json (JNumber (Math_round p)))] : task)
    with (<["status" := Str "processing"]>
            (<["progress" := Json (JNumber (Math_round p))]> (∅ : task))).
  rewrite !lookup_insert_ne by congruence. by rewrite lookup_empty.
Qed.

Lemma lifecycle_at_status p f (read read' : string -> option field) :
  read' "error" = read "error" -> read' "filename" = read "filename" ->
  read' "downloadUrl" = read "downloadUrl" ->
  read' "status" = read "status" \/ read' "status" = None
  \/ read' "status" = Some (Str "pending") \/ read' "status" = Some (Str "processing") ->
  lifecycle_at p f read -> lifecycle_at p f read'.
Proof.
  intros He Hf Hd Hs [H1 H2]. unfold lifecycle_at. rewrite He, Hf, Hd. split; [exact H1|].
  destruct Hs as [Hs|[Hs|[Hs|Hs]]]; rewrite Hs; auto.
Qed.

Lemma lifecycle_at_fresh p f (read read' : string -> option field) :
  read' "error" = None ->
  read' "status" = None \/ read' "status" = Some (Str "pending")
  \/ read' "status" = Some (Str "processing") ->
  lifecycle_at p f read -> lifecycle_at p f read'.
Proof.
  intros He Hs [H1 H2]. unfold lifecycle_at. rewrite He. split.
  - destruct p as [[]|]; tauto.
  - destruct Hs as [Hs|[Hs|Hs]]; rewrite Hs; auto.
Qed.

Lemma lifecycle_registry p f id tm tm' :
  getTask id tm' = None \/ getTask id tm' = getTask id tm ->
  lifecycle_at p f (fun k => property k id tm) ->
  lifecycle_at p f (fun k => property k id tm').
Proof.
  intros [Hnone|Hsame].
  - apply lifecycle_at_fresh; [|left]; by apply property_absent.
  - apply lifecycle_at_status; try (by apply property_same). left. by apply property_same.
Qed.

Lemma close_outcome_message f code st m : close_outcome f code st = Rejected m -> m <> "".
Proof.
  unfold close_outcome, not_found_or_empty, failed_message.
  repeat case_match; intros; simplify_eq; discriminate.
Qed.

Lemma close_outcome_file f code st f' size : close_outcome f code st = Resolved f' size -> f' = f.
Proof. unfold close_outcome. repeat case_match; intros; by simplify_eq. Qed.

Lemma error_outcome_message code message :
  exists m, error_outcome code message = Rejected m /\ m <> "".
Proof.
  unfold error_outcome. repeat case_match; eexists; (split; [reflexivity | discriminate]).
Qed.

Lemma lifecycle_on_settled now id o f tm :
  match o with Resolved f' _ => f' = f | Rejected m => m <> "" end ->
  lifecycle_at None f (fun k => property k id tm) ->
  lifecycle_at (Some o) f (fun k => property k id (on_settled now id o tm)).
Proof.
  intros Ho [He _]. unfold lifecycle_at. rewrite status_on_settled.
  destruct o as [f' size|m].
  - subst f'. simpl on_settled. rewrite !property_updateTask by done.
    unfold property in He |- *.
    destruct (getTask id tm) as [t|]; [|by auto].
    split; [by split|]. do 3 right. by repeat split.
  - rewrite error_on_settled. split; [done|].
    destruct (getTask id tm) as [t|]; [|by auto].
    do 3 right. by split.
Qed.

Section lifecycle_of_a_run.

Variable JSON_parse : string -> option json.

Lemma step_filename now ev s s' :
  step JSON_parse now ev s = Some s' -> filename s' = filename s.
Proof.
  destruct ev; simpl; intros H; repeat case_match; simplify_eq; try done;
    unfold settle; repeat case_match; done.
Qed.

Lemma lifecycle_settle now o s :
  match o with Resolved f' _ => f' = filename s | Rejected m => m <> "" end ->
  lifecycle s -> lifecycle (settle now o s).
Proof.
  intros Ho Hl. destruct (promise s) as [o0|] eqn:Hp.
  - rewrite settle_settled by congruence. exact Hl.
  - destruct (settle_pending now o s Hp) as [Hp' Htm].
    destruct (settle_fields now o s) as (Hid & _).
    unfold lifecycle in *. rewrite Hp', Htm, Hid. rewrite Hp in Hl.
    assert (filename (settle now o s) = filename s) as ->.
    { unfold settle. by rewrite Hp. }
    by apply lifecycle_on_settled.
Qed.

Lemma lifecycle_step now ev s s' :
  lifecycle s -> step JSON_parse now ev s = Some s' -> lifecycle s'.
Proof.
  intros Hl Hstep. destruct ev as [data|data|code st|code message| |uuid url quality|].
  - destruct (closed s) eqn:Hc; [by simpl in Hstep; rewrite Hc in Hstep|].
    rewrite step_stdout in Hstep by done. injection Hstep as <-.
    unfold lifecycle in *. cbn [promise filename taskId taskManager with_taskManager
                                with_progressData].
    revert Hl. apply lifecycle_at_status; try (by apply progressCallbacks_read).
    destruct (status_progressCallbacks now (taskId s)
                (emitted JSON_parse data (progressData s)) (taskManager s))
      as [H|[H|H]]; auto.
  - simpl in Hstep. destruct (closed s); [done|]. by injection Hstep as <-.
  - simpl in Hstep. destruct (closed s); [done|]. injection Hstep as <-.
    apply lifecycle_settle; [|exact Hl].
    cbn [filename clearTimeout with_closed].
    destruct (close_outcome (filename s) code st) as [f' size|m] eqn:Ho.
    + by apply close_outcome_file in Ho.
    + by apply close_outcome_message in Ho.
  - simpl in Hstep. destruct (closed s); [done|]. injection Hstep as <-.
    apply lifecycle_settle; [|exact Hl].
    destruct (error_outcome_message code message) as (m & -> & Hm). exact Hm.
  - simpl in Hstep. destruct (timeout s) as [due|]; [|done].
    destruct (due <=? now); [|done]. injection Hstep as <-.
    apply lifecycle_settle; [discriminate | exact Hl].
  - unfold step in Hstep.
    pose proof (createTask_own uuid now (download_task url quality) (taskManager s)) as Hown.
    pose proof (createTask_other (taskId s) uuid now (download_task url quality)
                  (taskManager s)) as Hother.
    set (tm' := (createTask uuid now (download_task url quality) (taskManager s)).2) in *.
    injection Hstep as <-.
    unfold lifecycle in *. cbn [promise filename taskId taskManager with_taskManager].
    destruct (decide (taskId s = uuid)) as [<-|Hne].
    + destruct Hown as [Hnone|Hnew].
      * revert Hl. apply lifecycle_registry. by left.
      * revert Hl. apply lifecycle_at_fresh; unfold property; rewrite Hnew.
        -- reflexivity.
        -- right. left. reflexivity.
    + revert Hl. apply lifecycle_registry. by apply Hother.
  - cbn [step] in Hstep. injection Hstep as <-.
    unfold lifecycle in *. cbn [promise filename taskId taskManager with_taskManager].
    revert Hl. apply lifecycle_registry. apply part_of_cleanup_tick.
Qed.

Lemma lifecycle_run evs s s' :
  lifecycle s -> run JSON_parse evs s = Some s' -> lifecycle s'.
Proof.
  revert s. induction evs as [|[now ev] evs IH]; intros s Hl Hrun; simpl in Hrun.
  - by injection Hrun as <-.
  - destruct (step JSON_parse now ev s) as [s1|] eqn:Hstep; [|done].
    eapply IH; [|exact Hrun]. by eapply lifecycle_step.
Qed.

Lemma run_filename evs s s' :
  run JSON_parse evs s = Some s' -> filename s' = filename s /\ taskId s' = taskId s.
Proof.
  revert s. induction evs as [|[now ev] evs IH]; intros s Hrun; simpl in Hrun.
  - by injection Hrun as <-.
  - destruct (step JSON_parse now ev s) as [s1|] eqn:Hstep; [|done].
    destruct (IH s1 Hrun) as [-> ->].
    split; [by eapply step_filename | by eapply step_taskId].
Qed.

End lifecycle_of_a_run.

Lemma lifecycle_post_download now uuid url quality hash tm :
  lifecycle (post_download now uuid url quality hash tm).
Proof.
  assert (post_download now uuid url quality hash tm
          = processVideoAsync now uuid hash
              (createTask uuid now (download_task url quality) tm).2) as -> by reflexivity.
  unfold lifecycle, lifecycle_at.
  cbn [promise filename taskId taskManager processVideoAsync].
  rewrite !property_updateTask by done.
  destruct (createTask_own uuid now (download_task url quality) tm) as [-> | ->].
  - auto.
  - split; [reflexivity|]. right. right. left. reflexivity.
Qed.

(** ** The record as the web client reads it *)

Lemma TaskStatus_of_fields (t : task) (ts : backend.TaskStatus) :
  TaskStatus_of t = Some ts ->
  t !! "status" = Some (Str (backend.status ts))
  /\ optional_text (t !! "filename") = Some (backend.filename ts)
  /\ (t !! "error" = None -> backend.error ts = None)
  /\ (forall m, t !! "error" = Some (Str m) -> backend.error ts = Some (Some m)).
Proof.
  unfold TaskStatus_of. intros H.
  destruct (t !! "taskId") as [[[]|]|]; try discriminate H.
  destruct (t !! "status") as [[[]|]|]; try discriminate H.
  apply bind_Some in H as (progress & _ & H).
  apply bind_Some in H as (downloadUrl & _ & H).
  apply bind_Some in H as (filename & Hf & H).
  apply bind_Some in H as (file & _ & H).
  apply bind_Some in H as (error & He & H).
  apply bind_Some in H as (result & _ & H).
  injection H as <-. simpl. split; [done|]. split; [done|]. split.
  - intros Hn. rewrite Hn in He. by injection He as <-.
  - intros m Hm. rewrite Hm in He. by injection He as <-.
Qed.

Section polls_of_a_run.

Variable JSON_parse : string -> option json.

Lemma post_download_run now uuid url quality hash tm evs s' :
  run JSON_parse evs (post_download now uuid url quality hash tm) = Some s' ->
  lifecycle s'
  /\ filename s' = "video_" +:+ pretty now +:+ "_" +:+ hash +:+ ".mp4"
  /\ taskId s' = uuid.
Proof.
  intros Hrun. split.
  - eapply lifecycle_run; [|exact Hrun]. apply lifecycle_post_download.
  - apply run_filename in Hrun as [-> ->]. done.
Qed.

(** X14: the record of an accepted download follows the promise of its
    run, whatever the events, those of other downloads and of the sweep
    included: a poll reads no status, pending, processing, completed or
    failed; completed only once the promise is resolved, and then with the
    file name of the run, its download URL and no error; failed only once
    the promise is rejected, and then with the message of the rejection,
    which is never empty. *)
Theorem record_follows_the_promise (now : Z) (uuid url quality hash : string)
    (tm : TaskManager) (evs : list (Z * event)) (s' : system) :
  run JSON_parse evs (post_download now uuid url quality hash tm) = Some s' ->
  let read k := property k uuid (taskManager s') in
  let file := "video_" +:+ pretty now +:+ "_" +:+ hash +:+ ".mp4" in
  (read "status" = None \/ read "status" = Some (Str "pending")
   \/ read "status" = Some (Str "processing") \/ read "status" = Some (Str "completed")
   \/ read "status" = Some (Str "failed"))
  /\ (read "status" = Some (Str "completed") ->
      (exists size, promise s' = Some (Resolved file size))
      /\ read "filename" = Some (Str file)
      /\ read "downloadUrl" = Some (Str ("/api/download/" +:+ file))
      /\ read "error" = None)
  /\ (read "status" = Some (Str "failed") ->
      exists message, promise s' = Some (Rejected message) /\ message <> ""
                      /\ read "error" = Some (Str message)).
Proof.
  intros Hrun read file.
  destruct (post_download_run _ _ _ _ _ _ _ _ Hrun) as ([H1 H2] & Hf & Hid).
  rewrite Hid in H1, H2. fold file in Hf. rewrite Hf in H1.
  change (match promise s' with
          | None => read "error" = None
          | Some (Resolved f _) => f = file /\ read "error" = None
          | Some (Rejected m) => m <> ""
          end) in H1.
  change (read "status" = None \/ read "status" = Some (Str "pending")
          \/ read "status" = Some (Str "processing")
          \/ match promise s' with
             | None => False
             | Some (Resolved f _) =>
                 read "status" = Some (Str "completed")
                 /\ read "filename" = Some (Str f)
                 /\ read "downloadUrl" = Some (Str (download_url f))
             | Some (Rejected m) =>
                 read "status" = Some (Str "failed") /\ read "error" = Some (Str m)
             end) in H2.
  clearbody read.
  split; [|split].
  - destruct H2 as [H|[H|[H|H]]]; auto.
    destruct (promise s') as [[f size|m]|]; [| |done]; destruct H as [H _]; auto.
  - intros Hc. rewrite Hc in H2.
    destruct H2 as [H|[H|[H|H]]]; try discriminate H.
    destruct (promise s') as [[f size|m]|]; [| |done].
    + destruct H1 as [-> He]. destruct H as (_ & Hfile & Hurl).
      split; [by exists size|]. by repeat split.
    + destruct H as [H _]. discriminate H.
  - intros Hc. rewrite Hc in H2.
    destruct H2 as [H|[H|[H|H]]]; try discriminate H.
    destruct (promise s') as [[f size|m]|]; [| |done].
    + destruct H as [H _]. discriminate H.
    + destruct H as [_ He]. by exists m.
Qed.

(** X15: when a poll of an accepted download reads completed, the form
    reports the success with the file name of the run, stops polling, and
    its download button requests the path that the record gives as download
    URL, below the base [/api] of the client. *)
Theorem completed_download_is_offered (now : Z) (uuid url quality hash : string)
    (tm : TaskManager) (evs : list (Z * event)) (s' : system) (t : task)
    (ts : backend.TaskStatus) (form_url : string) (st : DownloadForm.state) :
  run JSON_parse evs (post_download now uuid url quality hash tm) = Some s' ->
  getTask uuid (taskManager s') = Some t ->
  TaskStatus_of t = Some ts ->
  backend.status ts = "completed" ->
  let file := "video_" +:+ pretty now +:+ "_" +:+ hash +:+ ".mp4" in
  let r := DownloadForm.pollTaskStatus form_url uuid (backend.data ts) st in
  DownloadForm.success r.1 = Some ("Download completed! File: " +:+ file)
  /\ DownloadForm.error r.1 = DownloadForm.error st
  /\ DownloadForm.loading r.1 = false
  /\ r.2 = [DownloadForm.onStatusChange ("Download completed: " +:+ file)]
  /\ DownloadForm.handleDownloadFile r.1 = Some ("/download/" +:+ file)
  /\ t !! "downloadUrl" = Some (Str ("/api" +:+ "/download/" +:+ file)).
Proof.
  intros Hrun Hget Hts Hc file r.
  destruct (post_download_run _ _ _ _ _ _ _ _ Hrun) as ([H1 H2] & Hf & Hid).
  rewrite Hid in H1, H2. unfold property in H1, H2. rewrite Hget in H1, H2.
  fold file in Hf. rewrite Hf in H1.
  destruct (TaskStatus_of_fields t ts Hts) as (Hs & Hfn & Hnone & _).
  rewrite Hc in Hs. rewrite Hs in H2.
  destruct H2 as [H|[H|[H|H]]]; try discriminate H.
  destruct (promise s') as [[f size|m]|]; [| |done]; [|destruct H as [H _]; discriminate H].
  destruct H1 as [-> He]. destruct H as (_ & Hfile & Hurl).
  rewrite Hfile in Hfn. injection Hfn as Hfn. specialize (Hnone He).
  subst r. unfold DownloadForm.pollTaskStatus, backend.getTaskStatus.
  rewrite Hc, Hnone, <- Hfn. cbn [String.eqb Ascii.eqb Bool.eqb default backend.or_else].
  assert ((file =? "")%string = false) as Hfile_text by reflexivity.
  rewrite Hfile_text.
  cbn [fst snd default DownloadForm.success DownloadForm.error DownloadForm.loading].
  repeat split; try done.
  unfold DownloadForm.handleDownloadFile. cbn [DownloadForm.taskStatus mbind option_bind].
  rewrite <- Hfn. cbn [backend.or_else]. by rewrite Hfile_text.
Qed.

(** X16: when a poll of an accepted download reads failed, the form shows
    the message with which the promise was rejected, or its own text about
    YouTube Music when that message names an invalid URL and the URL of the
    form is one of YouTube Music; it stops polling. *)
Theorem failed_download_is_reported (now : Z) (uuid url quality hash : string)
    (tm : TaskManager) (evs : list (Z * event)) (s' : system) (t : task)
    (ts : backend.TaskStatus) (form_url : string) (st : DownloadForm.state) :
  run JSON_parse evs (post_download now uuid url quality hash tm) = Some s' ->
  getTask uuid (taskManager s') = Some t ->
  TaskStatus_of t = Some ts ->
  backend.status ts = "failed" ->
  let r := DownloadForm.pollTaskStatus form_url uuid (backend.data ts) st in
  exists message,
    promise s' = Some (Rejected message)
    /\ DownloadForm.error r.1
       = Some (if DownloadForm.includes message "Invalid URL"
                  && DownloadForm.includes form_url "music.youtube.com"
               then DownloadForm.music_message else message)
    /\ DownloadForm.success r.1 = DownloadForm.success st
    /\ DownloadForm.loading r.1 = false
    /\ r.2 = [DownloadForm.onStatusChange "Download failed"].
Proof.
  intros Hrun Hget Hts Hc r.
  destruct (post_download_run _ _ _ _ _ _ _ _ Hrun) as ([H1 H2] & Hf & Hid).
  rewrite Hid in H1, H2. unfold property in H1, H2. rewrite Hget in H1, H2.
  destruct (TaskStatus_of_fields t ts Hts) as (Hs & _ & _ & Hsome).
  rewrite Hc in Hs. rewrite Hs in H2.
  destruct H2 as [H|[H|[H|H]]]; try discriminate H.
  destruct (promise s') as [[f size|m]|]; [| |done]; [destruct H as [H _]; discriminate H|].
  destruct H as [_ He]. specialize (Hsome m He).
  exists m. split; [done|].
  subst r. unfold DownloadForm.pollTaskStatus, backend.getTaskStatus.
  assert ((m =? "")%string = false) as Hm_text.
  { apply String.eqb_neq. intros ->. by destruct H1. }
  rewrite Hc, Hsome. cbn -[DownloadForm.includes DownloadForm.music_message].
  rewrite Hm_text. by cbn -[DownloadForm.includes DownloadForm.music_message].
Qed.

(** X17: as long as the promise of its run is not settled, a poll of an
    accepted download makes the form poll again 2000 ms later, and changes
    neither what it shows as error or success nor that it is loading. *)
Theorem unsettled_download_is_polled_again (now : Z) (uuid url quality hash : string)
    (tm : TaskManager) (evs : list (Z * event)) (s' : system) (t : task)
    (ts : backend.TaskStatus) (form_url : string) (st : DownloadForm.state) :
  run JSON_parse evs (post_download now uuid url quality hash tm) = Some s' ->
  promise s' = None ->
  getTask uuid (taskManager s') = Some t ->
  TaskStatus_of t = Some ts ->
  let r := DownloadForm.pollTaskStatus form_url uuid (backend.data ts) st in
  r.2 = [DownloadForm.setTimeout_pollTaskStatus uuid 2000]
  /\ DownloadForm.loading r.1 = DownloadForm.loading st
  /\ DownloadForm.error r.1 = DownloadForm.error st
  /\ DownloadForm.success r.1 = DownloadForm.success st
  /\ DownloadForm.taskStatus r.1 = Some ts.
Proof.
  intros Hrun Hp Hget Hts r.
  destruct (post_download_run _ _ _ _ _ _ _ _ Hrun) as ([H1 H2] & Hf & Hid).
  rewrite Hid in H1, H2. unfold property in H1, H2. rewrite Hget in H1, H2.
  destruct (TaskStatus_of_fields t ts Hts) as (Hs & _).
  rewrite Hp in H2. rewrite Hs in H2.
  assert (backend.status ts = "pending" \/ backend.status ts = "processing") as Hst.
  { destruct H2 as [H|[H|[H|H]]]; try done; injection H; auto. }
  subst r. unfold DownloadForm.pollTaskStatus, backend.getTaskStatus.
  by destruct Hst as [-> | ->].
Qed.

Lemma settled_step_processing now ev s s' o :
  promise s = Some o ->
  status_of (taskId s) (taskManager s) = Some (Str "processing") ->
  of_the_run ev = true ->
  step JSON_parse now ev s = Some s' ->
  promise s' = Some o /\ taskId s' = taskId s
  /\ status_of (taskId s) (taskManager s') = Some (Str "processing").
Proof.
  intros Hp Hs Hev Hstep.
  split; [by apply (settled_run JSON_parse [(now, ev)] s s' o Hp); simpl; rewrite Hstep|].
  split; [by eapply step_taskId|].
  assert (promise s <> None) as Hsettled by congruence.
  destruct ev as [data|data|code st|code message| |uuid url quality|]; try done.
  - destruct (closed s) eqn:Hc; [by simpl in Hstep; rewrite Hc in Hstep|].
    rewrite step_stdout in Hstep by done. injection Hstep as <-.
    cbn [taskManager with_taskManager with_progressData].
    generalize (emitted JSON_parse data (progressData s)). intros l.
    induction l as [|p l IH] using rev_ind; [done|].
    rewrite foldl_app. cbn [foldl]. rewrite status_progressCallback.
    assert (is_Some (getTask (taskId s) (taskManager s))) as Hheld.
    { unfold property in Hs. by destruct (getTask (taskId s) (taskManager s)). }
    apply (progressCallbacks_present now (taskId s) l) in Hheld. by destruct Hheld as [t ->].
  - simpl in Hstep. destruct (closed s); [done|]. by injection Hstep as <-.
  - simpl in Hstep. destruct (closed s); [done|]. injection Hstep as <-.
    rewrite settle_settled; [done | simpl; congruence].
  - simpl in Hstep. destruct (closed s); [done|]. injection Hstep as <-.
    by rewrite settle_settled.
  - simpl in Hstep. destruct (timeout s) as [due|]; [|done].
    destruct (due <=? now); [|done]. injection Hstep as <-.
    rewrite settle_settled; [done | simpl; congruence].
Qed.

(** X18: a task that reads processing once the promise of its run is
    settled reads processing after every further event of that run, output,
    close, error or timer: no handler of the run brings it to a terminal
    status, and the form polls it again every 2000 ms without end. *)
Theorem settled_processing_is_polled_without_end (o : outcome) (s : system)
    (later : list (Z * event)) (s' : system) :
  promise s = Some o ->
  status_of (taskId s) (taskManager s) = Some (Str "processing") ->
  forallb of_the_run (map snd later) = true ->
  run JSON_parse later s = Some s' ->
  status_of (taskId s) (taskManager s') = Some (Str "processing")
  /\ forall t ts form_url st,
       getTask (taskId s) (taskManager s') = Some t ->
       TaskStatus_of t = Some ts ->
       (DownloadForm.pollTaskStatus form_url (taskId s) (backend.data ts) st).2
       = [DownloadForm.setTimeout_pollTaskStatus (taskId s) 2000].
Proof.
  intros Hp Hs Hevs Hrun.
  assert (status_of (taskId s) (taskManager s') = Some (Str "processing")) as Hs'.
  { revert s Hp Hs Hrun. induction later as [|[now ev] later IH]; intros s Hp Hs Hrun.
    - simpl in Hrun. by injection Hrun as <-.
    - simpl in Hevs, Hrun. apply andb_prop in Hevs as [Hev Hevs].
      destruct (step JSON_parse now ev s) as [s1|] eqn:Hstep; [|done].
      destruct (settled_step_processing now ev s s1 o Hp Hs Hev Hstep) as (Hp1 & Hid & Hs1).
      rewrite <- Hid. apply IH; [done | done | by rewrite Hid | done]. }
  split; [exact Hs'|].
  intros t ts form_url st Hget Hts.
  destruct (TaskStatus_of_fields t ts Hts) as (Hst & _).
  unfold property in Hs'. rewrite Hget, Hst in Hs'. injection Hs' as Hs'.
  unfold DownloadForm.pollTaskStatus, backend.getTaskStatus. by rewrite Hs'.
Qed.

End polls_of_a_run.

(** X19: a poll for a task that the registry does not hold, never created,
    deleted, swept or evicted, is answered 404, and the form shows that the
    task does not exist and stops polling. *)
Theorem missing_task_ends_the_polling (id : string) (tm : TaskManager)
    (message form_url : string) (st : DownloadForm.state) :
  getTask id tm = None ->
  (get_task id tm).1 = 404
  /\ exists r,
       task_reply id tm message = Some r
       /\ let p := DownloadForm.pollTaskStatus form_url id r st in
          DownloadForm.error p.1
          = Some "Failed to get task status: The requested task does not exist"
          /\ DownloadForm.loading p.1 = false
          /\ DownloadForm.success p.1 = DownloadForm.success st
          /\ DownloadForm.taskStatus p.1 = DownloadForm.taskStatus st
          /\ p.2 = [].
Proof.
  intros Hget. unfold task_reply, get_task. rewrite Hget. split; [done|].
  eexists. split; [reflexivity|]. by repeat split.
Qed.

Lemma trim_blank (url : string) : trim url <> "" -> url <> "".
Proof. intros H ->. by apply H. Qed.

(** X20: what the form submits for a video is accepted by the backend: a
    URL that is not blank passes the check of the URL, each of the three
    qualities that the form offers is one that the backend accepts, under the
    name by which [processVideo] finds its format selector.  For a blank URL
    the form sends nothing. *)
Theorem video_submission_is_accepted (url : string) (audioFormat : backend.AudioFormat)
    (videoQuality : backend.VideoQuality) :
  (trim url = "" -> DownloadForm.handleSubmit url backend.video audioFormat videoQuality = None)
  /\ (trim url <> "" ->
      exists body,
        DownloadForm.handleSubmit url backend.video audioFormat videoQuality
        = Some (backend.video, body)
        /\ check_request (get_property "url" body) (get_property "quality" body)
           = accepted (JString url) (backend.VideoQuality_text videoQuality)
        /\ exists selector,
             formatSelector (backend.VideoQuality_text videoQuality) = Some selector
             /\ selector <> "best").
Proof.
  unfold DownloadForm.handleSubmit. split.
  - by intros ->.
  - intros Hurl. destruct (String.eqb_spec (trim url) ""); [done|].
    eexists. split; [reflexivity|].
    apply trim_blank, String.eqb_neq in Hurl.
    split.
    + unfold check_request. cbn [backend.payload get_property assoc_last String.eqb
                                  Ascii.eqb Bool.eqb truthy].
      destruct videoQuality; simpl; by rewrite Hurl.
    + destruct videoQuality; eexists; by_computation.
Qed.

(** ** Video information *)

Section video_information.

Variable JSON_parse : string -> option json.
Variable SyntaxError_message : string -> string.
Variable TypeError_message : string.

Lemma append_empty (s : string) : s +:+ "" = s.
Proof.
  induction s as [|c s IH]; [done|].
  change (String c (s +:+ "") = String c s). by rewrite IH.
Qed.

Lemma handle_all_data (chunks : list getVideoInfo.process_event) (s : getVideoInfo.closure) :
  forallb getVideoInfo.is_data chunks = true ->
  getVideoInfo.handle_all JSON_parse SyntaxError_message TypeError_message chunks s
  = {| getVideoInfo.output := getVideoInfo.output s +:+ getVideoInfo.stdout_text chunks;
       getVideoInfo.errorOutput :=
         getVideoInfo.errorOutput s +:+ getVideoInfo.stderr_text chunks;
       getVideoInfo.settled := getVideoInfo.settled s |}.
Proof.
  revert s. induction chunks as [|ev chunks IH]; intros s Hd.
  - simpl. rewrite !append_empty. by destruct s.
  - simpl in Hd. apply andb_prop in Hd as [Hev Hd].
    unfold getVideoInfo.handle_all in *. cbn [foldl]. rewrite IH by done.
    destruct ev; try done; simpl; by rewrite append_assoc.
Qed.

Lemma handle_all_settled (evs : list getVideoInfo.process_event) (s : getVideoInfo.closure) o :
  getVideoInfo.settled s = Some o ->
  getVideoInfo.settled
    (getVideoInfo.handle_all JSON_parse SyntaxError_message TypeError_message evs s)
  = Some o.
Proof.
  revert s. induction evs as [|ev evs IH]; intros s Hp; [done|].
  unfold getVideoInfo.handle_all in *. cbn [foldl]. apply IH.
  destruct ev; simpl; try done; unfold getVideoInfo.settle_with;
    repeat case_match; simpl; congruence.
Qed.

(** X21: [getVideoInfo] decides on the close of the process, from the
    whole output: with exit code 0 it decodes the text that the chunks of
    stdout make up together and resolves with the seven properties read off
    it, or rejects when that text is no JSON or is [null]; with any other
    code it rejects with all that was written to stderr in the message.  How
    the output was cut into chunks, and how stdout and stderr interleave,
    makes no difference, and nothing delivered after the close changes the
    outcome. *)
Theorem video_info_is_read_from_the_whole_output
    (chunks later : list getVideoInfo.process_event) (code : option Z) :
  forallb getVideoInfo.is_data chunks = true ->
  getVideoInfo.settled
    (getVideoInfo.handle_all JSON_parse SyntaxError_message TypeError_message
       (chunks ++ getVideoInfo.on_close code :: later) getVideoInfo.spawned)
  = Some
      match code with
      | Some 0 =>
          match JSON_parse (getVideoInfo.stdout_text chunks) with
          | None =>
              getVideoInfo.reject
                ("Failed to parse video info: "
                 +:+ SyntaxError_message (getVideoInfo.stdout_text chunks))
          | Some JNull =>
              getVideoInfo.reject ("Failed to parse video info: " +:+ TypeError_message)
          | Some videoInfo =>
              getVideoInfo.resolve
                {| getVideoInfo.title := get_property "title" videoInfo;
                   getVideoInfo.duration := get_property "duration" videoInfo;
                   getVideoInfo.uploader := get_property "uploader" videoInfo;
                   getVideoInfo.upload_date := get_property "upload_date" videoInfo;
                   getVideoInfo.view_count := get_property "view_count" videoInfo;
                   getVideoInfo.like_count := get_property "like_count" videoInfo;
                   getVideoInfo.description := get_property "description" videoInfo |}
          end
      | _ =>
          getVideoInfo.reject
            ("Failed to get video info: " +:+ getVideoInfo.stderr_text chunks)
      end.
Proof.
  intros Hd. unfold getVideoInfo.handle_all. rewrite foldl_app. cbn [foldl].
  fold (getVideoInfo.handle_all JSON_parse SyntaxError_message TypeError_message chunks
          getVideoInfo.spawned).
  rewrite handle_all_data by done.
  cbn [getVideoInfo.output getVideoInfo.errorOutput getVideoInfo.settled getVideoInfo.spawned].
  change ("" +:+ ?x) with x.
  match goal with |- getVideoInfo.settled (foldl _ ?s1 later) = _ =>
    fold (getVideoInfo.handle_all JSON_parse SyntaxError_message TypeError_message later s1)
  end.
  apply handle_all_settled.
  by destruct code as [[| |]|].
Qed.

End video_information.

(** ** The key of the API *)

(** X22: a request passes the middleware of [/api] exactly when its header
    [X-API-Key] is the key, which is never empty: the value of [API_KEY] in
    the environment or, when that is not set or empty, the text
    [your-api-key-here], which then opens the API.  A request without the
    header never passes. *)
Theorem api_key_decides (env apiKey : option string) :
  (authenticateApiKey env apiKey = true <-> apiKey = Some (API_KEY env))
  /\ API_KEY env <> ""
  /\ authenticateApiKey env None = false
  /\ (env = None \/ env = Some "" ->
      authenticateApiKey env (Some "your-api-key-here") = true).
Proof.
  assert (API_KEY env <> "") as Hkey.
  { unfold API_KEY. destruct env as [k|]; [|done]. by destruct (String.eqb_spec k ""). }
  split; [|split; [exact Hkey|split]].
  - unfold authenticateApiKey. destruct apiKey as [k|].
    + destruct (String.eqb_spec k "") as [->|Hk]; simpl.
      * split; [done|]. intros [=H]. by rewrite <- H in Hkey.
      * destruct (bool_decide_reflect (Some k = Some (API_KEY env))); simpl; split; done.
    + simpl. split; done.
  - done.
  - intros [-> | ->]; reflexivity.
Qed.

(** ** The polls at concrete runs *)

Lemma record_follows_the_promise_witness :
  exists s',
    run JSON_decode run_completed
      (post_download 1000 "task-1" "https://youtu.be/v" "720p" "0a1b2c3d" constructor)
    = Some s'
    /\ let read k := property k "task-1" (taskManager s') in
       let file := "video_" +:+ pretty 1000 +:+ "_" +:+ "0a1b2c3d" +:+ ".mp4" in
       (read "status" = None \/ read "status" = Some (Str "pending")
        \/ read "status" = Some (Str "processing")
        \/ read "status" = Some (Str "completed")
        \/ read "status" = Some (Str "failed"))
       /\ (read "status" = Some (Str "completed") ->
           (exists size, promise s' = Some (Resolved file size))
           /\ read "filename" = Some (Str file)
           /\ read "downloadUrl" = Some (Str ("/api/download/" +:+ file))
           /\ read "error" = None)
       /\ (read "status" = Some (Str "failed") ->
           exists message, promise s' = Some (Rejected message) /\ message <> ""
                           /\ read "error" = Some (Str message)).
Proof.
  assert (exists s',
            run JSON_decode run_completed
              (post_download 1000 "task-1" "https://youtu.be/v" "720p" "0a1b2c3d" constructor)
            = Some s') as [s' Hrun]
    by (eexists; vm_compute; reflexivity).
  exists s'. split; [exact Hrun|].
  exact (record_follows_the_promise JSON_decode 1000 "task-1" "https://youtu.be/v" "720p"
           "0a1b2c3d" constructor run_completed s' Hrun).
Defined.

Lemma completed_download_is_offered_witness :
  exists s' t ts,
    run JSON_decode run_completed
      (post_download 1000 "task-1" "https://youtu.be/v" "720p" "0a1b2c3d" constructor)
    = Some s'
    /\ getTask "task-1" (taskManager s') = Some t
    /\ TaskStatus_of t = Some ts
    /\ backend.status ts = "completed"
    /\ let file := "video_" +:+ pretty 1000 +:+ "_" +:+ "0a1b2c3d" +:+ ".mp4" in
       let r := DownloadForm.pollTaskStatus "https://youtu.be/v" "task-1" (backend.data ts)
                  loading_form in
       DownloadForm.success r.1 = Some ("Download completed! File: " +:+ file)
       /\ DownloadForm.error r.1 = DownloadForm.error loading_form
       /\ DownloadForm.loading r.1 = false
       /\ r.2 = [DownloadForm.onStatusChange ("Download completed: " +:+ file)]
       /\ DownloadForm.handleDownloadFile r.1 = Some ("/download/" +:+ file)
       /\ t !! "downloadUrl" = Some (Str ("/api" +:+ "/download/" +:+ file)).
Proof.
  assert (exists s' t ts,
            run JSON_decode run_completed
              (post_download 1000 "task-1" "https://youtu.be/v" "720p" "0a1b2c3d" constructor)
            = Some s'
            /\ getTask "task-1" (taskManager s') = Some t
            /\ TaskStatus_of t = Some ts
            /\ backend.status ts = "completed") as (s' & t & ts & Hrun & Hget & Hts & Hc)
    by (do 3 eexists; repeat split; vm_compute; reflexivity).
  exists s', t, ts. do 4 (split; [assumption|]).
  exact (completed_download_is_offered JSON_decode 1000 "task-1" "https://youtu.be/v" "720p"
           "0a1b2c3d" constructor run_completed s' t ts "https://youtu.be/v" loading_form
           Hrun Hget Hts Hc).
Defined.

Example completed_download_on_the_form :
  exists s' t ts,
    run JSON_decode run_completed started = Some s'
    /\ getTask "task-1" (taskManager s') = Some t
    /\ TaskStatus_of t = Some ts
    /\ DownloadForm.pollTaskStatus "https://youtu.be/v" "task-1" (backend.data ts) loading_form
       = ({| DownloadForm.loading := false; DownloadForm.error := None;
             DownloadForm.success :=
               Some "Download completed! File: video_1000_0a1b2c3d.mp4";
             DownloadForm.taskId := Some "task-1";
             DownloadForm.taskStatus := Some ts;
             DownloadForm.progress := Finite (inject_Z 100) |},
          [DownloadForm.onStatusChange "Download completed: video_1000_0a1b2c3d.mp4"]).
Proof. do 3 eexists. repeat split; vm_compute; reflexivity. Qed.

Lemma failed_download_is_reported_witness :
  exists s' t ts,
    run JSON_decode run_failed
      (post_download 1000 "task-1" "https://youtu.be/v" "720p" "0a1b2c3d" constructor)
    = Some s'
    /\ getTask "task-1" (taskManager s') = Some t
    /\ TaskStatus_of t = Some ts
    /\ backend.status ts = "failed"
    /\ let r := DownloadForm.pollTaskStatus "https://youtu.be/v" "task-1" (backend.data ts)
                  loading_form in
       exists message,
         promise s' = Some (Rejected message)
         /\ DownloadForm.error r.1
            = Some (if DownloadForm.includes message "Invalid URL"
                       && DownloadForm.includes "https://youtu.be/v" "music.youtube.com"
                    then DownloadForm.music_message else message)
         /\ DownloadForm.success r.1 = DownloadForm.success loading_form
         /\ DownloadForm.loading r.1 = false
         /\ r.2 = [DownloadForm.onStatusChange "Download failed"].
Proof.
  assert (exists s' t ts,
            run JSON_decode run_failed
              (post_download 1000 "task-1" "https://youtu.be/v" "720p" "0a1b2c3d" constructor)
            = Some s'
            /\ getTask "task-1" (taskManager s') = Some t
            /\ TaskStatus_of t = Some ts
            /\ backend.status ts = "failed") as (s' & t & ts & Hrun & Hget & Hts & Hc)
    by (do 3 eexists; repeat split; vm_compute; reflexivity).
  exists s', t, ts. do 4 (split; [assumption|]).
  exact (failed_download_is_reported JSON_decode 1000 "task-1" "https://youtu.be/v" "720p"
           "0a1b2c3d" constructor run_failed s' t ts "https://youtu.be/v" loading_form
           Hrun Hget Hts Hc).
Defined.

(** The message of the backend is shown as it is; the text about YouTube
    Music replaces a message that names an invalid URL. *)
Example failed_download_on_the_form :
  (exists s' t ts,
     run JSON_decode run_failed started = Some s'
     /\ getTask "task-1" (taskManager s') = Some t
     /\ TaskStatus_of t = Some ts
     /\ DownloadForm.error
          (DownloadForm.pollTaskStatus "https://youtu.be/v" "task-1" (backend.data ts)
             loading_form).1
        = Some "yt-dlp process failed with code 1")
  /\ (exists s' t ts,
        run JSON_decode [(2000, error None "Invalid URL scheme")] started = Some s'
        /\ getTask "task-1" (taskManager s') = Some t
        /\ TaskStatus_of t = Some ts
        /\ DownloadForm.error
             (DownloadForm.pollTaskStatus "https://music.youtube.com/watch?v=v" "task-1"
                (backend.data ts) loading_form).1
           = Some DownloadForm.music_message).
Proof. split; do 3 eexists; repeat split; vm_compute; reflexivity. Qed.

Lemma unsettled_download_is_polled_again_witness :
  exists s' t ts,
    run JSON_decode [(2000, stdout_data (progress_line "50" +:+ LF))]
      (post_download 1000 "task-1" "https://youtu.be/v" "720p" "0a1b2c3d" constructor)
    = Some s'
    /\ promise s' = None
    /\ getTask "task-1" (taskManager s') = Some t
    /\ TaskStatus_of t = Some ts
    /\ let r := DownloadForm.pollTaskStatus "https://youtu.be/v" "task-1" (backend.data ts)
                  loading_form in
       r.2 = [DownloadForm.setTimeout_pollTaskStatus "task-1" 2000]
       /\ DownloadForm.loading r.1 = DownloadForm.loading loading_form
       /\ DownloadForm.error r.1 = DownloadForm.error loading_form
       /\ DownloadForm.success r.1 = DownloadForm.success loading_form
       /\ DownloadForm.taskStatus r.1 = Some ts.
Proof.
  assert (exists s' t ts,
            run JSON_decode [(2000, stdout_data (progress_line "50" +:+ LF))]
              (post_download 1000 "task-1" "https://youtu.be/v" "720p" "0a1b2c3d" constructor)
            = Some s'
            /\ promise s' = None
            /\ getTask "task-1" (taskManager s') = Some t
            /\ TaskStatus_of t = Some ts) as (s' & t & ts & Hrun & Hp & Hget & Hts)
    by (do 3 eexists; repeat split; vm_compute; reflexivity).
  exists s', t, ts. do 4 (split; [assumption|]).
  exact (unsettled_download_is_polled_again JSON_decode 1000 "task-1" "https://youtu.be/v"
           "720p" "0a1b2c3d" constructor [(2000, stdout_data (progress_line "50" +:+ LF))]
           s' t ts "https://youtu.be/v" loading_form Hrun Hp Hget Hts).
Defined.

Lemma settled_processing_is_polled_without_end_witness :
  exists s s',
    run JSON_decode run_timed_out started = Some s
    /\ promise s = Some (Rejected timeout_message)
    /\ status_of (taskId s) (taskManager s) = Some (Str "processing")
    /\ run JSON_decode [(1801002, close None (stat_throws "ENOENT"))] s = Some s'
    /\ status_of (taskId s) (taskManager s') = Some (Str "processing")
    /\ forall t ts form_url st,
         getTask (taskId s) (taskManager s') = Some t ->
         TaskStatus_of t = Some ts ->
         (DownloadForm.pollTaskStatus form_url (taskId s) (backend.data ts) st).2
         = [DownloadForm.setTimeout_pollTaskStatus (taskId s) 2000].
Proof.
  assert (exists s s',
            run JSON_decode run_timed_out started = Some s
            /\ promise s = Some (Rejected timeout_message)
            /\ status_of (taskId s) (taskManager s) = Some (Str "processing")
            /\ run JSON_decode [(1801002, close None (stat_throws "ENOENT"))] s = Some s')
    as (s & s' & Hrun & Hp & Hs & Hlater)
    by (do 2 eexists; repeat split; vm_compute; reflexivity).
  exists s, s'. do 4 (split; [assumption|]).
  exact (settled_processing_is_polled_without_end JSON_decode (Rejected timeout_message) s
           [(1801002, close None (stat_throws "ENOENT"))] s' Hp Hs eq_refl Hlater).
Defined.

Lemma missing_task_ends_the_polling_witness :
  (get_task "t0" (calls downloads101 constructor)).1 = 404
  /\ exists r,
       task_reply "t0" (calls downloads101 constructor) "Request failed with status code 404"
       = Some r
       /\ let p := DownloadForm.pollTaskStatus "https://youtu.be/v" "t0" r loading_form in
          DownloadForm.error p.1
          = Some "Failed to get task status: The requested task does not exist"
          /\ DownloadForm.loading p.1 = false
          /\ DownloadForm.success p.1 = DownloadForm.success loading_form
          /\ DownloadForm.taskStatus p.1 = DownloadForm.taskStatus loading_form
          /\ p.2 = [].
Proof.
  apply (missing_task_ends_the_polling "t0" (calls downloads101 constructor)
           "Request failed with status code 404" "https://youtu.be/v" loading_form).
  vm_compute. reflexivity.
Defined.

Lemma video_info_is_read_from_the_whole_output_witness :
  let chunks :=
    [getVideoInfo.on_stdout ("{" +:+ q "title" +:+ ":" +:+ String dquote "A ");
     getVideoInfo.on_stderr "WARNING: slow";
     getVideoInfo.on_stdout ("video" +:+ String dquote ("," +:+ q "duration" +:+ ":12}"))] in
  getVideoInfo.settled
    (getVideoInfo.handle_all JSON_decode (fun _ => "Unexpected token")
       "Cannot read properties of null"
       (chunks ++ getVideoInfo.on_close (Some 0) :: [getVideoInfo.on_error None "late"])
       getVideoInfo.spawned)
  = Some
      match Some 0 with
      | Some 0 =>
          match JSON_decode (getVideoInfo.stdout_text chunks) with
          | None =>
              getVideoInfo.reject
                ("Failed to parse video info: "
                 +:+ (fun _ => "Unexpected token") (getVideoInfo.stdout_text chunks))
          | Some JNull =>
              getVideoInfo.reject
                ("Failed to parse video info: " +:+ "Cannot read properties of null")
          | Some videoInfo =>
              getVideoInfo.resolve
                {| getVideoInfo.title := get_property "title" videoInfo;
                   getVideoInfo.duration := get_property "duration" videoInfo;
                   getVideoInfo.uploader := get_property "uploader" videoInfo;
                   getVideoInfo.upload_date := get_property "upload_date" videoInfo;
                   getVideoInfo.view_count := get_property "view_count" videoInfo;
                   getVideoInfo.like_count := get_property "like_count" videoInfo;
                   getVideoInfo.description := get_property "description" videoInfo |}
          end
      | _ =>
          getVideoInfo.reject
            ("Failed to get video info: " +:+ getVideoInfo.stderr_text chunks)
      end.
Proof.
  intros chunks.
  apply (video_info_is_read_from_the_whole_output JSON_decode (fun _ => "Unexpected token")
           "Cannot read properties of null" chunks [getVideoInfo.on_error None "late"]
           (Some 0)).
  reflexivity.
Defined.

(** The title is read across the boundary of two chunks; a close with
    another code gives the text of stderr. *)
Example video_info_of_two_chunks :
  let chunks :=
    [getVideoInfo.on_stdout ("{" +:+ q "title" +:+ ":" +:+ String dquote "A ");
     getVideoInfo.on_stderr "WARNING: slow";
     getVideoInfo.on_stdout ("video" +:+ String dquote ("," +:+ q "duration" +:+ ":12}"))] in
  getVideoInfo.settled
    (getVideoInfo.handle_all JSON_decode (fun _ => "Unexpected token")
       "Cannot read properties of null"
       (chunks ++ [getVideoInfo.on_close (Some 0)]) getVideoInfo.spawned)
  = Some (getVideoInfo.resolve
            {| getVideoInfo.title := Some (JString "A video");
               getVideoInfo.duration := Some (JNumber (Finite (inject_Z 12)));
               getVideoInfo.uploader := None; getVideoInfo.upload_date := None;
               getVideoInfo.view_count := None; getVideoInfo.like_count := None;
               getVideoInfo.description := None |})
  /\ getVideoInfo.settled
       (getVideoInfo.handle_all JSON_decode (fun _ => "Unexpected token")
          "Cannot read properties of null"
          (chunks ++ [getVideoInfo.on_close (Some 1)]) getVideoInfo.spawned)
     = Some (getVideoInfo.reject "Failed to get video info: WARNING: slow").
Proof. split; vm_compute; reflexivity. Qed.
